(** * Idle-triggered framebuffer screensavers for an SPI display

    A shallow embedding of the three screensaver scripts
    [fb_saver_3dtext.py], [fb_saver_float_hostname.py] and
    [fb_saver_hostname.py]: the RGB888 to RGB565 pixel converter, the raw
    framebuffer device access, the touch polling and the main loops.

    Python integers are [Z]; bytes objects and bytearrays are [list Z] with
    entries in [0, 256); in-place stores [out[i] = v] are stdpp list
    inserts.  Python floats (clock readings, positions, velocities) are
    IEEE 754 binary64 values [pyfloat], whose arithmetic rounds to the
    nearest double.  Device I/O, the clock and the random generator are
    threaded through an explicit [world]. *)

From Stdlib Require Import ZArith QArith Qround Qabs Qcanon Lia Lqa Bool Ascii String.
From stdpp Require Import base list list_numbers.

Local Open Scope Z_scope.

(** ** Display geometry (identical in the three scripts) *)

Definition W : Z := 480.
Definition H : Z := 320.
Definition BPP : Z := 2.
Definition FRAME_BYTES : Z := W * H * BPP.

(** [len(buf)] *)
Definition len {A} (l : list A) : Z := Z.of_nat (length l).

(** ** Pixel converter *)

(** An RGB pixel as PIL hands it out: [r, g, b = px[x, y]]. *)
Definition pixel : Type := Z * Z * Z.

(** The pixel access object returned by [img.load()], indexed [px[x, y]]. *)
Definition image : Type := Z -> Z -> pixel.

(** [v = ((r & 0xF8) << 8) | ((g & 0xFC) << 3) | (b >> 3)] *)
Definition pack565 (p : pixel) : Z :=
  let '(r, g, b) := p in
  Z.lor (Z.lor (Z.shiftl (Z.land r 0xF8) 8) (Z.shiftl (Z.land g 0xFC) 3))
        (Z.shiftr b 3).

(** [v & 0xFF] and [(v >> 8) & 0xFF] *)
Definition lo_byte (v : Z) : Z := Z.land v 0xFF.
Definition hi_byte (v : Z) : Z := Z.land (Z.shiftr v 8) 0xFF.

(** Body of the inner loop of the converter.  The loop state is the
    bytearray [out] and the running index [i]:
<<
      r, g, b = px[x, y]
      v = ...
      out[i] = v & 0xFF
      out[i+1] = (v >> 8) & 0xFF
      i += 2
>>
    A Python store past the end of a bytearray raises; the loop never does
    that, since [i + 1 < FRAME_BYTES] throughout ([convert_loop_rows]
    below keeps the untouched tail long enough), so the stores are plain
    list inserts. *)
Definition put_pixel (px : image) (y : Z) (st : list Z * Z) (x : Z)
  : list Z * Z :=
  let '(out, i) := st in
  let v := pack565 (px x y) in
  (<[Z.to_nat (i + 1) := hi_byte v]> (<[Z.to_nat i := lo_byte v]> out), i + 2).

(** [for x in range(W): ...] for one row [y]. *)
Definition put_row (px : image) (st : list Z * Z) (y : Z) : list Z * Z :=
  foldl (put_pixel px y) st (seqZ 0 W).

(** [rgb888_to_rgb565_bytes] of [fb_saver_3dtext.py] and
    [fb_saver_float_hostname.py]:
<<
    px = img_rgb.load()
    out = bytearray(FRAME_BYTES)
    i = 0
    for y in range(H):
        for x in range(W): ...
    return bytes(out)
>> *)
Definition rgb888_to_rgb565_bytes (px : image) : list Z :=
  fst (foldl (put_row px) (replicate (Z.to_nat FRAME_BYTES) 0, 0) (seqZ 0 H)).

(** What the converter keeps of a pixel: the top five bits of red and blue
    and the top six bits of green. *)
Definition mask565 (p : pixel) : pixel :=
  let '(r, g, b) := p in (Z.land r 0xF8, Z.land g 0xFC, Z.land b 0xF8).

(** A pixel of an RGB image has 8-bit components. *)
Definition pixel8 (p : pixel) : Prop :=
  let '(r, g, b) := p in
  (0 <= r < 256) /\ (0 <= g < 256) /\ (0 <= b < 256).

(** The two bytes a pixel contributes, in the order they are stored. *)
Definition pixel_bytes (px : image) (y x : Z) : list Z :=
  [lo_byte (pack565 (px x y)); hi_byte (pack565 (px x y))].

Definition row_bytes (px : image) (y : Z) : list Z :=
  flat_map (pixel_bytes px y) (seqZ 0 W).

Definition frame_bytes (px : image) : list Z :=
  flat_map (row_bytes px) (seqZ 0 H).

(** ** Python floats

    A Python float is an IEEE 754 binary64 value: a finite double, one of
    the two infinities, or a NaN.  A finite double is given by the rational
    it denotes, in lowest terms; the two zeros are not told apart, which no
    operation of the scripts can observe (there is no division by a float,
    no [copysign], no [atan2] and no printing of one).  An operation is the
    exact operation on the rationals followed by rounding to the nearest
    double, ties to even, with overflow to an infinity and gradual
    underflow. *)

Inductive pyfloat : Type :=
  | Fin (q : Q)          (* a finite double, by its value *)
  | Inf (neg : bool)     (* [inf], and [-inf] when [neg] *)
  | NaN.

(** [2 ** k] *)
Definition pow2 (k : Z) : Q :=
  if 0 <=? k then inject_Z (2 ^ k) else / inject_Z (2 ^ (- k)).

(** The binary exponent of a positive rational: [2 ** mag q <= q < 2 ** (mag q + 1)]. *)
Definition mag (q : Q) : Z :=
  let k := Z.log2 (Qnum q) - Z.log2 (Zpos (Qden q)) in
  if Qle_bool (pow2 k) q then k else k - 1.

(** The nearest integer, the even one of two that are equally near. *)
Definition rne (s : Q) : Z :=
  let f := Qfloor s in
  match (s - inject_Z f ?= 1 # 2)%Q with
  | Lt => f
  | Gt => f + 1
  | Eq => if Z.even f then f else f + 1
  end.

(** The exponent of the last place of the doubles around a positive [q]: 53
    significant bits, and no exponent below that of the subnormal
    numbers. *)
Definition ulp_exp (q : Q) : Z := Z.max (mag q - 52) (-1074).

(** The nearest multiple of [2 ** e]. *)
Definition round_at (e : Z) (q : Q) : Q :=
  (inject_Z (rne (q / pow2 e)) * pow2 e)%Q.

(** The double nearest to a positive rational; what rounds to [2 ** 1024]
    or beyond overflows. *)
Definition fl_pos (q : Q) : pyfloat :=
  let r := Qred (round_at (ulp_exp q) q) in
  if Qle_bool (pow2 1024) r then Inf false else Fin r.

(** [-a] and [abs(a)] *)
Definition fneg (a : pyfloat) : pyfloat :=
  match a with
  | Fin q => Fin (- q)
  | Inf s => Inf (negb s)
  | NaN => NaN
  end.

Definition fabs (a : pyfloat) : pyfloat :=
  match a with
  | Fin q => Fin (Qabs q)
  | Inf _ => Inf false
  | NaN => NaN
  end.

(** The double nearest to a rational: the value of a float literal, and
    the result of an operation whose exact result is [q]. *)
Definition fl (q : Q) : pyfloat :=
  match (q ?= 0)%Q with
  | Eq => Fin 0
  | Gt => fl_pos q
  | Lt => fneg (fl_pos (- q))
  end.

(** An int where a float is expected, as in [x + tw] or [x = margin]
    followed by [x += vx]: the nearest double, which is the int itself
    below [2 ** 53]. *)
Definition of_Z (z : Z) : pyfloat := fl (inject_Z z).

(** [a + b], [a - b] and [a * b] *)
Definition fadd (a b : pyfloat) : pyfloat :=
  match a, b with
  | NaN, _ | _, NaN => NaN
  | Inf s, Inf t => if Bool.eqb s t then Inf s else NaN
  | Inf s, Fin _ | Fin _, Inf s => Inf s
  | Fin p, Fin q => fl (p + q)
  end.

Definition fsub (a b : pyfloat) : pyfloat := fadd a (fneg b).

Definition Qneg_bool (q : Q) : bool := negb (Qle_bool 0 q).

Definition fmul (a b : pyfloat) : pyfloat :=
  match a, b with
  | NaN, _ | _, NaN => NaN
  | Inf s, Inf t => Inf (xorb s t)
  | Inf s, Fin q | Fin q, Inf s =>
      if Qeq_bool q 0 then NaN else Inf (xorb s (Qneg_bool q))
  | Fin p, Fin q => fl (p * q)
  end.

(** [1.0 / n] for a positive int [n]. *)
Definition finv_int (n : Z) : pyfloat := fl (1 / inject_Z n).

(** [a <= b], [a < b], [a > b] and [a >= b]: false when a NaN is
    compared. *)
Definition fle (a b : pyfloat) : bool :=
  match a, b with
  | Fin p, Fin q => Qle_bool p q
  | Fin _, Inf s => negb s
  | Inf s, Fin _ => s
  | Inf s, Inf t => s || negb t
  | _, _ => false
  end.

Definition flt (a b : pyfloat) : bool :=
  match a, b with
  | Fin p, Fin q => negb (Qle_bool q p)
  | Fin _, Inf s => negb s
  | Inf s, Fin _ => s
  | Inf s, Inf t => s && negb t
  | _, _ => false
  end.

Definition fgt (a b : pyfloat) : bool := flt b a.
Definition fge (a b : pyfloat) : bool := fle b a.


Definition is_nan (a : pyfloat) : bool :=
  match a with NaN => true | _ => false end.

(** The value of a finite double. *)
Definition fval (a : pyfloat) : Q :=
  match a with Fin q => q | _ => 0%Q end.

(** [int(q)] on a finite value: truncation toward zero. *)
Definition Qtrunc (q : Q) : Z := Z.quot (Qnum q) (Zpos (Qden q)).

(** [a % m] for a positive finite [m]: the remainder of the C library's
    [fmod], which is exact and has the sign of [a], moved into [[0, m]] by
    adding [m] when it is negative; that sum is rounded, and can be [m]
    itself. *)
Definition pymod (a : pyfloat) (m : Q) : pyfloat :=
  match a with
  | Fin p =>
      let r := (p - m * inject_Z (Qtrunc (p / m)))%Q in
      if Qeq_bool r 0 then Fin 0
      else if Qle_bool 0 r then Fin (Qred r) else fl (r + m)
  | _ => NaN
  end.

(** ** Exceptions *)

Inductive exn : Type :=
  | ValueError        (* [raise ValueError("frame size mismatch")] *)
  | TypeError         (* writing [None] to a file *)
  | OSError           (* any failed open, read or write *)
  | BlockingIOError.  (* a non-blocking read with nothing to read *)

Inductive result (A : Type) : Type :=
  | Ok (a : A)
  | Raise (e : exn).
Arguments Ok {A} a.
Arguments Raise {A} e.

(** ** The world outside the interpreter *)

(** An evdev input event; only its [type] is inspected by the scripts. *)
Record input_event : Type := {
  ev_type : Z;
  ev_code : Z;
  ev_value : Z
}.

(** [ecodes.EV_SYN], [EV_KEY], [EV_REL], [EV_ABS], [EV_MSC] *)
Definition EV_SYN : Z := 0.
Definition EV_KEY : Z := 1.
Definition EV_REL : Z := 2.
Definition EV_ABS : Z := 3.
Definition EV_MSC : Z := 4.

(** What the program does not control, indexed by how often it asked:
    which accesses to [/dev/fb0] fail, which events arrive before a poll,
    which polls fail, how many events one read of the input device hands
    over at most, the readings of the monotonic and of the wall clock, and
    the draws of the random generator. *)
Record oracle : Type := {
  fb_faulty : nat -> bool;
  ev_arrival : nat -> list input_event;
  ev_faulty : nat -> bool;
  ev_batch : nat;
  clock : nat -> pyfloat;
  wall_clock : nat -> pyfloat;
  rand_uniform : nat -> pyfloat -> pyfloat -> pyfloat;
  rand_int : nat -> Z -> Z -> Z
}.

(** The part of the world the program changes: the bytes of [/dev/fb0] and
    the number of times it was opened, the events queued on the touch
    device and the number of reads, and how often the clocks and the
    random generator were consulted. *)
Record world : Type := {
  env : oracle;
  fb_data : list Z;
  fb_opens : nat;
  ev_queue : list input_event;
  ev_reads : nat;
  clock_reads : nat;
  wall_reads : nat;
  rand_draws : nat
}.

Definition fb_accessed (data : list Z) (w : world) : world :=
  {| env := env w; fb_data := data; fb_opens := S (fb_opens w);
     ev_queue := ev_queue w; ev_reads := ev_reads w;
     clock_reads := clock_reads w; wall_reads := wall_reads w;
     rand_draws := rand_draws w |}.

Definition ev_polled (q : list input_event) (w : world) : world :=
  {| env := env w; fb_data := fb_data w; fb_opens := fb_opens w;
     ev_queue := q; ev_reads := S (ev_reads w);
     clock_reads := clock_reads w; wall_reads := wall_reads w;
     rand_draws := rand_draws w |}.

Definition clock_read (w : world) : world :=
  {| env := env w; fb_data := fb_data w; fb_opens := fb_opens w;
     ev_queue := ev_queue w; ev_reads := ev_reads w;
     clock_reads := S (clock_reads w); wall_reads := wall_reads w;
     rand_draws := rand_draws w |}.

Definition wall_read (w : world) : world :=
  {| env := env w; fb_data := fb_data w; fb_opens := fb_opens w;
     ev_queue := ev_queue w; ev_reads := ev_reads w;
     clock_reads := clock_reads w; wall_reads := S (wall_reads w);
     rand_draws := rand_draws w |}.

Definition rand_drawn (w : world) : world :=
  {| env := env w; fb_data := fb_data w; fb_opens := fb_opens w;
     ev_queue := ev_queue w; ev_reads := ev_reads w;
     clock_reads := clock_reads w; wall_reads := wall_reads w;
     rand_draws := S (rand_draws w) |}.

(** ** Effectful code: state passing over the world, with exceptions *)

Definition M (A : Type) : Type := world -> result A * world.

Definition ret {A} (a : A) : M A := fun w => (Ok a, w).

Definition bind {A B} (m : M A) (k : A -> M B) : M B :=
  fun w =>
    match m w with
    | (Ok a, w') => k a w'
    | (Raise e, w') => (Raise e, w')
    end.

Definition raise {A} (e : exn) : M A := fun w => (Raise e, w).

(** [try: m  except Exception: pass] *)
Definition try_pass (m : M unit) : M unit :=
  fun w =>
    match m w with
    | (Ok a, w') => (Ok a, w')
    | (Raise _, w') => (Ok tt, w')
    end.

Declare Scope io_scope.
Delimit Scope io_scope with io.
Notation "x <- m ;; k" := (bind m (fun x => k))
  (at level 100, m at next level, right associativity) : io_scope.
Notation "m ;;; k" := (bind m (fun _ => k))
  (at level 100, right associativity) : io_scope.
Local Open Scope io_scope.

(** [time.monotonic()], [time.time()] and [time.sleep(d)] *)
Definition time_monotonic : M pyfloat :=
  fun w => (Ok (clock (env w) (clock_reads w)), clock_read w).

Definition time_time : M pyfloat :=
  fun w => (Ok (wall_clock (env w) (wall_reads w)), wall_read w).

Definition sleep (d : pyfloat) : M unit := ret tt.

(** [random.uniform(a, b)] and [random.randint(a, b)] *)
Definition random_uniform (a b : pyfloat) : M pyfloat :=
  fun w => (Ok (rand_uniform (env w) (rand_draws w) a b), rand_drawn w).

Definition random_randint (a b : Z) : M Z :=
  fun w => (Ok (rand_int (env w) (rand_draws w) a b), rand_drawn w).

(** ** Framebuffer device *)

(** The frame one unbuffered [f.read(FRAME_BYTES)] yields, zero-filled when
    the device delivers fewer bytes:
<<
    if len(buf) < FRAME_BYTES:
        buf += b"\x00" * (FRAME_BYTES - len(buf))
>> *)
Definition pad_frame (buf : list Z) : list Z :=
  if len buf <? FRAME_BYTES
  then buf ++ replicate (Z.to_nat (FRAME_BYTES - len buf)) 0
  else buf.

Definition frame_of (data : list Z) : list Z :=
  pad_frame (take (Z.to_nat FRAME_BYTES) data).

(** [fb_read], the same in the three scripts.  A failing open or read
    raises [OSError]. *)
Definition fb_read : M (list Z) :=
  fun w =>
    if fb_faulty (env w) (fb_opens w)
    then (Raise OSError, fb_accessed (fb_data w) w)
    else (Ok (frame_of (fb_data w)), fb_accessed (fb_data w) w).

(** The bytes of the device after [buf] was written at its start: the
    bytes after [buf] stay as they were, and the device keeps its size, so
    what does not fit is not stored. *)
Definition overwrite (buf data : list Z) : list Z :=
  take (length data) (buf ++ drop (length buf) data).

(** Opening the device node for writing and writing [buf] at its start.  A
    failing access raises [OSError] and stores nothing. *)
Definition fb_store (buf : list Z) : M unit :=
  fun w =>
    if fb_faulty (env w) (fb_opens w)
    then (Raise OSError, fb_accessed (fb_data w) w)
    else (Ok tt, fb_accessed (overwrite buf (fb_data w)) w).

(** The write of the host name script handed [None]: the device is opened,
    then [f.write(None)] raises [TypeError]. *)
Definition fb_store_none : M unit :=
  fun w =>
    if fb_faulty (env w) (fb_opens w)
    then (Raise OSError, fb_accessed (fb_data w) w)
    else (Raise TypeError, fb_accessed (fb_data w) w).

(** [fb_write] of [fb_saver_3dtext.py] and [fb_saver_float_hostname.py]:
<<
    if len(buf) != FRAME_BYTES:
        raise ValueError("frame size mismatch")
    with open(FB, "wb", buffering=0) as f:
        f.write(buf)
>> *)
Definition fb_write (buf : list Z) : M unit :=
  if negb (len buf =? FRAME_BYTES)
  then raise ValueError
  else fb_store buf.

(** ** Touch device *)

(** [dev.read()]: one non-blocking read of the device.  It raises
    [BlockingIOError] when nothing is queued, and otherwise hands over the
    events of one read, which are gone from the queue whether or not the
    caller looks at all of them. *)
Definition dev_read : M (list input_event) :=
  fun w =>
    let n := ev_reads w in
    let q := ev_queue w ++ ev_arrival (env w) n in
    if ev_faulty (env w) n then (Raise OSError, ev_polled q w)
    else match q with
         | [] => (Raise BlockingIOError, ev_polled q w)
         | _ :: _ =>
             (Ok (take (ev_batch (env w)) q),
              ev_polled (drop (ev_batch (env w)) q) w)
         end.

(** [ev.type in (ecodes.EV_KEY, ecodes.EV_ABS, ecodes.EV_REL)] *)
Definition is_touch_type (ev : input_event) : bool :=
  (ev_type ev =? EV_KEY) || (ev_type ev =? EV_ABS) || (ev_type ev =? EV_REL).

(** The event categories of that test, as a proposition. *)
Definition touch_category (ev : input_event) : Prop :=
  ev_type ev = EV_KEY \/ ev_type ev = EV_ABS \/ ev_type ev = EV_REL.

(** The [for] loop of [touch_event_available] in [fb_saver_3dtext.py] and
    [fb_saver_float_hostname.py], with the [return False] after it:
<<
    for ev in dev.read():
        if ev.type in (...):
            return True
    ...
    return False
>> *)
Fixpoint scan_events (evs : list input_event) : bool :=
  match evs with
  | [] => false
  | ev :: rest => if is_touch_type ev then true else scan_events rest
  end.

(** The two [except] clauses around the loop: [BlockingIOError] and any
    other [OSError] both give [False]. *)
Definition poll_with (loop : list input_event -> bool) : M bool :=
  fun w =>
    match dev_read w with
    | (Ok evs, w') => (Ok (loop evs), w')
    | (Raise BlockingIOError, w') => (Ok false, w')
    | (Raise OSError, w') => (Ok false, w')
    | (Raise e, w') => (Raise e, w')
    end.

Definition touch_event_available : M bool := poll_with scan_events.

(** ** Finding the touch device (identical in the three scripts) *)

(** [s.lower()], for device names in ASCII. *)
Definition lower_ascii (c : ascii) : ascii :=
  let n := nat_of_ascii c in
  if (65 <=? n)%nat && (n <=? 90)%nat then ascii_of_nat (n + 32) else c.

Fixpoint lower (s : string) : string :=
  match s with
  | EmptyString => EmptyString
  | String c rest => String (lower_ascii c) (lower rest)
  end.

(** [needle in hay] on strings. *)
Fixpoint contains (needle hay : string) : bool :=
  if String.prefix needle hay then true
  else match hay with
       | EmptyString => false
       | String _ rest => contains needle rest
       end.

(** An entry of [list_devices()]: its path, whether [InputDevice(p)]
    succeeds on it, and the name the device reports, if any. *)
Record input_node : Type := {
  node_path : string;
  node_opens : bool;
  node_name : option string
}.

(** [(d.name or "").lower()] *)
Definition lowered_name (d : input_node) : string :=
  lower (match node_name d with Some name => name | None => EmptyString end).

(** One of the two loops of [find_touch_device]:
<<
    for p in list_devices():
        d = InputDevice(p)
        if key in (d.name or "").lower():
            return d
>>
    [Ok None] stands for falling out of the loop; a node that cannot be
    opened raises [OSError] when the loop gets to it. *)
Fixpoint find_named (key : string) (nodes : list input_node)
  : result (option input_node) :=
  match nodes with
  | [] => Ok None
  | d :: rest =>
      if node_opens d then
        if contains key (lowered_name d) then Ok (Some d)
        else find_named key rest
      else Raise OSError
  end.

(** [find_touch_device]: first any device named like the ADS7846
    controller, then any device with "touch" in its name, else [None]. *)
Definition find_touch_device (nodes : list input_node)
  : result (option input_node) :=
  match find_named "ads7846" nodes with
  | Ok None => find_named "touch" nodes
  | found => found
  end.

(** ** [fb_saver_3dtext.py]: bouncing extruded text *)

Module Text3D.

Definition IDLE_SEC : Z := 600.
Definition FPS : Z := 20.
Definition EXTRUDE : Z := 10.

(** The position update of the main loop, on the locals [x, y, vx, vy];
    [tw] and [th] are the text extents measured once before the loop.
<<
    x += vx
    y += vy
    margin = 12 + EXTRUDE
    if x < margin:          x = margin;          vx = abs(vx)
    if y < margin:          y = margin;          vy = abs(vy)
    if x + tw > W - margin: x = W - margin - tw; vx = -abs(vx)
    if y + th > H - margin: y = H - margin - th; vy = -abs(vy)
>>
    [x] and [y] are floats, [margin], [tw], [th], [W] and [H] ints.  An int
    added to or compared with a float is converted to a float first; an
    int stored in [x] or [y] by a clamp is converted by the next [x += vx],
    and is kept here as the float it becomes.  The conversions are exact
    for ints below [2 ** 53], far above any text extent. *)
Definition bounce (tw th : Z) (p : pyfloat * pyfloat * pyfloat * pyfloat)
  : pyfloat * pyfloat * pyfloat * pyfloat :=
  let '(x, y, vx, vy) := p in
  let x := fadd x vx in
  let y := fadd y vy in
  let margin := 12 + EXTRUDE in
  let '(x, vx) :=
    if flt x (of_Z margin) then (of_Z margin, fabs vx) else (x, vx) in
  let '(y, vy) :=
    if flt y (of_Z margin) then (of_Z margin, fabs vy) else (y, vy) in
  let '(x, vx) :=
    if fgt (fadd x (of_Z tw)) (of_Z (W - margin))
    then (of_Z (W - margin - tw), fneg (fabs vx)) else (x, vx) in
  let '(y, vy) :=
    if fgt (fadd y (of_Z th)) (of_Z (H - margin))
    then (of_Z (H - margin - th), fneg (fabs vy)) else (y, vy) in
  (x, y, vx, vy).

(** One axis of the update, the two being independent of each other: the
    position [x] and velocity [v] after the move and the two tests, against
    the lower bound [lo] and against the upper bound [hi] for a text of
    extent [ext]. *)
Definition bounce_axis (lo hi ext : Z) (x v : pyfloat) : pyfloat * pyfloat :=
  let x := fadd x v in
  let '(x, v) := if flt x (of_Z lo) then (of_Z lo, fabs v) else (x, v) in
  if fgt (fadd x (of_Z ext)) (of_Z hi)
  then (of_Z (hi - ext), fneg (fabs v)) else (x, v).

(** The locals of [main] that live across iterations. *)
Record state : Type := {
  last_activity : pyfloat;
  saver_on : bool;
  saved : option (list Z);
  x : pyfloat;
  y : pyfloat;
  vx : pyfloat;
  vy : pyfloat;
  next_frame : pyfloat;
  t0 : pyfloat
}.

Definition sprite (st : state) : pyfloat * pyfloat * pyfloat * pyfloat :=
  (x st, y st, vx st, vy st).





Section Main.

(** Text extents [tw, th] from [dd.textbbox], and the drawing done by
    [render_3d_text_frame(t, x, y)] up to [img.convert("RGB")]. *)
Variables tw th : Z.
Variable paint : pyfloat -> pyfloat -> pyfloat -> image.

Definition render_3d_text_frame (t x y : pyfloat) : list Z :=
  rgb888_to_rgb565_bytes (paint t x y).

(** Lines 157-166: poll the touch device; on activity refresh
    [last_activity] and, when the saver is on, write the saved frame back
    (ignoring any exception) and leave the saver. *)
Definition activity_phase (st : state) : M state :=
  touched <- touch_event_available ;;
  if touched then
    t <- time_monotonic ;;
    let st := {| last_activity := t; saver_on := saver_on st;
                 saved := saved st; x := x st; y := y st; vx := vx st;
                 vy := vy st; next_frame := next_frame st; t0 := t0 st |} in
    if saver_on st then
      (match saved st with
       | Some buf => try_pass (fb_write buf)
       | None => ret tt
       end) ;;;
      ret {| last_activity := last_activity st; saver_on := false;
             saved := None; x := x st; y := y st; vx := vx st; vy := vy st;
             next_frame := next_frame st; t0 := t0 st |}
    else ret st
  else ret st.

(** Lines 170-174: enter the saver after more than [IDLE_SEC] seconds
    without activity, saving the framebuffer first. *)
Definition idle_phase (now : pyfloat) (st : state) : M state :=
  if negb (saver_on st) && fgt (fsub now (last_activity st)) (of_Z IDLE_SEC)
  then
    buf <- fb_read ;;
    ret {| last_activity := last_activity st; saver_on := true;
           saved := Some buf; x := x st; y := y st; vx := vx st; vy := vy st;
           next_frame := Fin 0; t0 := now |}
  else ret st.

(** Lines 176-204: when the saver is on and a frame is due, move the
    sprite, render and write the frame; then sleep. *)
Definition render_phase (now : pyfloat) (st : state) : M state :=
  if saver_on st then
    st' <- (if fge now (next_frame st) then
              let '(x1, y1, vx1, vy1) := bounce tw th (sprite st) in
              let t := fsub now (t0 st) in
              let frame := render_3d_text_frame t x1 y1 in
              fb_write frame ;;;
              ret {| last_activity := last_activity st;
                     saver_on := saver_on st; saved := saved st;
                     x := x1; y := y1; vx := vx1; vy := vy1;
                     next_frame := fadd now (finv_int (Z.max FPS 1));
                     t0 := t0 st |}
            else ret st) ;;
    sleep (fl (1 # 1000)) ;;;
    ret st'
  else
    sleep (fl (5 # 100)) ;;;
    ret st.

(** The locals after a frame was drawn at time [now]: the sprite moved
    once, the next frame due a frame period later. *)
Definition drawn (now : pyfloat) (st : state) : state :=
  let '(x1, y1, vx1, vy1) := bounce tw th (sprite st) in
  {| last_activity := last_activity st; saver_on := saver_on st;
     saved := saved st; x := x1; y := y1; vx := vx1; vy := vy1;
     next_frame := fadd now (finv_int (Z.max FPS 1)); t0 := t0 st |}.

(** One iteration of [while True]. *)
Definition tick (st : state) : M state :=
  st <- activity_phase st ;;
  now <- time_monotonic ;;
  st <- idle_phase now st ;;
  render_phase now st.

(** The locals as [main] sets them up before the loop (after the touch
    device was found). *)
Definition main_init : M state :=
  t <- time_monotonic ;;
  t' <- time_monotonic ;;
  ret {| last_activity := t; saver_on := false; saved := None;
         x := fl 40; y := fl 80; vx := fl (26 # 10); vy := fl (19 # 10);
         next_frame := Fin 0; t0 := t' |}.

(** [n] iterations of the loop; an exception ends it. *)
Fixpoint run (n : nat) (st : state) : M state :=
  match n with
  | O => ret st
  | S n' => st' <- tick st ;; run n' st'
  end.

(** A tick in which the poll reports no activity. *)
Definition quiet (w : world) : Prop :=
  fst (touch_event_available w) = Ok false.

(** [session s1 s2]: the loop gets from [s1] to [s2] by quiet ticks only. *)
Inductive session : state * world -> state * world -> Prop :=
  | session_here s : session s s
  | session_tick st w st1 w1 s2 :
      quiet w ->
      tick st w = (Ok st1, w1) ->
      session (st1, w1) s2 ->
      session (st, w) s2.

End Main.

End Text3D.

(** ** [fb_saver_float_hostname.py]: floating rainbow hostnames *)

Module FloatHostname.

Definition IDLE_SEC : Z := 10.
Definition FPS : Z := 15.
Definition NUM_PARTICLES : Z := 10.

Definition SPEED_MIN : pyfloat := fl 12.
Definition SPEED_MAX : pyfloat := fl 40.
Definition ROT_SPEED_MIN : pyfloat := fl (-90).
Definition ROT_SPEED_MAX : pyfloat := fl 90.
Definition SIZE_MIN : Z := 14.
Definition SIZE_MAX : Z := 44.
Definition HUE_SPEED : pyfloat := fl 80.

(** The dataclass [Particle]. *)
Record Particle : Type := {
  text : string;
  x : pyfloat;
  y : pyfloat;
  vy : pyfloat;
  angle : pyfloat;
  omega : pyfloat;
  size : Z;
  hue_offset : pyfloat
}.

(** [max(a, b)]: the second argument when it is greater, else the
    first. *)
Definition pymax (a b : pyfloat) : pyfloat := if fgt b a then b else a.

Record state : Type := {
  last_activity : pyfloat;
  saver_on : bool;
  saved : option (list Z);
  particles : list Particle;
  last_t : pyfloat;
  next_frame : pyfloat
}.

Section Main.

(** The host name resolved at import time, and the drawing done by
    [render_frame] from the updated particles and the global hue up to
    [base.convert("RGB")]. *)
Variable HOSTNAME : string.
Variable paint : list Particle -> pyfloat -> image.

Definition new_particle : M Particle :=
  x <- random_uniform (of_Z 0) (of_Z W) ;;
  y <- random_uniform (of_Z H) (of_Z (H + 200)) ;;
  vy <- random_uniform SPEED_MIN SPEED_MAX ;;
  angle <- random_uniform (of_Z 0) (of_Z 360) ;;
  omega <- random_uniform ROT_SPEED_MIN ROT_SPEED_MAX ;;
  size <- random_randint SIZE_MIN SIZE_MAX ;;
  hue_offset <- random_uniform (of_Z 0) (of_Z 360) ;;
  ret {| text := HOSTNAME; x := x; y := y; vy := vy; angle := angle;
         omega := omega; size := size; hue_offset := hue_offset |}.

(** [[new_particle() for _ in range(n)]] *)
Fixpoint spawn (n : nat) : M (list Particle) :=
  match n with
  | O => ret []
  | S n' => p <- new_particle ;; ps <- spawn n' ;; ret (p :: ps)
  end.

(** The update of one particle in [render_frame]: rise, rotate, and take
    over the fields of a new particle once above the top exit bound.
<<
    p.y -= p.vy * dt
    p.angle = (p.angle + p.omega * dt) % 360
    if p.y < -260: ...
>> *)
Definition update_particle (dt : pyfloat) (p : Particle) : M Particle :=
  let y1 := fsub (y p) (fmul (vy p) dt) in
  let angle1 := pymod (fadd (angle p) (fmul (omega p) dt)) 360 in
  if flt y1 (of_Z (-260)) then new_particle
  else ret {| text := text p; x := x p; y := y1; vy := vy p;
              angle := angle1; omega := omega p; size := size p;
              hue_offset := hue_offset p |}.

Fixpoint update_particles (dt : pyfloat) (ps : list Particle)
  : M (list Particle) :=
  match ps with
  | [] => ret []
  | p :: rest =>
      p' <- update_particle dt p ;;
      rest' <- update_particles dt rest ;;
      ret (p' :: rest')
  end.

(** [render_frame(particles, dt)]: the particles are updated in place, so
    the updated list is returned next to the frame. *)
Definition render_frame (ps : list Particle) (dt : pyfloat)
  : M (list Particle * list Z) :=
  ps' <- update_particles dt ps ;;
  now <- time_time ;;
  let global_hue := pymod (fmul now HUE_SPEED) 360 in
  ret (ps', rgb888_to_rgb565_bytes (paint ps' global_hue)).

(** Lines 248-259. *)
Definition activity_phase (st : state) : M state :=
  touched <- touch_event_available ;;
  if touched then
    t <- time_monotonic ;;
    let st := {| last_activity := t; saver_on := saver_on st;
                 saved := saved st; particles := particles st;
                 last_t := last_t st; next_frame := next_frame st |} in
    if saver_on st then
      (match saved st with
       | Some buf => try_pass (fb_write buf)
       | None => ret tt
       end) ;;;
      t' <- time_monotonic ;;
      ret {| last_activity := last_activity st; saver_on := false;
             saved := None; particles := particles st;
             last_t := t'; next_frame := Fin 0 |}
    else ret st
  else ret st.

(** Lines 263-268. *)
Definition idle_phase (now : pyfloat) (st : state) : M state :=
  if negb (saver_on st) && fgt (fsub now (last_activity st)) (of_Z IDLE_SEC)
  then
    buf <- fb_read ;;
    ps <- spawn (Z.to_nat NUM_PARTICLES) ;;
    ret {| last_activity := last_activity st; saver_on := true;
           saved := Some buf; particles := ps;
           last_t := now; next_frame := Fin 0 |}
  else ret st.

(** Lines 270-279. *)
Definition render_phase (now : pyfloat) (st : state) : M state :=
  if saver_on st then
    st' <- (if fge now (next_frame st) then
              let dt := pymax (fl (1 # 1000)) (fsub now (last_t st)) in
              r <- render_frame (particles st) dt ;;
              fb_write (snd r) ;;;
              ret {| last_activity := last_activity st;
                     saver_on := saver_on st; saved := saved st;
                     particles := fst r; last_t := now;
                     next_frame := fadd now (finv_int (Z.max FPS 1)) |}
            else ret st) ;;
    sleep (fl (1 # 1000)) ;;;
    ret st'
  else
    sleep (fl (5 # 100)) ;;;
    ret st.

Definition tick (st : state) : M state :=
  st <- activity_phase st ;;
  now <- time_monotonic ;;
  st <- idle_phase now st ;;
  render_phase now st.

Definition main_init : M state :=
  t <- time_monotonic ;;
  ps <- spawn (Z.to_nat NUM_PARTICLES) ;;
  t' <- time_monotonic ;;
  ret {| last_activity := t; saver_on := false; saved := None;
         particles := ps; last_t := t'; next_frame := Fin 0 |}.

(** [n] iterations of the loop; an exception ends it. *)
Fixpoint run (n : nat) (st : state) : M state :=
  match n with
  | O => ret st
  | S n' => st' <- tick st ;; run n' st'
  end.

(** A tick in which the poll reports no activity. *)
Definition quiet (w : world) : Prop :=
  fst (touch_event_available w) = Ok false.

(** [session s1 s2]: the loop gets from [s1] to [s2] by quiet ticks only. *)
Inductive session : state * world -> state * world -> Prop :=
  | session_here s : session s s
  | session_tick st w st1 w1 s2 :
      quiet w ->
      tick st w = (Ok st1, w1) ->
      session (st1, w1) s2 ->
      session (st, w) s2.

End Main.

End FloatHostname.

(** ** [fb_saver_hostname.py]: the host name redrawn at a random place *)

Module Hostname.

Definition IDLE_SEC : Z := 10.
Definition INTERVAL : pyfloat := fl 5.

(** [touch_event_available] of this script returns at the first event of
    whatever type:
<<
    for _ in dev.read():
        return True
    ...
    return False
>> *)
Definition first_event (evs : list input_event) : bool :=
  match evs with
  | [] => false
  | _ :: _ => true
  end.

Definition touch_event_available : M bool := poll_with first_event.

(** [fb_write] of this script has no length test:
<<
    with open(FB, "wb", buffering=0) as f:
        f.write(buf)
>> *)
Definition fb_write (buf : list Z) : M unit := fb_store buf.

(** [rgb888_to_rgb565], the converter under its name in this script; the
    body is the one of [rgb888_to_rgb565_bytes]. *)
Definition rgb888_to_rgb565 (px : image) : list Z :=
  fst (foldl (put_row px) (replicate (Z.to_nat FRAME_BYTES) 0, 0) (seqZ 0 H)).

Record state : Type := {
  last_activity : pyfloat;
  saver_on : bool;
  saved : option (list Z);
  next_draw : pyfloat
}.

Section Main.

(** Extents of the host name from [d.textbbox], and the drawing of the
    host name at [(x, y)] on a black image. *)
Variables tw th : Z.
Variable paint : Z -> Z -> image.

(** Lines 112-117: the restore is not guarded.  [saved] is [None] only
    while the saver is off. *)
Definition activity_phase (st : state) : M state :=
  touched <- touch_event_available ;;
  if touched then
    t <- time_monotonic ;;
    let st := {| last_activity := t; saver_on := saver_on st;
                 saved := saved st; next_draw := next_draw st |} in
    if saver_on st then
      (match saved st with
       | Some buf => fb_write buf
       | None => fb_store_none
       end) ;;;
      ret {| last_activity := last_activity st; saver_on := false;
             saved := None; next_draw := next_draw st |}
    else ret st
  else ret st.

(** Lines 121-124. *)
Definition idle_phase (now : pyfloat) (st : state) : M state :=
  if negb (saver_on st) && fgt (fsub now (last_activity st)) (of_Z IDLE_SEC)
  then
    buf <- fb_read ;;
    ret {| last_activity := last_activity st; saver_on := true;
           saved := Some buf; next_draw := Fin 0 |}
  else ret st.

(** Lines 126-142. *)
Definition render_phase (now : pyfloat) (st : state) : M state :=
  st' <- (if saver_on st && fge now (next_draw st) then
            x <- random_randint 0 (Z.max 0 (W - tw)) ;;
            y <- random_randint 0 (Z.max 0 (H - th)) ;;
            fb_write (rgb888_to_rgb565 (paint x y)) ;;;
            ret {| last_activity := last_activity st;
                   saver_on := saver_on st; saved := saved st;
                   next_draw := fadd now INTERVAL |}
          else ret st) ;;
  sleep (fl (2 # 100)) ;;;
  ret st'.

Definition tick (st : state) : M state :=
  st <- activity_phase st ;;
  now <- time_monotonic ;;
  st <- idle_phase now st ;;
  render_phase now st.

Definition main_init : M state :=
  t <- time_monotonic ;;
  ret {| last_activity := t; saver_on := false; saved := None;
         next_draw := Fin 0 |}.

(** [n] iterations of the loop; an exception ends it. *)
Fixpoint run (n : nat) (st : state) : M state :=
  match n with
  | O => ret st
  | S n' => st' <- tick st ;; run n' st'
  end.

(** A tick in which the poll reports no activity. *)
Definition quiet (w : world) : Prop :=
  fst (touch_event_available w) = Ok false.

(** [session s1 s2]: the loop gets from [s1] to [s2] by quiet ticks only. *)
Inductive session : state * world -> state * world -> Prop :=
  | session_here s : session s s
  | session_tick st w st1 w1 s2 :
      quiet w ->
      tick st w = (Ok st1, w1) ->
      session (st1, w1) s2 ->
      session (st, w) s2.

End Main.

End Hostname.

(** ** Predicates on states and oracles *)

(** The saved frame goes with the saver flag: a frame of [FRAME_BYTES]
    bytes while the saver is on, [None] while it is off. *)
Definition saved_ok (saver_on : bool) (saved : option (list Z)) : Prop :=
  match saved with
  | Some frame => saver_on = true /\ len frame = FRAME_BYTES
  | None => saver_on = false
  end.

(** A device node a loop of [find_touch_device] looking for [key] returns,
    and one it opens and passes over. *)
Definition usable (key : string) (d : input_node) : Prop :=
  node_opens d = true /\ contains key (lowered_name d) = true.

Definition passed_over (key : string) (d : input_node) : Prop :=
  node_opens d = true /\ contains key (lowered_name d) = false.

(** A random generator that keeps to the bounds it is given; the upper
    bound of [random.uniform] can be reached. *)
Definition rng_in_bounds (o : oracle) : Prop :=
  (forall n a b, fle a b = true ->
     fle a (rand_uniform o n a b) = true /\
     fle (rand_uniform o n a b) b = true) /\
  (forall n a b, a <= b -> a <= rand_int o n a b <= b).

(** What [new_particle] promises of a particle when the generator keeps
    to its bounds: it carries the host name, starts below the bottom edge
    and rises. *)
Definition freshly_spawned (name : string) (p : FloatHostname.Particle) : Prop :=
  FloatHostname.text p = name /\
  fle (of_Z 0) (FloatHostname.x p) = true /\
  fle (FloatHostname.x p) (of_Z W) = true /\
  fle (of_Z H) (FloatHostname.y p) = true /\
  fle (FloatHostname.y p) (of_Z (H + 200)) = true /\
  fle FloatHostname.SPEED_MIN (FloatHostname.vy p) = true /\
  fle (FloatHostname.vy p) FloatHostname.SPEED_MAX = true /\
  fle (of_Z 0) (FloatHostname.angle p) = true /\
  fle (FloatHostname.angle p) (of_Z 360) = true /\
  fle FloatHostname.ROT_SPEED_MIN (FloatHostname.omega p) = true /\
  fle (FloatHostname.omega p) FloatHostname.ROT_SPEED_MAX = true /\
  FloatHostname.SIZE_MIN <= FloatHostname.size p <= FloatHostname.SIZE_MAX /\
  fle (of_Z 0) (FloatHostname.hue_offset p) = true /\
  fle (FloatHostname.hue_offset p) (of_Z 360) = true.

(** An angle as [% 360] leaves it: within [[0, 360]], the upper end
    included, or a NaN. *)
Definition reduced_angle (a : pyfloat) : Prop :=
  is_nan a = true \/ (fle (of_Z 0) a = true /\ fle a (of_Z 360) = true).

(** What [render_frame] does to one particle [p] in a step of [dt]
    seconds, giving [p']: once [p] has risen above the exit bound, [p'] is
    a new particle; otherwise [p'] is [p] moved up and turned, its angle
    reduced. *)
Definition particle_step (name : string) (dt : pyfloat)
    (p p' : FloatHostname.Particle) : Prop :=
  let y1 := fsub (FloatHostname.y p) (fmul (FloatHostname.vy p) dt) in
  if flt y1 (of_Z (-260))
  then freshly_spawned name p'
  else FloatHostname.text p' = FloatHostname.text p /\
       FloatHostname.x p' = FloatHostname.x p /\
       FloatHostname.y p' = y1 /\
       FloatHostname.vy p' = FloatHostname.vy p /\
       FloatHostname.omega p' = FloatHostname.omega p /\
       FloatHostname.size p' = FloatHostname.size p /\
       FloatHostname.hue_offset p' = FloatHostname.hue_offset p /\
       FloatHostname.angle p'
       = pymod (fadd (FloatHostname.angle p) (fmul (FloatHostname.omega p) dt)) 360 /\
       reduced_angle (FloatHostname.angle p').

(** A particle on its way: it rises with a speed between [SPEED_MIN] and
    [SPEED_MAX] and is between the exit bound above the screen and the
    spawn band below it. *)
Definition particle_in_flight (p : FloatHostname.Particle) : Prop :=
  fle FloatHostname.SPEED_MIN (FloatHostname.vy p) = true /\
  fle (FloatHostname.vy p) FloatHostname.SPEED_MAX = true /\
  fle (of_Z (-260)) (FloatHostname.y p) = true /\
  fle (FloatHostname.y p) (of_Z (H + 200)) = true.

(** The state of the floating host names as the loop keeps it: the saved
    frame goes with the saver flag, and there are [NUM_PARTICLES]
    particles, all in flight. *)
Definition float_state_ok (st : FloatHostname.state) : Prop :=
  saved_ok (FloatHostname.saver_on st) (FloatHostname.saved st) /\
  len (FloatHostname.particles st) = FloatHostname.NUM_PARTICLES /\
  Forall particle_in_flight (FloatHostname.particles st).


Definition hostname_state_ok (st : Hostname.state) : Prop :=
  saved_ok (Hostname.saver_on st) (Hostname.saved st).

(** What may come of a step of a loop: a state that satisfies [ok], in a
    world with the same oracle, or [OSError]. *)
Definition ok_or_oserror {S : Type} (ok : S -> Prop) (w : world)
    (outcome : result S * world) : Prop :=
  match outcome with
  | (Ok st, w') => ok st /\ env w' = env w
  | (Raise e, _) => e = OSError
  end.

(** Computations that leave the touch device alone, and computations that
    read it exactly once, whatever their outcome. *)
Definition keeps_reads {A : Type} (m : M A) : Prop :=
  forall w, ev_reads (snd (m w)) = ev_reads w.

Definition polls_once {A : Type} (m : M A) : Prop :=
  forall w, ev_reads (snd (m w)) = S (ev_reads w).

(** ** Sample worlds

    Concrete oracles and worlds on which the scripts are run below. *)

(** An oracle under which every framebuffer access fails or none does, no
    event arrives by itself, a read of the touch device hands over up to
    64 events, the [n]-th reading of the monotonic clock is [clk n], and
    the random generator returns the lower bound. *)
Definition sample_oracle (fb_broken : bool) (clk : nat -> pyfloat) : oracle :=
  {| fb_faulty := fun _ => fb_broken;
     ev_arrival := fun _ => [];
     ev_faulty := fun _ => false;
     ev_batch := 64;
     clock := clk;
     wall_clock := clk;
     rand_uniform := fun _ a _ => a;
     rand_int := fun _ a _ => a |}.

(** The same oracle, except that a touch-down report arrives just before
    the [k]-th read of the touch device (counting from 0). *)
Definition touch_before (k : nat) (o : oracle) : oracle :=
  {| fb_faulty := fb_faulty o;
     ev_arrival := fun n =>
       if Nat.eqb n k
       then [{| ev_type := EV_ABS; ev_code := 0; ev_value := 1200 |}]
       else [];
     ev_faulty := ev_faulty o;
     ev_batch := ev_batch o;
     clock := clock o;
     wall_clock := wall_clock o;
     rand_uniform := rand_uniform o;
     rand_int := rand_int o |}.

(** A world at program start with the given device contents and queued
    events. *)
Definition sample_world (o : oracle) (data : list Z)
    (queue : list input_event) : world :=
  {| env := o; fb_data := data; fb_opens := 0;
     ev_queue := queue; ev_reads := 0;
     clock_reads := 0; wall_reads := 0; rand_draws := 0 |}.

(** One second per clock reading, starting at [t] seconds; whole numbers
    of seconds, which are doubles. *)
Definition seconds_from (t : Z) (n : nat) : pyfloat :=
  Fin (inject_Z (t + Z.of_nat n)).

(** A clock that reads [t], [t + d], [t + 2 d], ... *)
Definition ticking (t d : Z) (n : nat) : pyfloat :=
  Fin (inject_Z (t + d * Z.of_nat n)).

(** A touch-down report: an [EV_ABS] event, and the [EV_SYN] event that
    closes a report. *)
Definition abs_event : input_event :=
  {| ev_type := EV_ABS; ev_code := 0; ev_value := 1200 |}.
Definition syn_event : input_event :=
  {| ev_type := EV_SYN; ev_code := 0; ev_value := 0 |}.

(** * Properties *)

Lemma bool_false_true (b : bool) : {b = false} + {b = true}.
Proof. destruct b; [right | left]; reflexivity. Qed.

(** ** Floats: rounding is monotone *)

Section Rounding.

Lemma pow2_pos k : (0 < pow2 k)%Q.
Proof.
  unfold pow2. destruct (0 <=? k) eqn:Hk.
  - change 0%Q with (inject_Z 0). rewrite <- Zlt_Qlt. apply Z.pow_pos_nonneg; lia.
  - apply Qinv_lt_0_compat. change 0%Q with (inject_Z 0). rewrite <- Zlt_Qlt.
    apply Z.pow_pos_nonneg; lia.
Qed.

Lemma pow2_nonneg_exp k : 0 <= k -> pow2 k = inject_Z (2 ^ k).
Proof. intros Hk. unfold pow2. apply Z.leb_le in Hk. rewrite Hk. reflexivity. Qed.

Lemma pow2_neg_exp k : k < 0 -> pow2 k = (/ inject_Z (2 ^ (- k)))%Q.
Proof. intros Hk. unfold pow2. apply Z.leb_gt in Hk. rewrite Hk. reflexivity. Qed.

Lemma pow2_opp k : (pow2 (- k) == / pow2 k)%Q.
Proof.
  destruct (Z.lt_trichotomy k 0) as [Hk | [-> | Hk]].
  - rewrite (pow2_nonneg_exp (- k)) by lia. rewrite (pow2_neg_exp k) by lia.
    rewrite Qinv_involutive. reflexivity.
  - reflexivity.
  - rewrite (pow2_neg_exp (- k)) by lia. rewrite (pow2_nonneg_exp k) by lia.
    rewrite Z.opp_involutive. reflexivity.
Qed.

Lemma pow2_add_nonneg a b : 0 <= a -> 0 <= b -> (pow2 (a + b) == pow2 a * pow2 b)%Q.
Proof.
  intros Ha Hb. rewrite !pow2_nonneg_exp by lia.
  rewrite Z.pow_add_r by lia. rewrite inject_Z_mult. reflexivity.
Qed.

Lemma pow2_sub_nonneg a b : 0 <= a -> 0 <= b -> (pow2 (a - b) == pow2 a / pow2 b)%Q.
Proof.
  intros Ha Hb. pose proof (pow2_pos b) as Hpb.
  destruct (Z.le_gt_cases b a) as [Hle | Hgt].
  - replace a with ((a - b) + b) at 2 by lia.
    rewrite pow2_add_nonneg by lia. field. lra.
  - replace (a - b) with (- (b - a)) by lia. rewrite pow2_opp.
    replace b with ((b - a) + a) at 2 by lia.
    rewrite pow2_add_nonneg by lia.
    pose proof (pow2_pos a). pose proof (pow2_pos (b - a)). field. split; lra.
Qed.

Lemma pow2_add a b : (pow2 (a + b) == pow2 a * pow2 b)%Q.
Proof.
  pose proof (pow2_pos a). pose proof (pow2_pos b).
  pose proof (pow2_pos (- a)). pose proof (pow2_pos (- b)).
  destruct (Z.le_gt_cases 0 a) as [Ha | Ha]; destruct (Z.le_gt_cases 0 b) as [Hb | Hb].
  - apply pow2_add_nonneg; assumption.
  - replace (a + b) with (a - (- b)) by lia. rewrite pow2_sub_nonneg by lia.
    rewrite <- (Z.opp_involutive b) at 2. rewrite (pow2_opp (- b)). reflexivity.
  - replace (a + b) with (b - (- a)) by lia. rewrite pow2_sub_nonneg by lia.
    rewrite <- (Z.opp_involutive a) at 2. rewrite (pow2_opp (- a)). field. lra.
  - replace (a + b) with (- ((- a) + (- b))) by lia. rewrite pow2_opp.
    rewrite pow2_add_nonneg by lia.
    rewrite <- (Z.opp_involutive a) at 2. rewrite <- (Z.opp_involutive b) at 2.
    rewrite (pow2_opp (- a)), (pow2_opp (- b)). field. split; lra.
Qed.

Lemma pow2_ge_1 k : 0 <= k -> (1 <= pow2 k)%Q.
Proof.
  intros Hk. rewrite pow2_nonneg_exp by lia. change 1%Q with (inject_Z 1).
  rewrite <- Zle_Qle. pose proof (Z.pow_pos_nonneg 2 k). lia.
Qed.

Lemma pow2_le a b : a <= b -> (pow2 a <= pow2 b)%Q.
Proof.
  intros Hab. replace b with (a + (b - a)) by lia. rewrite pow2_add.
  pose proof (pow2_pos a). pose proof (pow2_ge_1 (b - a) ltac:(lia)). nra.
Qed.

Lemma pow2_lt a b : a < b -> (pow2 a < pow2 b)%Q.
Proof.
  intros Hab. replace b with (a + 1 + (b - a - 1)) by lia. rewrite !pow2_add.
  change (pow2 1) with 2%Q.
  pose proof (pow2_pos a). pose proof (pow2_ge_1 (b - a - 1) ltac:(lia)). nra.
Qed.

Lemma pow2_succ a : (pow2 (a + 1) == 2 * pow2 a)%Q.
Proof. rewrite pow2_add. change (pow2 1) with 2%Q. ring. Qed.

Lemma Zlog2_bounds n : 0 < n -> 2 ^ Z.log2 n <= n < 2 ^ (Z.log2 n + 1).
Proof.
  intros Hn. pose proof (Z.log2_spec n Hn) as Hs. rewrite <- Z.add_1_r in Hs. exact Hs.
Qed.

Lemma mag_spec q : (0 < q)%Q -> (pow2 (mag q) <= q)%Q /\ (q < pow2 (mag q + 1))%Q.
Proof.
  intros Hq. destruct q as [n d]. unfold mag. cbn [Qnum Qden].
  assert (Hn : 0 < n) by (unfold Qlt in Hq; cbn in Hq; lia).
  set (a := Z.log2 n). set (b := Z.log2 (Zpos d)).
  pose proof (Zlog2_bounds n Hn) as [Ha1 Ha2]. fold a in Ha1, Ha2.
  pose proof (Zlog2_bounds (Zpos d) eq_refl) as [Hb1 Hb2]. fold b in Hb1, Hb2.
  assert (Ha0 : 0 <= a) by apply Z.log2_nonneg.
  assert (Hb0 : 0 <= b) by apply Z.log2_nonneg.
  assert (Hval : (n # d == inject_Z n / inject_Z (Zpos d))%Q) by apply Qmake_Qdiv.
  assert (Hdpos : (0 < inject_Z (Zpos d))%Q)
    by (change 0%Q with (inject_Z 0); rewrite <- Zlt_Qlt; reflexivity).
  assert (Hlow : (pow2 (a - b - 1) < n # d)%Q).
  { replace (a - b - 1) with (a - (b + 1)) by lia.
    rewrite pow2_sub_nonneg by lia. rewrite !pow2_nonneg_exp by lia.
    rewrite Hval. rewrite Zle_Qle in Ha1. rewrite Zlt_Qlt in Hb2.
    pose proof (pow2_pos (b + 1)) as Hp. rewrite pow2_nonneg_exp in Hp by lia.
    pose proof (pow2_pos a) as Hpa. rewrite pow2_nonneg_exp in Hpa by lia.
    apply Qlt_shift_div_l; [exact Hdpos |].
    unfold Qdiv. rewrite <- Qmult_assoc, (Qmult_comm (/ _)), Qmult_assoc.
    apply Qlt_shift_div_r; [exact Hp |]. nra. }
  assert (Hhigh : (n # d < pow2 (a - b + 1))%Q).
  { replace (a - b + 1) with ((a + 1) - b) by lia.
    rewrite pow2_sub_nonneg by lia. rewrite !pow2_nonneg_exp by lia.
    rewrite Hval. rewrite Zlt_Qlt in Ha2. rewrite Zle_Qle in Hb1.
    pose proof (pow2_pos b) as Hp. rewrite pow2_nonneg_exp in Hp by lia.
    apply Qlt_shift_div_r; [exact Hdpos |].
    unfold Qdiv. rewrite <- Qmult_assoc, (Qmult_comm (/ _)), Qmult_assoc.
    apply Qlt_shift_div_l; [exact Hp |].
    assert (0 < inject_Z n)%Q by (change 0%Q with (inject_Z 0); rewrite <- Zlt_Qlt; lia).
    nra. }
  destruct (Qle_bool (pow2 (a - b)) (n # d)) eqn:Hk.
  - apply Qle_bool_iff in Hk. split; assumption.
  - assert (Hlt : (n # d < pow2 (a - b))%Q).
    { apply Qnot_le_lt. intros Hle. apply Qle_bool_iff in Hle. congruence. }
    replace (a - b - 1 + 1) with (a - b) by lia. split; [apply Qlt_le_weak |]; assumption.
Qed.

Lemma mag_le x y : (0 < x)%Q -> (x <= y)%Q -> mag x <= mag y.
Proof.
  intros Hx Hxy. assert (Hy : (0 < y)%Q) by lra.
  destruct (mag_spec x Hx) as [Hx1 _]. destruct (mag_spec y Hy) as [_ Hy2].
  destruct (Z.le_gt_cases (mag x) (mag y)) as [Hle | Hgt]; [exact Hle | exfalso].
  assert (Hp : (pow2 (mag y + 1) <= pow2 (mag x))%Q) by (apply pow2_le; lia).
  lra.
Qed.

Lemma mag_unique q k : (pow2 k <= q)%Q -> (q < pow2 (k + 1))%Q -> mag q = k.
Proof.
  intros Hlo Hhi. pose proof (pow2_pos k) as Hk.
  assert (Hq : (0 < q)%Q) by lra.
  destruct (mag_spec q Hq) as [H1 H2].
  destruct (Z.lt_trichotomy (mag q) k) as [Hlt | [Heq | Hgt]]; [exfalso | exact Heq | exfalso].
  - assert (Hp : (pow2 (mag q + 1) <= pow2 k)%Q) by (apply pow2_le; lia). lra.
  - assert (Hp : (pow2 (k + 1) <= pow2 (mag q))%Q) by (apply pow2_le; lia). lra.
Qed.

(** Rounding to the nearest integer, ties to even. *)
Lemma rne_cases s :
  let f := Qfloor s in
  (rne s = f /\ (s - inject_Z f <= 1 # 2)%Q) \/
  (rne s = f + 1 /\ (1 # 2 <= s - inject_Z f)%Q).
Proof.
  intros f. unfold rne. fold f.
  destruct (s - inject_Z f ?= 1 # 2)%Q eqn:Hc.
  - apply Qeq_alt in Hc. destruct (Z.even f); [left | right]; split; try reflexivity; lra.
  - apply Qlt_alt in Hc. left. split; [reflexivity | lra].
  - apply Qgt_alt in Hc. right. split; [reflexivity | lra].
Qed.

Lemma Qfloor_bounds s : (inject_Z (Qfloor s) <= s)%Q /\ (s < inject_Z (Qfloor s) + 1)%Q.
Proof.
  split; [apply Qfloor_le |].
  pose proof (Qlt_floor s) as H. rewrite inject_Z_plus in H. exact H.
Qed.

Lemma rne_mono s t : (s <= t)%Q -> rne s <= rne t.
Proof.
  intros Hst.
  pose proof (Qfloor_resp_le s t Hst) as Hf.
  pose proof (Qfloor_bounds s) as [Hs1 Hs2]. pose proof (Qfloor_bounds t) as [Ht1 Ht2].
  destruct (Z.eq_dec (Qfloor s) (Qfloor t)) as [Heq | Hne].
  - unfold rne. rewrite <- Heq.
    destruct (s - inject_Z (Qfloor s) ?= 1 # 2)%Q eqn:Hcs;
      destruct (t - inject_Z (Qfloor s) ?= 1 # 2)%Q eqn:Hct;
      first [apply Qeq_alt in Hcs | apply Qlt_alt in Hcs | apply Qgt_alt in Hcs];
      first [apply Qeq_alt in Hct | apply Qlt_alt in Hct | apply Qgt_alt in Hct];
      try (destruct (Z.even (Qfloor s))); try lia; exfalso; lra.
  - assert (Hlt : Qfloor s + 1 <= Qfloor t) by lia.
    destruct (rne_cases s) as [[-> _] | [-> _]];
      destruct (rne_cases t) as [[-> _] | [-> _]]; lia.
Qed.

Lemma rne_Z z : rne (inject_Z z) = z.
Proof.
  unfold rne. rewrite Qfloor_Z.
  assert (H : (inject_Z z - inject_Z z ?= 1 # 2)%Q = Lt) by (rewrite <- Qlt_alt; lra).
  rewrite H. reflexivity.
Qed.

Lemma rne_eq s t : (s == t)%Q -> rne s = rne t.
Proof. intros H. apply Z.le_antisymm; apply rne_mono; lra. Qed.

Lemma rne_error s : (inject_Z (rne s) - s <= 1 # 2)%Q /\ (s - inject_Z (rne s) <= 1 # 2)%Q.
Proof.
  pose proof (Qfloor_bounds s) as [H1 H2].
  destruct (rne_cases s) as [[-> H] | [-> H]].
  - split; lra.
  - rewrite inject_Z_plus. change (inject_Z 1) with 1%Q. split; lra.
Qed.

Lemma round_at_mono e x y : (x <= y)%Q -> (round_at e x <= round_at e y)%Q.
Proof.
  intros Hxy. unfold round_at. pose proof (pow2_pos e) as Hp.
  assert (Hr : rne (x / pow2 e) <= rne (y / pow2 e)).
  { apply rne_mono. unfold Qdiv. apply Qmult_le_compat_r; [exact Hxy |].
    apply Qlt_le_weak, Qinv_lt_0_compat, Hp. }
  rewrite Zle_Qle in Hr. nra.
Qed.

Lemma round_at_multiple e z : (round_at e (inject_Z z * pow2 e) == inject_Z z * pow2 e)%Q.
Proof.
  unfold round_at. pose proof (pow2_pos e) as Hp.
  assert (Heq : (inject_Z z * pow2 e / pow2 e == inject_Z z)%Q) by (field; lra).
  rewrite (rne_eq _ _ Heq), rne_Z. reflexivity.
Qed.

Lemma round_at_pow2 e k : e <= k -> (round_at e (pow2 k) == pow2 k)%Q.
Proof.
  intros Hek.
  assert (Heq : (pow2 k == inject_Z (2 ^ (k - e)) * pow2 e)%Q).
  { rewrite <- pow2_nonneg_exp by lia. rewrite <- pow2_add.
    replace (k - e + e) with k by lia. reflexivity. }
  unfold round_at. pose proof (pow2_pos e) as Hp.
  assert (Hdiv : (pow2 k / pow2 e == inject_Z (2 ^ (k - e)))%Q)
    by (rewrite Heq; field; lra).
  rewrite (rne_eq _ _ Hdiv), rne_Z. symmetry. exact Heq.
Qed.

Lemma ulp_exp_le x y : (0 < x)%Q -> (x <= y)%Q -> ulp_exp x <= ulp_exp y.
Proof. intros Hx Hxy. unfold ulp_exp. pose proof (mag_le x y Hx Hxy). lia. Qed.

(** Rounding to the precision of the binade is monotone. *)
Lemma round_pos_mono x y :
  (0 < x)%Q -> (x <= y)%Q ->
  (round_at (ulp_exp x) x <= round_at (ulp_exp y) y)%Q.
Proof.
  intros Hx Hxy. assert (Hy : (0 < y)%Q) by lra.
  pose proof (ulp_exp_le x y Hx Hxy) as He.
  destruct (Z.eq_dec (ulp_exp x) (ulp_exp y)) as [Heq | Hne].
  - rewrite Heq. apply round_at_mono. exact Hxy.
  - assert (Hlt : ulp_exp x < ulp_exp y) by lia.
    assert (Hey : ulp_exp y = mag y - 52) by (unfold ulp_exp in *; lia).
    assert (Hmag : mag x < mag y) by (unfold ulp_exp in *; lia).
    destruct (mag_spec x Hx) as [_ Hx2]. destruct (mag_spec y Hy) as [Hy1 _].
    assert (Hxp : (x <= pow2 (mag y))%Q).
    { apply Qlt_le_weak. eapply Qlt_le_trans; [exact Hx2 |]. apply pow2_le. lia. }
    apply Qle_trans with (pow2 (mag y)).
    + rewrite <- (round_at_pow2 (ulp_exp x) (mag y)) by lia.
      apply round_at_mono. exact Hxp.
    + rewrite <- (round_at_pow2 (ulp_exp y) (mag y)) at 1 by lia.
      apply round_at_mono. exact Hy1.
Qed.

Lemma round_at_zero e : (round_at e 0 == 0)%Q.
Proof.
  unfold round_at.
  assert (Hz : (0 / pow2 e == inject_Z 0)%Q) by (unfold Qdiv; apply Qmult_0_l).
  rewrite (rne_eq _ _ Hz), rne_Z. apply Qmult_0_l.
Qed.

Lemma round_at_nonneg e x : (0 <= x)%Q -> (0 <= round_at e x)%Q.
Proof.
  intros Hx. rewrite <- (round_at_zero e). apply round_at_mono. exact Hx.
Qed.

End Rounding.

Section Order.

Lemma fl_pos_not_nan q : is_nan (fl_pos q) = false.
Proof. unfold fl_pos. destruct (Qle_bool _ _); reflexivity. Qed.

Lemma fl_not_nan q : is_nan (fl q) = false.
Proof.
  unfold fl. destruct (q ?= 0)%Q; [reflexivity | | apply fl_pos_not_nan].
  pose proof (fl_pos_not_nan (- q)) as H. destruct (fl_pos (- q)); [reflexivity.. | discriminate].
Qed.

Lemma fle_refl a : is_nan a = false -> fle a a = true.
Proof.
  destruct a as [q | [] |]; intros H; try discriminate; try reflexivity.
  apply Qle_bool_iff. apply Qle_refl.
Qed.

Lemma fle_trans a b c : fle a b = true -> fle b c = true -> fle a c = true.
Proof.
  destruct a as [p | [] |], b as [q | [] |], c as [r | [] |]; cbn; intros H1 H2;
    try discriminate; try reflexivity.
  apply Qle_bool_iff. apply Qle_bool_iff in H1, H2. lra.
Qed.

Lemma Qle_bool_false p q : Qle_bool p q = false <-> (q < p)%Q.
Proof.
  rewrite <- not_true_iff_false, Qle_bool_iff.
  split; [apply Qnot_le_lt | apply Qlt_not_le].
Qed.

Lemma flt_fle a b : flt a b = true -> fle a b = true.
Proof.
  destruct a as [p | [] |], b as [q | [] |]; cbn; intros H;
    try discriminate; try reflexivity.
  apply negb_true_iff, Qle_bool_false in H. apply Qle_bool_iff. lra.
Qed.

Lemma flt_not_fle a b : flt a b = true -> fle b a = false.
Proof.
  destruct a as [p | [] |], b as [q | [] |]; cbn; intros H;
    try discriminate; try reflexivity.
  apply negb_true_iff in H. exact H.
Qed.

Lemma fle_not_flt a b : fle a b = true -> flt b a = false.
Proof.
  destruct a as [p | [] |], b as [q | [] |]; cbn; intros H;
    try discriminate; try reflexivity.
  rewrite H. reflexivity.
Qed.

(** Two numbers are comparable: when [a < b] fails, [b <= a] holds. *)
Lemma not_flt_fle a b :
  is_nan a = false -> is_nan b = false -> flt a b = false -> fle b a = true.
Proof.
  destruct a as [p | [] |], b as [q | [] |]; cbn; intros Ha Hb H;
    try discriminate; try reflexivity.
  apply negb_false_iff in H. exact H.
Qed.

Lemma fle_Fin p q : fle (Fin p) (Fin q) = true <-> (p <= q)%Q.
Proof. apply Qle_bool_iff. Qed.

Lemma flt_Fin p q : flt (Fin p) (Fin q) = true <-> (p < q)%Q.
Proof. cbn. rewrite negb_true_iff. apply Qle_bool_false. Qed.

Lemma fle_fneg a b : fle a b = true -> fle (fneg b) (fneg a) = true.
Proof.
  destruct a as [p | [] |], b as [q | [] |]; cbn; intros H;
    try discriminate; try reflexivity.
  apply Qle_bool_iff. apply Qle_bool_iff in H. lra.
Qed.

(** A number between two finite numbers is finite. *)
Lemma fle_between a lo hi :
  fle (Fin lo) a = true -> fle a (Fin hi) = true ->
  exists q, a = Fin q /\ (lo <= q)%Q /\ (q <= hi)%Q.
Proof.
  destruct a as [q | [] |]; cbn; intros H1 H2; try discriminate.
  exists q. apply Qle_bool_iff in H1, H2. auto.
Qed.

End Order.

Section RoundingFloats.

Lemma fl_pos_mono x y :
  (0 < x)%Q -> (x <= y)%Q -> fle (fl_pos x) (fl_pos y) = true.
Proof.
  intros Hx Hxy. pose proof (round_pos_mono x y Hx Hxy) as Hr.
  unfold fl_pos.
  pose proof (Qred_correct (round_at (ulp_exp x) x)) as Hrx.
  pose proof (Qred_correct (round_at (ulp_exp y) y)) as Hry.
  generalize dependent (Qred (round_at (ulp_exp x) x)).
  generalize dependent (Qred (round_at (ulp_exp y) y)).
  generalize dependent (round_at (ulp_exp x) x).
  generalize dependent (round_at (ulp_exp y) y).
  generalize (pow2 1024).
  intros top ry rx Hr ry' Hry rx' Hrx.
  destruct (Qle_bool top rx') eqn:Hox; destruct (Qle_bool top ry') eqn:Hoy;
    cbn; try reflexivity.
  - exfalso. apply Qle_bool_iff in Hox. apply Qle_bool_false in Hoy. lra.
  - apply Qle_bool_iff. lra.
Qed.

Lemma fl_pos_nonneg x : (0 < x)%Q -> fle (Fin 0) (fl_pos x) = true.
Proof.
  intros Hx. unfold fl_pos.
  pose proof (round_at_nonneg (ulp_exp x) x (Qlt_le_weak _ _ Hx)) as Hr.
  pose proof (Qred_correct (round_at (ulp_exp x) x)) as Hc.
  generalize dependent (Qred (round_at (ulp_exp x) x)).
  generalize dependent (round_at (ulp_exp x) x).
  intros r Hr r' Hc.
  destruct (Qle_bool _ _); cbn; [reflexivity |]. apply Qle_bool_iff. lra.
Qed.

Lemma fl_zero q : (q == 0)%Q -> fl q = Fin 0.
Proof.
  intros H. unfold fl. destruct (q ?= 0)%Q eqn:Hc; [reflexivity | |];
    [apply Qlt_alt in Hc | apply Qgt_alt in Hc]; lra.
Qed.

Lemma fl_of_pos q : (0 < q)%Q -> fl q = fl_pos q.
Proof.
  intros H. unfold fl. destruct (q ?= 0)%Q eqn:Hc; [| | reflexivity];
    [apply Qeq_alt in Hc | apply Qlt_alt in Hc]; lra.
Qed.

Lemma fl_of_neg q : (q < 0)%Q -> fl q = fneg (fl_pos (- q)).
Proof.
  intros H. unfold fl. destruct (q ?= 0)%Q eqn:Hc; [| reflexivity |];
    [apply Qeq_alt in Hc | apply Qgt_alt in Hc]; lra.
Qed.

(** Rounding is monotone. *)
Lemma fl_mono x y : (x <= y)%Q -> fle (fl x) (fl y) = true.
Proof.
  intros Hxy.
  destruct (Q_dec x 0) as [[Hx | Hx] | Hx]; destruct (Q_dec y 0) as [[Hy | Hy] | Hy];
    try (exfalso; lra).
  - rewrite (fl_of_neg x Hx), (fl_of_neg y Hy). apply fle_fneg.
    apply fl_pos_mono; lra.
  - rewrite (fl_of_neg x Hx), (fl_of_pos y Hy).
    apply fle_trans with (Fin 0); [| apply fl_pos_nonneg; exact Hy].
    change (Fin 0) with (fneg (Fin 0)). apply fle_fneg. apply fl_pos_nonneg. lra.
  - rewrite (fl_of_neg x Hx), (fl_zero y Hy).
    change (Fin 0) with (fneg (Fin 0)). apply fle_fneg. apply fl_pos_nonneg. lra.
  - rewrite (fl_of_pos x Hx), (fl_of_pos y Hy). apply fl_pos_mono; assumption.
  - rewrite (fl_zero x Hx), (fl_of_pos y Hy). apply fl_pos_nonneg. exact Hy.
  - rewrite (fl_zero x Hx), (fl_zero y Hy). reflexivity.
Qed.

(** Small integers are doubles. *)
Lemma fl_pos_small_int z :
  0 < z < 2 ^ 53 -> fl_pos (inject_Z z) = Fin (inject_Z z).
Proof.
  intros Hz.
  assert (Hq : (0 < inject_Z z)%Q)
    by (change 0%Q with (inject_Z 0); rewrite <- Zlt_Qlt; lia).
  destruct (mag_spec _ Hq) as [Hm1 Hm2].
  assert (Hmag : mag (inject_Z z) < 53).
  { destruct (Z.lt_ge_cases (mag (inject_Z z)) 53) as [H | H]; [exact H | exfalso].
    assert (Hp : (pow2 53 <= pow2 (mag (inject_Z z)))%Q) by (apply pow2_le; exact H).
    assert (Hz' : (inject_Z z < pow2 53)%Q).
    { rewrite pow2_nonneg_exp by lia. rewrite <- Zlt_Qlt. lia. }
    lra. }
  assert (Hmag0 : 0 <= mag (inject_Z z)).
  { destruct (Z.lt_ge_cases (mag (inject_Z z)) 0) as [H | H]; [exfalso | exact H].
    assert (Hp : (pow2 (mag (inject_Z z) + 1) <= pow2 0)%Q) by (apply pow2_le; lia).
    change (pow2 0) with 1%Q in Hp.
    assert (Hz' : (1 <= inject_Z z)%Q)
      by (change 1%Q with (inject_Z 1); rewrite <- Zle_Qle; lia).
    lra. }
  set (e := ulp_exp (inject_Z z)).
  assert (He : e <= 0) by (unfold e, ulp_exp; lia).
  assert (Hmult : (inject_Z z == inject_Z (z * 2 ^ (- e)) * pow2 e)%Q).
  { rewrite inject_Z_mult. rewrite <- pow2_nonneg_exp by lia.
    rewrite <- Qmult_assoc, <- pow2_add. replace (- e + e) with 0 by lia.
    change (pow2 0) with 1%Q. ring. }
  assert (Hround : (round_at e (inject_Z z) == inject_Z z)%Q).
  { unfold round_at. pose proof (pow2_pos e) as Hp.
    assert (Hdiv : (inject_Z z / pow2 e == inject_Z (z * 2 ^ (- e)))%Q).
    { rewrite Hmult at 1. field. lra. }
    rewrite (rne_eq _ _ Hdiv), rne_Z. symmetry. exact Hmult. }
  unfold fl_pos. fold e.
  rewrite (Qred_complete _ _ Hround).
  assert (Hred : Qred (inject_Z z) = inject_Z z).
  { apply Qred_identity. cbn. apply Z.gcd_1_r. }
  rewrite Hred.
  assert (Hover : Qle_bool (pow2 1024) (inject_Z z) = false).
  { apply not_true_iff_false. intros H. apply Qle_bool_iff in H.
    assert (Hp : (pow2 53 <= pow2 1024)%Q) by (apply pow2_le; lia).
    assert (Hz' : (inject_Z z < pow2 53)%Q).
    { rewrite pow2_nonneg_exp by lia. rewrite <- Zlt_Qlt. lia. }
    lra. }
  rewrite Hover. reflexivity.
Qed.

Lemma of_Z_small z : - 2 ^ 53 < z < 2 ^ 53 -> of_Z z = Fin (inject_Z z).
Proof.
  intros Hz. unfold of_Z.
  destruct (Z.lt_trichotomy z 0) as [Hneg | [-> | Hpos]].
  - rewrite fl_of_neg
      by (change 0%Q with (inject_Z 0); rewrite <- Zlt_Qlt; lia).
    rewrite <- inject_Z_opp. rewrite fl_pos_small_int by lia.
    cbn [fneg]. rewrite <- inject_Z_opp. rewrite Z.opp_involutive. reflexivity.
  - reflexivity.
  - rewrite fl_of_pos
      by (change 0%Q with (inject_Z 0); rewrite <- Zlt_Qlt; lia).
    apply fl_pos_small_int. lia.
Qed.

End RoundingFloats.

(** ** The pixel converter *)

Section Converter.

Lemma seqZ_forallb (P : Z -> bool) (n : Z) :
  forallb P (seqZ 0 n) = true -> forall z, 0 <= z < n -> P z = true.
Proof.
  intros Hall z Hz. rewrite forallb_forall in Hall. apply Hall.
  apply list_elem_of_In, elem_of_seqZ. lia.
Qed.

Lemma red_field r : 0 <= r < 256 -> Z.shiftl (Z.land r 0xF8) 8 = 2048 * (r / 8).
Proof.
  intros Hr.
  apply Z.eqb_eq.
  apply (seqZ_forallb (fun r => Z.shiftl (Z.land r 0xF8) 8 =? 2048 * (r / 8)) 256);
    [ vm_compute; reflexivity | exact Hr ].
Qed.

Lemma green_field g : 0 <= g < 256 -> Z.shiftl (Z.land g 0xFC) 3 = 32 * (g / 4).
Proof.
  intros Hg.
  apply Z.eqb_eq.
  apply (seqZ_forallb (fun g => Z.shiftl (Z.land g 0xFC) 3 =? 32 * (g / 4)) 256);
    [ vm_compute; reflexivity | exact Hg ].
Qed.

Lemma shiftr_3 b : Z.shiftr b 3 = b / 8.
Proof. rewrite Z.shiftr_div_pow2 by lia. reflexivity. Qed.

Lemma shiftr_2 g : Z.shiftr g 2 = g / 4.
Proof. rewrite Z.shiftr_div_pow2 by lia. reflexivity. Qed.

(** Fields that do not overlap are joined by [|] as by [+]. *)
Lemma lor_fields r5 g6 b5 :
  0 <= r5 < 32 -> 0 <= g6 < 64 -> 0 <= b5 < 32 ->
  Z.lor (Z.lor (2048 * r5) (32 * g6)) b5 = 2048 * r5 + 32 * g6 + b5.
Proof.
  intros Hr Hg Hb.
  pose (chk := fun r g b =>
    Z.lor (Z.lor (2048 * r) (32 * g)) b =? 2048 * r + 32 * g + b).
  assert (Hall : forallb (fun r => forallb (fun g => forallb (chk r g)
            (seqZ 0 32)) (seqZ 0 64)) (seqZ 0 32) = true)
    by (vm_compute; reflexivity).
  apply Z.eqb_eq.
  apply (seqZ_forallb (chk r5 g6) 32); [| exact Hb].
  apply (seqZ_forallb (fun g => forallb (chk r5 g) (seqZ 0 32)) 64); [| exact Hg].
  apply (seqZ_forallb (fun r => forallb (fun g => forallb (chk r g)
            (seqZ 0 32)) (seqZ 0 64)) 32); [exact Hall | exact Hr].
Qed.

Lemma pack565_value r g b :
  0 <= r < 256 -> 0 <= g < 256 -> 0 <= b < 256 ->
  pack565 (r, g, b) = 2048 * (r / 8) + 32 * (g / 4) + b / 8.
Proof.
  intros Hr Hg Hb. unfold pack565.
  rewrite red_field, green_field, shiftr_3 by assumption.
  apply lor_fields.
  - split; [apply Z.div_pos; lia | apply Z.div_lt_upper_bound; lia].
  - split; [apply Z.div_pos; lia | apply Z.div_lt_upper_bound; lia].
  - split; [apply Z.div_pos; lia | apply Z.div_lt_upper_bound; lia].
Qed.

Lemma pack565_range r g b :
  0 <= r < 256 -> 0 <= g < 256 -> 0 <= b < 256 ->
  0 <= pack565 (r, g, b) < 65536.
Proof.
  intros Hr Hg Hb. rewrite pack565_value by assumption.
  assert (0 <= r / 8 < 32)
    by (split; [apply Z.div_pos; lia | apply Z.div_lt_upper_bound; lia]).
  assert (0 <= g / 4 < 64)
    by (split; [apply Z.div_pos; lia | apply Z.div_lt_upper_bound; lia]).
  assert (0 <= b / 8 < 32)
    by (split; [apply Z.div_pos; lia | apply Z.div_lt_upper_bound; lia]).
  lia.
Qed.

Lemma lo_byte_mod v : lo_byte v = v mod 256.
Proof. unfold lo_byte. change 0xFF with (Z.ones 8). rewrite Z.land_ones by lia. reflexivity. Qed.

Lemma hi_byte_div v : 0 <= v < 65536 -> hi_byte v = v / 256.
Proof.
  intros Hv. unfold hi_byte. change 0xFF with (Z.ones 8).
  rewrite Z.land_ones by lia. rewrite Z.shiftr_div_pow2 by lia.
  change (2 ^ 8) with 256. apply Z.mod_small.
  split; [apply Z.div_pos; lia | apply Z.div_lt_upper_bound; lia].
Qed.

(** The blue field depends on the top five bits of [b] only. *)
Lemma blue_field_mask b : 0 <= b < 256 -> Z.shiftr b 3 = Z.shiftr (Z.land b 0xF8) 3.
Proof.
  intros Hb. apply Z.eqb_eq.
  apply (seqZ_forallb (fun b => Z.shiftr b 3 =? Z.shiftr (Z.land b 0xF8) 3) 256);
    [ vm_compute; reflexivity | exact Hb ].
Qed.

Lemma pack565_mask p q :
  pixel8 p -> pixel8 q -> mask565 p = mask565 q -> pack565 p = pack565 q.
Proof.
  destruct p as [[r g] b], q as [[r' g'] b']. unfold pixel8, mask565, pack565.
  intros (_ & _ & Hb) (_ & _ & Hb') Heq. inversion Heq as [[Hr Hg Hbm]].
  rewrite Hr, Hg, (blue_field_mask b), (blue_field_mask b') by assumption.
  rewrite Hbm. reflexivity.
Qed.

(** *** The loops fill the buffer front to back *)

Lemma len_app {A} (l k : list A) : len (l ++ k) = len l + len k.
Proof. unfold len. rewrite length_app. lia. Qed.

Lemma len_nonneg {A} (l : list A) : 0 <= len l.
Proof. unfold len. lia. Qed.

Lemma put_pixel_step px y x done a b tail :
  put_pixel px y (done ++ a :: b :: tail, len done) x
  = ((done ++ pixel_bytes px y x) ++ tail, len (done ++ pixel_bytes px y x)).
Proof.
  unfold put_pixel, pixel_bytes, len. f_equal.
  - rewrite Nat2Z.id.
    replace (Z.to_nat (Z.of_nat (length done) + 1)) with (S (length done)) by lia.
    rewrite (insert_app_r_alt done _ (length done)) by lia.
    rewrite (insert_app_r_alt done _ (S (length done))) by lia.
    replace (length done - length done)%nat with 0%nat by lia.
    replace (S (length done) - length done)%nat with 1%nat by lia.
    simpl. rewrite <- app_assoc. reflexivity.
  - rewrite length_app. simpl. lia.
Qed.

Lemma put_pixel_fold px y xs : forall done tail,
  (2 * length xs <= length tail)%nat ->
  foldl (put_pixel px y) (done ++ tail, len done) xs
  = ((done ++ flat_map (pixel_bytes px y) xs) ++ drop (2 * length xs) tail,
     len (done ++ flat_map (pixel_bytes px y) xs)).
Proof.
  induction xs as [| x xs IH]; intros done tail Hroom.
  - simpl. rewrite app_nil_r. reflexivity.
  - destruct tail as [| a [| b tail]]; simpl in Hroom; try lia.
    cbn [foldl]. rewrite put_pixel_step. rewrite IH by lia.
    cbn [flat_map length]. rewrite <- !app_assoc.
    replace (2 * S (length xs))%nat with (S (S (2 * length xs))) by lia.
    reflexivity.
Qed.

Lemma pixel_bytes_length px y x : length (pixel_bytes px y x) = 2%nat.
Proof. reflexivity. Qed.

Lemma flat_map_length_uniform {A B} (f : A -> list B) (n : nat) (l : list A) :
  (forall a, length (f a) = n) -> length (flat_map f l) = (length l * n)%nat.
Proof.
  intros Hf. induction l as [| a l IH]; [reflexivity |].
  cbn [flat_map]. rewrite length_app, Hf, IH. simpl. lia.
Qed.

Lemma row_bytes_length px y : length (row_bytes px y) = (Z.to_nat W * 2)%nat.
Proof.
  unfold row_bytes.
  rewrite (flat_map_length_uniform _ 2) by apply pixel_bytes_length.
  rewrite length_seqZ. reflexivity.
Qed.

Lemma put_row_step px y done tail :
  (Z.to_nat W * 2 <= length tail)%nat ->
  put_row px (done ++ tail, len done) y
  = ((done ++ row_bytes px y) ++ drop (Z.to_nat W * 2) tail,
     len (done ++ row_bytes px y)).
Proof.
  intros Hroom. unfold put_row. rewrite put_pixel_fold.
  - rewrite length_seqZ. replace (2 * Z.to_nat W)%nat with (Z.to_nat W * 2)%nat by lia.
    reflexivity.
  - rewrite length_seqZ. lia.
Qed.

Lemma convert_loop_rows px ys : forall done tail,
  (length ys * (Z.to_nat W * 2) <= length tail)%nat ->
  foldl (put_row px) (done ++ tail, len done) ys
  = ((done ++ flat_map (row_bytes px) ys)
       ++ drop (length ys * (Z.to_nat W * 2)) tail,
     len (done ++ flat_map (row_bytes px) ys)).
Proof.
  induction ys as [| y ys IH]; intros done tail Hroom.
  - simpl. rewrite app_nil_r, drop_0. reflexivity.
  - cbn [foldl]. cbn [length] in Hroom.
    rewrite put_row_step by lia.
    rewrite IH by (rewrite length_drop; lia).
    cbn [flat_map length]. rewrite <- !app_assoc, drop_drop.
    replace (Z.to_nat W * 2 + length ys * (Z.to_nat W * 2))%nat
      with (S (length ys) * (Z.to_nat W * 2))%nat by lia.
    reflexivity.
Qed.

Lemma frame_bytes_length px : len (frame_bytes px) = FRAME_BYTES.
Proof.
  unfold len, frame_bytes.
  rewrite (flat_map_length_uniform _ (Z.to_nat W * 2)) by apply row_bytes_length.
  rewrite length_seqZ. unfold FRAME_BYTES, W, H, BPP. lia.
Qed.

(** The converter's buffer holds, when the loops are done, the bytes of
    the pixels in row-major order. *)
Lemma rgb888_to_rgb565_bytes_eq px : rgb888_to_rgb565_bytes px = frame_bytes px.
Proof.
  unfold rgb888_to_rgb565_bytes.
  change (replicate (Z.to_nat FRAME_BYTES) 0, 0)
    with ([] ++ replicate (Z.to_nat FRAME_BYTES) 0, @len Z []).
  rewrite convert_loop_rows.
  - cbn [fst app]. rewrite drop_ge, app_nil_r; [reflexivity |].
    rewrite length_replicate, length_seqZ. unfold FRAME_BYTES, W, H, BPP. lia.
  - rewrite length_replicate, length_seqZ. unfold FRAME_BYTES, W, H, BPP. lia.
Qed.

Lemma rgb888_to_rgb565_bytes_len px : len (rgb888_to_rgb565_bytes px) = FRAME_BYTES.
Proof. rewrite rgb888_to_rgb565_bytes_eq. apply frame_bytes_length. Qed.

Lemma flat_map_lookup_uniform {A B} (f : A -> list B) (n : nat) (l : list A) :
  (forall a, length (f a) = n) ->
  forall i j a, l !! i = Some a -> (j < n)%nat ->
  flat_map f l !! (i * n + j)%nat = f a !! j.
Proof.
  intros Hf. induction l as [| a0 l IH]; intros i j a Hi Hj; [discriminate |].
  cbn [flat_map]. destruct i as [| i].
  - simpl in Hi. injection Hi as ->. simpl.
    rewrite lookup_app_l by (rewrite Hf; lia). reflexivity.
  - simpl in Hi. rewrite lookup_app_r by (rewrite Hf; lia).
    rewrite Hf. replace (S i * n + j - n)%nat with (i * n + j)%nat by lia.
    apply IH; assumption.
Qed.

Lemma frame_bytes_lookup px x y k :
  0 <= x < W -> 0 <= y < H -> (k < 2)%nat ->
  frame_bytes px !! Z.to_nat (2 * (y * W + x) + Z.of_nat k)
  = pixel_bytes px y x !! k.
Proof.
  intros Hx Hy Hk. unfold frame_bytes.
  replace (Z.to_nat (2 * (y * W + x) + Z.of_nat k))
    with (Z.to_nat y * (Z.to_nat W * 2) + (Z.to_nat x * 2 + k))%nat
    by (unfold W in *; lia).
  rewrite (flat_map_lookup_uniform _ (Z.to_nat W * 2) _ (row_bytes_length px)
             (Z.to_nat y) (Z.to_nat x * 2 + k) y).
  - unfold row_bytes.
    apply (flat_map_lookup_uniform _ 2 _ (pixel_bytes_length px y)); [| exact Hk].
    rewrite lookup_seqZ_lt by lia. f_equal. lia.
  - rewrite lookup_seqZ_lt by lia. f_equal. lia.
  - unfold W in *. lia.
Qed.

End Converter.

(** C6. Bit packing of the pixel converter: for a pixel [(r, g, b)] with
    8-bit components the packed value [v] is a 16-bit number whose bits
    15..11 are the top five bits of [r], whose bits 10..5 are the top six
    bits of [g] and whose bits 4..0 are the top five bits of [b], each
    obtained by dropping the low bits ([r / 8], [g / 4], [b / 8] rounded
    down); in the converted frame the pixel at [(x, y)] occupies the bytes
    [2 * (y * W + x)] and the next one, low byte of [v] first; and white
    packs to [0xFFFF], black to [0x0000] and [(248, 0, 0)] to [0xF800]. *)
Theorem pack565_bit_packing (px : image) (x y r g b : Z) :
  0 <= x < W -> 0 <= y < H ->
  px x y = (r, g, b) ->
  0 <= r < 256 -> 0 <= g < 256 -> 0 <= b < 256 ->
  let v := pack565 (r, g, b) in
  (0 <= v < 65536 /\
   Z.shiftr v 11 = Z.shiftr r 3 /\
   Z.land (Z.shiftr v 5) 0x3F = Z.shiftr g 2 /\
   Z.land v 0x1F = Z.shiftr b 3 /\
   v = 2048 * (r / 8) + 32 * (g / 4) + b / 8) /\
  (rgb888_to_rgb565_bytes px !! Z.to_nat (2 * (y * W + x)) = Some (v mod 256) /\
   rgb888_to_rgb565_bytes px !! Z.to_nat (2 * (y * W + x) + 1) = Some (v / 256)) /\
  (pack565 (255, 255, 255) = 0xFFFF /\
   pack565 (0, 0, 0) = 0x0000 /\
   pack565 (248, 0, 0) = 0xF800).
Proof.
  intros Hx Hy Hpx Hr Hg Hb v.
  assert (Hv : v = 2048 * (r / 8) + 32 * (g / 4) + b / 8)
    by (apply pack565_value; assumption).
  assert (Hrange : 0 <= v < 65536) by (apply pack565_range; assumption).
  split; [| split].
  - split; [exact Hrange |].
    rewrite !shiftr_3, shiftr_2.
    change 0x3F with (Z.ones 6). change 0x1F with (Z.ones 5).
    rewrite !Z.land_ones by lia. rewrite !Z.shiftr_div_pow2 by lia.
    change (2 ^ 11) with 2048. change (2 ^ 5) with 32. change (2 ^ 6) with 64.
    repeat split; try exact Hv; rewrite Hv; Z.div_mod_to_equations; lia.
  - rewrite rgb888_to_rgb565_bytes_eq.
    pose proof (frame_bytes_lookup px x y 0 Hx Hy ltac:(lia)) as H0.
    pose proof (frame_bytes_lookup px x y 1 Hx Hy ltac:(lia)) as H1.
    rewrite Z.add_0_r in H0. change (Z.of_nat 1) with 1 in H1.
    rewrite H0, H1. unfold pixel_bytes. rewrite Hpx. fold v. simpl.
    rewrite lo_byte_mod, hi_byte_div by exact Hrange. split; reflexivity.
  - repeat split; reflexivity.
Qed.

(** A pixel of a uniformly coloured image, at a place of the grid. *)
Lemma pack565_bit_packing_witness :
  let v := pack565 (200, 100, 50) in
  rgb888_to_rgb565_bytes (fun _ _ => (200, 100, 50))
    !! Z.to_nat (2 * (3 * W + 5)) = Some (v mod 256) /\
  rgb888_to_rgb565_bytes (fun _ _ => (200, 100, 50))
    !! Z.to_nat (2 * (3 * W + 5) + 1) = Some (v / 256).
Proof.
  refine (proj1 (proj2 (pack565_bit_packing (fun _ _ => (200, 100, 50))
            5 3 200 100 50 _ _ eq_refl _ _ _)));
    unfold W, H; lia.
Defined.

Lemma flat_map_agree {A B} (f g : A -> list B) (l : list A) :
  (forall a, a ∈ l -> f a = g a) -> flat_map f l = flat_map g l.
Proof.
  induction l as [| a l IH]; intros Hfg; [reflexivity |].
  cbn [flat_map]. rewrite (Hfg a) by apply list_elem_of_here.
  rewrite IH; [reflexivity |].
  intros a' Ha'. apply Hfg. apply list_elem_of_further. exact Ha'.
Qed.

Lemma hostname_converter_eq px :
  Hostname.rgb888_to_rgb565 px = rgb888_to_rgb565_bytes px.
Proof.
  unfold Hostname.rgb888_to_rgb565, rgb888_to_rgb565_bytes. reflexivity.
Qed.

(** C10. Low-bit noninterference of the converter: two RGB images whose
    pixels over the W x H grid agree after masking with
    [(0xF8, 0xFC, 0xF8)] are converted to the same bytes, by
    [rgb888_to_rgb565_bytes] and by [rgb888_to_rgb565] of the host name
    script alike. *)
Theorem rgb565_low_bits_noninterference (img1 img2 : image) :
  (forall x y, 0 <= x < W -> 0 <= y < H ->
     pixel8 (img1 x y) /\ pixel8 (img2 x y)) ->
  (forall x y, 0 <= x < W -> 0 <= y < H ->
     mask565 (img1 x y) = mask565 (img2 x y)) ->
  rgb888_to_rgb565_bytes img1 = rgb888_to_rgb565_bytes img2 /\
  Hostname.rgb888_to_rgb565 img1 = Hostname.rgb888_to_rgb565 img2.
Proof.
  intros Hwf Hmask.
  rewrite (hostname_converter_eq img1), (hostname_converter_eq img2).
  assert (Heq : rgb888_to_rgb565_bytes img1 = rgb888_to_rgb565_bytes img2);
    [| split; exact Heq].
  rewrite (rgb888_to_rgb565_bytes_eq img1), (rgb888_to_rgb565_bytes_eq img2).
  unfold frame_bytes.
  apply flat_map_agree. intros y Hy. unfold row_bytes.
  apply flat_map_agree. intros x Hx. unfold pixel_bytes.
  apply elem_of_seqZ in Hy. apply elem_of_seqZ in Hx.
  destruct (Hwf x y) as [H1 H2]; [lia | lia |].
  rewrite (pack565_mask (img1 x y) (img2 x y) H1 H2); [reflexivity |].
  apply Hmask; lia.
Qed.

(** Two grey levels that differ in the low bits only. *)
Lemma rgb565_low_bits_noninterference_witness :
  rgb888_to_rgb565_bytes (fun _ _ => (255, 255, 255))
  = rgb888_to_rgb565_bytes (fun _ _ => (248, 252, 248)).
Proof.
  refine (proj1 (rgb565_low_bits_noninterference
            (fun _ _ => (255, 255, 255)) (fun _ _ => (248, 252, 248)) _ _)).
  - intros x y _ _. unfold pixel8. lia.
  - intros x y _ _. reflexivity.
Defined.

(** ** The framebuffer device *)

Section Framebuffer.

Lemma FRAME_BYTES_value : FRAME_BYTES = 307200.
Proof. reflexivity. Qed.

Lemma pad_frame_len buf : len buf <= FRAME_BYTES -> len (pad_frame buf) = FRAME_BYTES.
Proof.
  intros Hle. unfold pad_frame. destruct (Z.ltb_spec (len buf) FRAME_BYTES) as [Hlt | Hge].
  - rewrite len_app. unfold len at 2. rewrite length_replicate. lia.
  - lia.
Qed.

Lemma frame_of_len data : len (frame_of data) = FRAME_BYTES.
Proof.
  unfold frame_of. apply pad_frame_len. unfold len. rewrite length_take.
  rewrite FRAME_BYTES_value. lia.
Qed.

(** A full frame is read back as it is. *)
Lemma frame_of_full buf rest : len buf = FRAME_BYTES -> frame_of (buf ++ rest) = buf.
Proof.
  intros Hlen. unfold frame_of.
  rewrite take_app_length' by (unfold len in Hlen; lia).
  unfold pad_frame. destruct (Z.ltb_spec (len buf) FRAME_BYTES); [lia | reflexivity].
Qed.

Lemma fb_write_checked buf w :
  len buf <> FRAME_BYTES -> fb_write buf w = (Raise ValueError, w).
Proof.
  intros Hne. unfold fb_write.
  destruct (Z.eqb_spec (len buf) FRAME_BYTES); [contradiction | reflexivity].
Qed.

Lemma fb_write_full buf w :
  len buf = FRAME_BYTES -> fb_write buf w = fb_store buf w.
Proof.
  intros Heq. unfold fb_write.
  destruct (Z.eqb_spec (len buf) FRAME_BYTES); [reflexivity | contradiction].
Qed.

Lemma fb_store_ok buf w :
  fb_faulty (env w) (fb_opens w) = false ->
  fb_store buf w = (Ok tt, fb_accessed (overwrite buf (fb_data w)) w).
Proof. intros Hok. unfold fb_store. rewrite Hok. reflexivity. Qed.

Lemma fb_store_fails buf w :
  fb_faulty (env w) (fb_opens w) = true ->
  fb_store buf w = (Raise OSError, fb_accessed (fb_data w) w).
Proof. intros Hbad. unfold fb_store. rewrite Hbad. reflexivity. Qed.

(** Whatever happens to the write, the guarded write returns normally. *)
Lemma overwrite_length buf data : length (overwrite buf data) = length data.
Proof.
  unfold overwrite. rewrite length_take, length_app, length_drop. lia.
Qed.

Lemma try_pass_fb_write buf w :
  exists w', try_pass (fb_write buf) w = (Ok tt, w') /\ env w' = env w /\
    clock_reads w' = clock_reads w /\
    length (fb_data w') = length (fb_data w).
Proof.
  unfold try_pass, fb_write, raise, fb_store.
  destruct (negb (len buf =? FRAME_BYTES)); [eexists; eauto |].
  destruct (fb_faulty (env w) (fb_opens w)); eexists; repeat split.
  cbn [fb_data fb_accessed]. apply overwrite_length.
Qed.

(** Writing a full frame over a device of at least that size, and reading
    the device again. *)
Lemma frame_of_overwrite buf data :
  len buf = FRAME_BYTES ->
  (length buf <= length data)%nat ->
  frame_of (overwrite buf data) = buf.
Proof.
  intros Hlen Hfits. unfold overwrite.
  rewrite take_ge by (rewrite length_app, length_drop; lia).
  apply frame_of_full. exact Hlen.
Qed.

(** Writing the frame read from a device back to a device of the same
    size, and reading it again: the same frame, also when the device is
    too small for a full frame. *)
Lemma frame_of_restore data0 data :
  length data = length data0 ->
  frame_of (overwrite (frame_of data0) data) = frame_of data0.
Proof.
  intros Hsize.
  pose proof (frame_of_len data0) as Hlen.
  destruct (le_lt_dec (length (frame_of data0)) (length data)) as [Hfits | Hsmall].
  - apply frame_of_overwrite; assumption.
  - assert (Hshort : len data0 < FRAME_BYTES).
    { rewrite <- Hlen. unfold len. apply Nat2Z.inj_lt. rewrite <- Hsize. exact Hsmall. }
    assert (Hpad : frame_of data0
                   = data0 ++ replicate (Z.to_nat (FRAME_BYTES - len data0)) 0).
    { unfold frame_of. rewrite take_ge by (unfold len in Hshort; lia).
      unfold pad_frame.
      destruct (Z.ltb_spec (len data0) FRAME_BYTES) as [_ | Hge];
        [reflexivity | lia]. }
    assert (Htake : take (length data0) (frame_of data0) = data0)
      by (rewrite Hpad; apply take_app_length).
    unfold overwrite. rewrite drop_ge by lia.
    rewrite app_nil_r, Hsize, Htake. reflexivity.
Qed.

End Framebuffer.

(** C2. Write size enforcement, as the scripts have it: [fb_write] of
    [fb_saver_3dtext.py] and [fb_saver_float_hostname.py], called with a
    buffer whose length is not [FRAME_BYTES], raises [ValueError] and
    leaves the world untouched (no access to the device); [fb_write] of
    [fb_saver_hostname.py] has no length test and, with the same buffer,
    opens the device and writes the buffer at its start as it is, raising
    [OSError] only when the device access fails. *)
Theorem fb_write_size_enforcement (buf : list Z) (w : world) :
  len buf <> FRAME_BYTES ->
  fb_write buf w = (Raise ValueError, w) /\
  Hostname.fb_write buf w
  = if fb_faulty (env w) (fb_opens w)
    then (Raise OSError, fb_accessed (fb_data w) w)
    else (Ok tt, fb_accessed (overwrite buf (fb_data w)) w).
Proof.
  intros Hne. split.
  - apply fb_write_checked. exact Hne.
  - unfold Hostname.fb_write, fb_store.
    destruct (fb_faulty (env w) (fb_opens w)); reflexivity.
Qed.

(** A three-byte buffer offered to a device that holds five bytes. *)
Lemma fb_write_size_enforcement_witness :
  let w := sample_world (sample_oracle false (seconds_from 0)) [9; 9; 9; 9; 9] [] in
  fb_write [1; 2; 3] w = (Raise ValueError, w) /\
  Hostname.fb_write [1; 2; 3] w = (Ok tt, fb_accessed [1; 2; 3; 9; 9] w).
Proof.
  intro w.
  refine (fb_write_size_enforcement [1; 2; 3] w _).
  rewrite FRAME_BYTES_value. unfold len. simpl. lia.
Defined.

(** In the host name script a buffer of the wrong length is not refused:
    it is written to the device. *)
Lemma hostname_fb_write_unchecked :
  let w := sample_world (sample_oracle false (seconds_from 0)) [9; 9; 9; 9; 9] [] in
  len [1; 2; 3] <> FRAME_BYTES /\
  Hostname.fb_write [1; 2; 3] w <> (Raise ValueError, w) /\
  Hostname.fb_write [1; 2; 3] w = (Ok tt, fb_accessed [1; 2; 3; 9; 9] w) /\
  fb_data (snd (Hostname.fb_write [1; 2; 3] w)) = [1; 2; 3; 9; 9].
Proof.
  intro w. split; [| split; [| split]].
  - rewrite FRAME_BYTES_value. unfold len. simpl. lia.
  - unfold Hostname.fb_write, fb_store. simpl. discriminate.
  - reflexivity.
  - reflexivity.
Qed.

(** ** The touch device *)

Section Touch.

Lemma is_touch_type_spec ev : is_touch_type ev = true <-> touch_category ev.
Proof.
  unfold is_touch_type, touch_category.
  rewrite !orb_true_iff, !Z.eqb_eq. tauto.
Qed.

Lemma scan_events_spec evs :
  scan_events evs = true <-> exists ev, ev ∈ evs /\ touch_category ev.
Proof.
  induction evs as [| ev evs IH]; simpl.
  - split; [discriminate |]. intros (ev & Hin & _). inversion Hin.
  - destruct (is_touch_type ev) eqn:Hev.
    + split; [| reflexivity]. intros _. exists ev. split; [left |].
      apply is_touch_type_spec. exact Hev.
    + rewrite IH. split.
      * intros (ev' & Hin & Hcat). exists ev'. split; [right; exact Hin | exact Hcat].
      * intros (ev' & Hin & Hcat). inversion Hin as [| ? ? ? Hin']; subst.
        -- apply is_touch_type_spec in Hcat. congruence.
        -- exists ev'. split; assumption.
Qed.

Lemma first_event_spec evs : Hostname.first_event evs = true <-> evs <> [].
Proof. destruct evs; simpl; split; congruence. Qed.

(** A poll never raises: it answers, and the events of one read are off
    the queue. *)
Lemma poll_with_ok loop w :
  loop [] = false ->
  ev_faulty (env w) (ev_reads w) = false ->
  let q := ev_queue w ++ ev_arrival (env w) (ev_reads w) in
  poll_with loop w
  = (Ok (loop (take (ev_batch (env w)) q)), ev_polled (drop (ev_batch (env w)) q) w).
Proof.
  intros Hnil Hok q. unfold poll_with, dev_read. rewrite Hok. fold q.
  destruct q as [| ev q']; [| reflexivity].
  rewrite take_nil, drop_nil, Hnil. reflexivity.
Qed.

Lemma poll_with_fault loop w :
  ev_faulty (env w) (ev_reads w) = true ->
  poll_with loop w
  = (Ok false, ev_polled (ev_queue w ++ ev_arrival (env w) (ev_reads w)) w).
Proof. intros Hbad. unfold poll_with, dev_read. rewrite Hbad. reflexivity. Qed.

Lemma poll_with_total loop w :
  exists b q, poll_with loop w = (Ok b, ev_polled q w).
Proof.
  unfold poll_with, dev_read.
  destruct (ev_faulty (env w) (ev_reads w)); [eexists _, _; reflexivity |].
  destruct (ev_queue w ++ ev_arrival (env w) (ev_reads w));
    eexists _, _; reflexivity.
Qed.

End Touch.

(** C4. Input polling, as the scripts have it.  Call delivered the events
    that the one [dev.read()] of a poll hands over.  When that read fails
    with [OSError] every variant answers false and removes nothing from
    the queue.  Otherwise [touch_event_available] of
    [fb_saver_3dtext.py] and [fb_saver_float_hostname.py] answers true
    iff a delivered event has type key, absolute axis or relative axis,
    while the one of [fb_saver_hostname.py] answers true iff any event was
    delivered, whatever its type; in all variants the delivered events
    are removed from the queue, also when the loop returns at the first
    one, so that nothing stays queued when the pending events fit into one
    read. *)
Theorem touch_polling_contract (w : world) :
  let q := ev_queue w ++ ev_arrival (env w) (ev_reads w) in
  let delivered := take (ev_batch (env w)) q in
  let left_over := drop (ev_batch (env w)) q in
  if ev_faulty (env w) (ev_reads w)
  then touch_event_available w = (Ok false, ev_polled q w) /\
       Hostname.touch_event_available w = (Ok false, ev_polled q w)
  else (exists b, touch_event_available w = (Ok b, ev_polled left_over w) /\
          (b = true <-> exists ev, ev ∈ delivered /\ touch_category ev)) /\
       (exists b, Hostname.touch_event_available w = (Ok b, ev_polled left_over w) /\
          (b = true <-> delivered <> [])) /\
       ((length q <= ev_batch (env w))%nat -> left_over = []).
Proof.
  intros q delivered left_over.
  destruct (ev_faulty (env w) (ev_reads w)) eqn:Hfault.
  - split; apply poll_with_fault; exact Hfault.
  - split; [| split].
    + exists (scan_events delivered). split.
      * apply (poll_with_ok scan_events); [reflexivity | exact Hfault].
      * apply scan_events_spec.
    + exists (Hostname.first_event delivered). split.
      * apply (poll_with_ok Hostname.first_event); [reflexivity | exact Hfault].
      * apply first_event_spec.
    + intros Hfit. apply drop_ge. exact Hfit.
Qed.

(** A lone [EV_SYN] event makes the host name script report activity,
    although no key, absolute-axis or relative-axis event is pending; the
    other two scripts answer false on the same queue. *)
Lemma hostname_poll_any_event :
  let w := sample_world (sample_oracle false (seconds_from 0)) [] [syn_event] in
  (forall ev, ev ∈ ev_queue w ++ ev_arrival (env w) (ev_reads w) ->
     ~ touch_category ev) /\
  Hostname.touch_event_available w = (Ok true, ev_polled [] w) /\
  touch_event_available w = (Ok false, ev_polled [] w).
Proof.
  intro w. split; [| split; reflexivity].
  intros ev Hin. simpl in Hin. apply list_elem_of_singleton in Hin. subst ev.
  unfold touch_category, syn_event, EV_SYN, EV_KEY, EV_ABS, EV_REL. simpl. lia.
Qed.

(** When more events are pending than one read hands over, here 65
    against 64, a poll leaves the rest queued. *)
Lemma poll_leaves_what_does_not_fit :
  let w := sample_world (sample_oracle false (seconds_from 0)) []
             (replicate 65 abs_event) in
  touch_event_available w = (Ok true, ev_polled [abs_event] w) /\
  Hostname.touch_event_available w = (Ok true, ev_polled [abs_event] w).
Proof. intro w. split; reflexivity. Qed.

(** ** Leaving the saver on a touch *)

Section Restore.

(** The state the 3D text loop is in after a touch at time [t]. *)
Lemma text3d_activity_touched st w w1 :
  touch_event_available w = (Ok true, w1) ->
  exists w',
    Text3D.activity_phase st w
    = (Ok {| Text3D.last_activity := clock (env w1) (clock_reads w1);
             Text3D.saver_on := false;
             Text3D.saved := if Text3D.saver_on st then None else Text3D.saved st;
             Text3D.x := Text3D.x st; Text3D.y := Text3D.y st;
             Text3D.vx := Text3D.vx st; Text3D.vy := Text3D.vy st;
             Text3D.next_frame := Text3D.next_frame st;
             Text3D.t0 := Text3D.t0 st |}, w') /\
    env w' = env w1 /\ clock_reads w' = S (clock_reads w1) /\
    length (fb_data w') = length (fb_data w1).
Proof.
  intros Hpoll. unfold Text3D.activity_phase, bind. rewrite Hpoll.
  unfold time_monotonic. cbn [Text3D.saver_on Text3D.saved].
  destruct (Text3D.saver_on st) eqn:Hon.
  - destruct (Text3D.saved st) as [buf |].
    + destruct (try_pass_fb_write buf (clock_read w1)) as (w' & -> & He & Hc & Hs).
      exists w'. split; [reflexivity | split; [exact He | split; [exact Hc | exact Hs]]].
    + exists (clock_read w1). split; [reflexivity | repeat split].
  - exists (clock_read w1). unfold ret. split; [| repeat split].
    destruct st; simpl in *; subst; reflexivity.
Qed.

Lemma text3d_activity_quiet st w w1 :
  touch_event_available w = (Ok false, w1) ->
  Text3D.activity_phase st w = (Ok st, w1).
Proof. intros Hpoll. unfold Text3D.activity_phase, bind. rewrite Hpoll. reflexivity. Qed.

(** The same for the floating host names; leaving the saver also resets
    [last_t] and [next_frame]. *)
Lemma float_activity_touched st w w1 :
  touch_event_available w = (Ok true, w1) ->
  FloatHostname.saver_on st = true ->
  exists w',
    FloatHostname.activity_phase st w
    = (Ok {| FloatHostname.last_activity := clock (env w1) (clock_reads w1);
             FloatHostname.saver_on := false;
             FloatHostname.saved := None;
             FloatHostname.particles := FloatHostname.particles st;
             FloatHostname.last_t := clock (env w1) (S (clock_reads w1));
             FloatHostname.next_frame := Fin 0 |}, w') /\
    env w' = env w1.
Proof.
  intros Hpoll Hon. unfold FloatHostname.activity_phase, bind. rewrite Hpoll.
  unfold time_monotonic at 1.
  cbn [FloatHostname.saver_on FloatHostname.saved]. rewrite Hon.
  destruct (FloatHostname.saved st) as [buf |].
  - destruct (try_pass_fb_write buf (clock_read w1)) as (w' & -> & He & Hc & _).
    unfold time_monotonic, ret. rewrite He, Hc.
    eexists. split; [reflexivity | exact He].
  - unfold ret, time_monotonic. eexists. split; reflexivity.
Qed.

(** The host name script: the restore is an unguarded write. *)
Lemma hostname_activity_touched st w w1 buf :
  Hostname.touch_event_available w = (Ok true, w1) ->
  Hostname.saver_on st = true ->
  Hostname.saved st = Some buf ->
  Hostname.activity_phase st w
  = if fb_faulty (env w1) (fb_opens w1)
    then (Raise OSError, fb_accessed (fb_data w1) (clock_read w1))
    else (Ok {| Hostname.last_activity := clock (env w1) (clock_reads w1);
                Hostname.saver_on := false;
                Hostname.saved := None;
                Hostname.next_draw := Hostname.next_draw st |},
          fb_accessed (overwrite buf (fb_data w1)) (clock_read w1)).
Proof.
  intros Hpoll Hon Hsaved. unfold Hostname.activity_phase, bind. rewrite Hpoll.
  unfold time_monotonic.
  cbn [Hostname.saver_on Hostname.saved]. rewrite Hon, Hsaved.
  unfold Hostname.fb_write, fb_store. cbn [env fb_opens clock_read fb_data].
  destruct (fb_faulty (env w1) (fb_opens w1)); reflexivity.
Qed.

End Restore.

(** C3. Errors on the restore path, as the scripts have it.  In
    [fb_saver_3dtext.py] and [fb_saver_float_hostname.py] a touch while
    the saver is on always ends the activity step normally with the saver
    off and the saved frame dropped, whether the write of the saved frame
    succeeded or raised: the exception is caught and discarded.  In
    [fb_saver_hostname.py] the restore write is not guarded: when it
    succeeds the saver is left in the same way, and when it raises the
    exception leaves the activity step and with it the loop. *)
Theorem restore_errors_swallowed :
  (forall (st : Text3D.state) (w w1 : world),
     Text3D.saver_on st = true ->
     touch_event_available w = (Ok true, w1) ->
     exists st' w',
       Text3D.activity_phase st w = (Ok st', w') /\
       Text3D.saver_on st' = false /\ Text3D.saved st' = None) /\
  (forall (st : FloatHostname.state) (w w1 : world),
     FloatHostname.saver_on st = true ->
     touch_event_available w = (Ok true, w1) ->
     exists st' w',
       FloatHostname.activity_phase st w = (Ok st', w') /\
       FloatHostname.saver_on st' = false /\ FloatHostname.saved st' = None) /\
  (forall (st : Hostname.state) (w w1 : world) (buf : list Z),
     Hostname.saver_on st = true ->
     Hostname.saved st = Some buf ->
     Hostname.touch_event_available w = (Ok true, w1) ->
     if fb_faulty (env w1) (fb_opens w1)
     then fst (Hostname.activity_phase st w) = Raise OSError /\
          (forall tw th paint, fst (Hostname.tick tw th paint st w) = Raise OSError)
     else exists st' w',
       Hostname.activity_phase st w = (Ok st', w') /\
       Hostname.saver_on st' = false /\ Hostname.saved st' = None).
Proof.
  split; [| split].
  - intros st w w1 Hon Hpoll.
    destruct (text3d_activity_touched st w w1 Hpoll) as (w' & Heq & _).
    rewrite Hon in Heq. eexists _, w'. split; [exact Heq | split; reflexivity].
  - intros st w w1 Hon Hpoll.
    destruct (float_activity_touched st w w1 Hpoll Hon) as (w' & Heq & _).
    eexists _, w'. split; [exact Heq | split; reflexivity].
  - intros st w w1 buf Hon Hsaved Hpoll.
    pose proof (hostname_activity_touched st w w1 buf Hpoll Hon Hsaved) as Heq.
    destruct (fb_faulty (env w1) (fb_opens w1)).
    + split; [rewrite Heq; reflexivity |].
      intros tw th paint. unfold Hostname.tick, bind. rewrite Heq. reflexivity.
    + eexists _, _. split; [exact Heq | split; reflexivity].
Qed.

(** A touch during the saver while every access to the framebuffer fails:
    the 3D text loop leaves the saver all the same. *)
Lemma restore_errors_swallowed_witness :
  let w := sample_world (sample_oracle true (seconds_from 1000)) [] [abs_event] in
  let st := {| Text3D.last_activity := Fin 0; Text3D.saver_on := true;
               Text3D.saved := Some (frame_of []);
               Text3D.x := fl 40; Text3D.y := fl 80;
               Text3D.vx := fl (26 # 10); Text3D.vy := fl (19 # 10);
               Text3D.next_frame := Fin 0; Text3D.t0 := Fin 0 |} in
  fst (fb_write (frame_of []) w) = Raise OSError /\
  exists st' w',
    Text3D.activity_phase st w = (Ok st', w') /\
    Text3D.saver_on st' = false /\ Text3D.saved st' = None.
Proof.
  intros w st. split.
  - rewrite fb_write_full by apply frame_of_len. reflexivity.
  - refine (proj1 restore_errors_swallowed st w (ev_polled [] w) _ _);
      reflexivity.
Defined.

(** The same touch in the host name script: the failing restore write
    ends the loop with [OSError], the saver still on. *)
Lemma hostname_restore_failure_escapes :
  let w := sample_world (sample_oracle true (seconds_from 1000)) [] [abs_event] in
  let st := {| Hostname.last_activity := Fin 0; Hostname.saver_on := true;
               Hostname.saved := Some (frame_of []);
               Hostname.next_draw := Fin 0 |} in
  Hostname.touch_event_available w = (Ok true, ev_polled [] w) /\
  fst (Hostname.activity_phase st w) = Raise OSError /\
  (forall tw th paint, fst (Hostname.tick tw th paint st w) = Raise OSError).
Proof.
  intros w st. split; [reflexivity | split; [reflexivity |]].
  intros tw th paint. reflexivity.
Qed.

(** ** Entering the saver *)

Section Idle.

(** Drawing random numbers changes nothing but the number of draws. *)
Lemma new_particle_total name w :
  exists p, FloatHostname.new_particle name w = (Ok p, Nat.iter 7 rand_drawn w).
Proof. eexists. reflexivity. Qed.

Lemma spawn_total name n : forall w,
  exists ps, FloatHostname.spawn name n w = (Ok ps, Nat.iter (7 * n) rand_drawn w) /\
             length ps = n.
Proof.
  induction n as [| n IH]; intros w.
  - exists []. split; reflexivity.
  - destruct (new_particle_total name w) as (p & Hp).
    destruct (IH (Nat.iter 7 rand_drawn w)) as (ps & Hps & Hlen).
    exists (p :: ps). split.
    + cbn [FloatHostname.spawn]. unfold bind at 1. rewrite Hp.
      unfold bind at 1. rewrite Hps. unfold ret. f_equal.
      replace (7 * S n)%nat with (7 * n + 7)%nat by lia.
      rewrite Nat.iter_add. reflexivity.
    + simpl. rewrite Hlen. reflexivity.
Qed.

Lemma text3d_idle_stay now st w :
  Text3D.saver_on st = true \/
  fgt (fsub now (Text3D.last_activity st)) (of_Z Text3D.IDLE_SEC) = false ->
  Text3D.idle_phase now st w = (Ok st, w).
Proof.
  intros Hstay. unfold Text3D.idle_phase.
  destruct Hstay as [Hon | Hle].
  - rewrite Hon. reflexivity.
  - rewrite Hle, andb_false_r. reflexivity.
Qed.

Lemma text3d_idle_enter now st w :
  Text3D.saver_on st = false ->
  fgt (fsub now (Text3D.last_activity st)) (of_Z Text3D.IDLE_SEC) = true ->
  Text3D.idle_phase now st w
  = if fb_faulty (env w) (fb_opens w)
    then (Raise OSError, fb_accessed (fb_data w) w)
    else (Ok {| Text3D.last_activity := Text3D.last_activity st;
                Text3D.saver_on := true;
                Text3D.saved := Some (frame_of (fb_data w));
                Text3D.x := Text3D.x st; Text3D.y := Text3D.y st;
                Text3D.vx := Text3D.vx st; Text3D.vy := Text3D.vy st;
                Text3D.next_frame := Fin 0; Text3D.t0 := now |},
          fb_accessed (fb_data w) w).
Proof.
  intros Hoff Hgt. unfold Text3D.idle_phase.
  rewrite Hoff, Hgt. cbn [negb andb].
  unfold bind, fb_read.
  destruct (fb_faulty (env w) (fb_opens w)); reflexivity.
Qed.

Lemma float_idle_stay name now st w :
  FloatHostname.saver_on st = true \/
  fgt (fsub now (FloatHostname.last_activity st)) (of_Z FloatHostname.IDLE_SEC) = false ->
  FloatHostname.idle_phase name now st w = (Ok st, w).
Proof.
  intros Hstay. unfold FloatHostname.idle_phase.
  destruct Hstay as [Hon | Hle].
  - rewrite Hon. reflexivity.
  - rewrite Hle, andb_false_r. reflexivity.
Qed.

Lemma float_idle_enter name now st w :
  FloatHostname.saver_on st = false ->
  fgt (fsub now (FloatHostname.last_activity st)) (of_Z FloatHostname.IDLE_SEC) = true ->
  fb_faulty (env w) (fb_opens w) = false ->
  exists ps,
    FloatHostname.spawn name (Z.to_nat FloatHostname.NUM_PARTICLES)
      (fb_accessed (fb_data w) w)
    = (Ok ps, Nat.iter 70 rand_drawn (fb_accessed (fb_data w) w)) /\
    length ps = 10%nat /\
    FloatHostname.idle_phase name now st w
    = (Ok {| FloatHostname.last_activity := FloatHostname.last_activity st;
             FloatHostname.saver_on := true;
             FloatHostname.saved := Some (frame_of (fb_data w));
             FloatHostname.particles := ps;
             FloatHostname.last_t := now;
             FloatHostname.next_frame := Fin 0 |},
       Nat.iter 70 rand_drawn (fb_accessed (fb_data w) w)).
Proof.
  intros Hoff Hgt Hok.
  destruct (spawn_total name (Z.to_nat FloatHostname.NUM_PARTICLES)
              (fb_accessed (fb_data w) w)) as (ps & Hps & Hlen).
  change (7 * Z.to_nat FloatHostname.NUM_PARTICLES)%nat with 70%nat in Hps.
  change (Z.to_nat FloatHostname.NUM_PARTICLES) with 10%nat in Hlen.
  exists ps. split; [exact Hps | split; [exact Hlen |]].
  unfold FloatHostname.idle_phase.
  rewrite Hoff, Hgt. cbn [negb andb].
  unfold bind at 1. unfold fb_read. rewrite Hok.
  unfold bind. rewrite Hps. reflexivity.
Qed.

Lemma float_idle_fault name now st w :
  FloatHostname.saver_on st = false ->
  fgt (fsub now (FloatHostname.last_activity st)) (of_Z FloatHostname.IDLE_SEC) = true ->
  fb_faulty (env w) (fb_opens w) = true ->
  FloatHostname.idle_phase name now st w
  = (Raise OSError, fb_accessed (fb_data w) w).
Proof.
  intros Hoff Hgt Hbad. unfold FloatHostname.idle_phase.
  rewrite Hoff, Hgt. cbn [negb andb].
  unfold bind, fb_read. rewrite Hbad. reflexivity.
Qed.

Lemma hostname_idle_stay now st w :
  Hostname.saver_on st = true \/
  fgt (fsub now (Hostname.last_activity st)) (of_Z Hostname.IDLE_SEC) = false ->
  Hostname.idle_phase now st w = (Ok st, w).
Proof.
  intros Hstay. unfold Hostname.idle_phase.
  destruct Hstay as [Hon | Hle].
  - rewrite Hon. reflexivity.
  - rewrite Hle, andb_false_r. reflexivity.
Qed.

Lemma hostname_idle_enter now st w :
  Hostname.saver_on st = false ->
  fgt (fsub now (Hostname.last_activity st)) (of_Z Hostname.IDLE_SEC) = true ->
  Hostname.idle_phase now st w
  = if fb_faulty (env w) (fb_opens w)
    then (Raise OSError, fb_accessed (fb_data w) w)
    else (Ok {| Hostname.last_activity := Hostname.last_activity st;
                Hostname.saver_on := true;
                Hostname.saved := Some (frame_of (fb_data w));
                Hostname.next_draw := Fin 0 |},
          fb_accessed (fb_data w) w).
Proof.
  intros Hoff Hgt. unfold Hostname.idle_phase.
  rewrite Hoff, Hgt. cbn [negb andb].
  unfold bind, fb_read.
  destruct (fb_faulty (env w) (fb_opens w)); reflexivity.
Qed.

End Idle.

(** The test [now - last_activity > IDLE_SEC] is false whenever the two
    readings are at most [IDLE_SEC] seconds apart, since rounding is
    monotone. *)
Lemma elapsed_within (n l : Q) (limit : Z) :
  (n - l <= inject_Z limit)%Q ->
  fgt (fsub (Fin n) (Fin l)) (of_Z limit) = false.
Proof.
  intros Hle. unfold fgt. apply fle_not_flt.
  cbn [fsub fneg fadd]. unfold of_Z. apply fl_mono.
  unfold Qminus in Hle. exact Hle.
Qed.




(** C5. Scene state on entering the saver, as the scripts have it.  In
    [fb_saver_float_hostname.py] every transition from saver off to saver
    on replaces the particle list by [NUM_PARTICLES] particles newly drawn
    from the random generator (position, speed, angle, rotation speed,
    size and hue offset), whatever the particles were before, and resets
    [last_t] and [next_frame].  In [fb_saver_3dtext.py] the transition
    resets the rotation origin [t0] and [next_frame] only; position and
    velocity of the sprite are kept as the previous session left them. *)
Theorem scene_state_on_saver_entry :
  (forall (name : string) (st st' : FloatHostname.state) (w w' : world) (now : pyfloat),
     FloatHostname.saver_on st = false ->
     FloatHostname.idle_phase name now st w = (Ok st', w') ->
     FloatHostname.saver_on st' = true ->
     FloatHostname.spawn name (Z.to_nat FloatHostname.NUM_PARTICLES)
       (fb_accessed (fb_data w) w)
     = (Ok (FloatHostname.particles st'), w') /\
     len (FloatHostname.particles st') = FloatHostname.NUM_PARTICLES /\
     FloatHostname.last_t st' = now /\
     FloatHostname.next_frame st' = Fin 0) /\
  (forall (st st' : Text3D.state) (w w' : world) (now : pyfloat),
     Text3D.saver_on st = false ->
     Text3D.idle_phase now st w = (Ok st', w') ->
     Text3D.saver_on st' = true ->
     Text3D.t0 st' = now /\
     Text3D.next_frame st' = Fin 0 /\
     Text3D.sprite st' = Text3D.sprite st).
Proof.
  split.
  - intros name st st' w w' now Hoff Hrun Hon.
    destruct (sumbool_of_bool (fgt (fsub now (FloatHostname.last_activity st)) (of_Z FloatHostname.IDLE_SEC)))
      as [Hgt | Hle].
    + destruct (fb_faulty (env w) (fb_opens w)) eqn:Hf.
      * rewrite (float_idle_fault name now st w Hoff Hgt Hf) in Hrun. discriminate.
      * destruct (float_idle_enter name now st w Hoff Hgt Hf) as (ps & Hps & Hlen & Heq).
        rewrite Heq in Hrun. injection Hrun as <- <-.
        cbn [FloatHostname.particles FloatHostname.last_t FloatHostname.next_frame].
        split; [exact Hps |]. split; [| split; reflexivity].
        unfold len. rewrite Hlen. reflexivity.
    + rewrite float_idle_stay in Hrun by (right; exact Hle).
      injection Hrun as <- _. congruence.
  - intros st st' w w' now Hoff Hrun Hon.
    destruct (sumbool_of_bool (fgt (fsub now (Text3D.last_activity st)) (of_Z Text3D.IDLE_SEC)))
      as [Hgt | Hle].
    + rewrite (text3d_idle_enter now st w Hoff Hgt) in Hrun.
      destruct (fb_faulty (env w) (fb_opens w)); [discriminate |].
      injection Hrun as <- _. repeat split.
    + rewrite text3d_idle_stay in Hrun by (right; exact Hle).
      injection Hrun as <- _. congruence.
Qed.

(** The floating host names entering the saver eleven seconds after the
    last activity, with particles left over from an earlier session. *)
Lemma scene_state_on_saver_entry_witness :
  let w := sample_world (sample_oracle false (seconds_from 0)) [] [] in
  let old := {| FloatHostname.text := "pi"; FloatHostname.x := fl 7;
                FloatHostname.y := fl (-100); FloatHostname.vy := fl 30;
                FloatHostname.angle := fl 45; FloatHostname.omega := fl 10;
                FloatHostname.size := 20; FloatHostname.hue_offset := fl 5 |} in
  let st := {| FloatHostname.last_activity := Fin 0;
               FloatHostname.saver_on := false;
               FloatHostname.saved := None;
               FloatHostname.particles := [old];
               FloatHostname.last_t := Fin 0;
               FloatHostname.next_frame := Fin 0 |} in
  exists st' w',
    FloatHostname.idle_phase "pi" (fl 11) st w = (Ok st', w') /\
    FloatHostname.spawn "pi" (Z.to_nat FloatHostname.NUM_PARTICLES)
      (fb_accessed (fb_data w) w)
    = (Ok (FloatHostname.particles st'), w') /\
    len (FloatHostname.particles st') = FloatHostname.NUM_PARTICLES.
Proof.
  intros w old st.
  assert (Hgt : fgt (fsub (fl 11) (FloatHostname.last_activity st))
                  (of_Z FloatHostname.IDLE_SEC) = true)
    by (vm_compute; reflexivity).
  destruct (float_idle_enter "pi" (fl 11) st w eq_refl Hgt eq_refl)
    as (ps & _ & _ & Heq).
  eexists _, _. split; [exact Heq |].
  destruct (proj1 scene_state_on_saver_entry "pi"%string st _ w _ (fl 11)
              eq_refl Heq eq_refl) as (Hps & Hlen & _).
  split; [exact Hps | exact Hlen].
Defined.

(** The 3D text entering the saver with the sprite where an earlier
    session left it, moving left: the new session goes on from there and
    not from the start position [(40, 80)] with velocity [(2.6, 1.9)]. *)
Lemma text3d_sprite_survives_sessions :
  let w := sample_world (sample_oracle false (seconds_from 0)) [] [] in
  let st := {| Text3D.last_activity := Fin 0; Text3D.saver_on := false;
               Text3D.saved := None;
               Text3D.x := fl 300; Text3D.y := fl 150;
               Text3D.vx := fl (-26 # 10); Text3D.vy := fl (19 # 10);
               Text3D.next_frame := Fin 0; Text3D.t0 := Fin 0 |} in
  exists st' w',
    Text3D.idle_phase (fl 700) st w = (Ok st', w') /\
    Text3D.saver_on st = false /\ Text3D.saver_on st' = true /\
    Text3D.sprite st' = (fl 300, fl 150, fl (-26 # 10), fl (19 # 10)) /\
    Text3D.x st' <> fl 40 /\ Text3D.y st' <> fl 80 /\
    Text3D.vx st' <> fl (26 # 10).
Proof.
  intros w st.
  assert (Hgt : fgt (fsub (fl 700) (Text3D.last_activity st))
                  (of_Z Text3D.IDLE_SEC) = true)
    by (vm_compute; reflexivity).
  pose proof (text3d_idle_enter (fl 700) st w eq_refl Hgt) as Heq.
  change (fb_faulty (env w) (fb_opens w)) with false in Heq.
  eexists _, _. split; [exact Heq |].
  cbn [Text3D.saver_on Text3D.sprite Text3D.x Text3D.y Text3D.vx Text3D.vy st].
  repeat split; try reflexivity; intros Hne; vm_compute in Hne; discriminate.
Qed.

(** ** The bouncing sprite *)

Section FloatSums.








End FloatSums.
(** One axis of the update. *)
Section Axis.

Variables lo hi ext : Z.
Hypothesis lo_nonneg : 0 <= lo.
Hypothesis ext_nonneg : 0 <= ext.
Hypothesis ext_fits : lo + ext <= hi.
Hypothesis hi_small : hi < 2 ^ 53.





End Axis.
Section Bounce.

Variables tw th : Z.
Variable paint : pyfloat -> pyfloat -> pyfloat -> image.
Hypothesis tw_nonneg : 0 <= tw.
Hypothesis th_nonneg : 0 <= th.
Hypothesis tw_fits : tw <= W - 2 * (12 + Text3D.EXTRUDE).
Hypothesis th_fits : th <= H - 2 * (12 + Text3D.EXTRUDE).

(** The update treats the two axes independently. *)
Lemma bounce_by_axis x y vx vy :
  Text3D.bounce tw th (x, y, vx, vy)
  = (fst (Text3D.bounce_axis 22 458 tw x vx), fst (Text3D.bounce_axis 22 298 th y vy),
     snd (Text3D.bounce_axis 22 458 tw x vx), snd (Text3D.bounce_axis 22 298 th y vy)).
Proof.
  unfold Text3D.bounce, Text3D.bounce_axis.
  change (12 + Text3D.EXTRUDE) with 22.
  change (W - 22) with 458. change (H - 22) with 298.
  destruct (flt (fadd x vx) (of_Z 22)); destruct (flt (fadd y vy) (of_Z 22));
    repeat match goal with
           | |- context [if ?b then _ else _] => destruct b
           end; reflexivity.
Qed.



(** What the render step does, case by case. *)
Lemma text3d_render_off now st w :
  Text3D.saver_on st = false ->
  Text3D.render_phase tw th paint now st w = (Ok st, w).
Proof. intros Hoff. unfold Text3D.render_phase. rewrite Hoff. reflexivity. Qed.

Lemma text3d_render_early now st w :
  Text3D.saver_on st = true ->
  fge now (Text3D.next_frame st) = false ->
  Text3D.render_phase tw th paint now st w = (Ok st, w).
Proof.
  intros Hon Hearly. unfold Text3D.render_phase. rewrite Hon, Hearly. reflexivity.
Qed.


Lemma drawn_saved now st :
  Text3D.saved (Text3D.drawn tw th now st) = Text3D.saved st /\
  Text3D.saver_on (Text3D.drawn tw th now st) = Text3D.saver_on st.
Proof.
  unfold Text3D.drawn. destruct (Text3D.bounce tw th (Text3D.sprite st)) as [[[x1 y1] vx1] vy1].
  split; reflexivity.
Qed.

Lemma text3d_render_due now st w :
  Text3D.saver_on st = true ->
  fge now (Text3D.next_frame st) = true ->
  exists frame,
    len frame = FRAME_BYTES /\
    Text3D.render_phase tw th paint now st w
    = if fb_faulty (env w) (fb_opens w)
      then (Raise OSError, fb_accessed (fb_data w) w)
      else (Ok (Text3D.drawn tw th now st),
            fb_accessed (overwrite frame (fb_data w)) w).
Proof.
  intros Hon Hdue. unfold Text3D.render_phase, Text3D.drawn. rewrite Hon, Hdue.
  destruct (Text3D.bounce tw th (Text3D.sprite st)) as [[[x1 y1] vx1] vy1].
  exists (Text3D.render_3d_text_frame paint (fsub now (Text3D.t0 st)) x1 y1).
  split; [apply rgb888_to_rgb565_bytes_len |].
  unfold bind at 1. unfold bind at 1.
  rewrite fb_write_full by apply rgb888_to_rgb565_bytes_len.
  unfold fb_store. destruct (fb_faulty (env w) (fb_opens w)); reflexivity.
Qed.

(** A render step that completes leaves the sprite alone or updates it
    once; the saved frame and the saver flag stay. *)
Lemma text3d_render_cases now st w st' w' :
  Text3D.render_phase tw th paint now st w = (Ok st', w') ->
  (st' = st /\ w' = w) \/
  (st' = Text3D.drawn tw th now st /\ Text3D.saver_on st = true /\
   fge now (Text3D.next_frame st) = true /\ fb_faulty (env w) (fb_opens w) = false).
Proof.
  intros Hrun. destruct (Text3D.saver_on st) eqn:Hon.
  - destruct (bool_false_true (fge now (Text3D.next_frame st))) as [Hearly | Hdue].
    + rewrite text3d_render_early in Hrun by assumption.
      injection Hrun as <- <-. left. split; reflexivity.
    + destruct (text3d_render_due now st w Hon Hdue) as (frame & _ & Heq).
      rewrite Heq in Hrun. destruct (fb_faulty (env w) (fb_opens w)); [discriminate |].
      injection Hrun as <- _. right. repeat split; assumption.
  - rewrite text3d_render_off in Hrun by assumption.
    injection Hrun as <- <-. left. split; reflexivity.
Qed.



(** The phases of a tick that completes. *)
Lemma text3d_tick_phases st w st' w' :
  Text3D.tick tw th paint st w = (Ok st', w') ->
  exists st1 w1 st2 w2,
    Text3D.activity_phase st w = (Ok st1, w1) /\
    Text3D.idle_phase (clock (env w1) (clock_reads w1)) st1 (clock_read w1)
    = (Ok st2, w2) /\
    Text3D.render_phase tw th paint (clock (env w1) (clock_reads w1)) st2 w2
    = (Ok st', w').
Proof.
  intros Hrun. unfold Text3D.tick in Hrun. unfold bind at 1 in Hrun.
  destruct (Text3D.activity_phase st w) as [[st1 | e] w1] eqn:Hact; [| discriminate].
  unfold bind at 1 in Hrun. unfold time_monotonic in Hrun.
  unfold bind at 1 in Hrun.
  destruct (Text3D.idle_phase (clock (env w1) (clock_reads w1)) st1 (clock_read w1))
    as [[st2 | e] w2] eqn:Hidle; [| discriminate].
  exists st1, w1, st2, w2. split; [reflexivity | split; [exact Hidle | exact Hrun]].
Qed.





End Bounce.


(** ** A touch and the idle test in one tick *)

Section Precedence.

Variables tw th : Z.
Variable paint : pyfloat -> pyfloat -> pyfloat -> image.

(** A touch when the clock advances by more than [IDLE_SEC] between the
    two readings of the tick: the saver is entered again before the tick
    ends. *)
Lemma text3d_tick_touch_late st w w1 :
  touch_event_available w = (Ok true, w1) ->
  let t := clock (env w1) (clock_reads w1) in
  let now := clock (env w1) (S (clock_reads w1)) in
  fgt (fsub now t) (of_Z Text3D.IDLE_SEC) = true ->
  fge now (Fin 0) = true ->
  (forall n, fb_faulty (env w1) n = false) ->
  exists st' w',
    Text3D.tick tw th paint st w = (Ok st', w') /\
    Text3D.saver_on st' = true.
Proof.
  intros Hpoll t now Hgt Hpos Hok.
  destruct (text3d_activity_touched st w w1 Hpoll) as (wa & Hact & Henv & Hclk & _).
  unfold Text3D.tick. unfold bind at 1. rewrite Hact.
  unfold bind at 1. unfold time_monotonic. rewrite Henv, Hclk. fold t. fold now.
  unfold bind at 1. rewrite text3d_idle_enter by (try reflexivity; exact Hgt).
  cbn [env clock_read]. rewrite Henv, Hok.
  match goal with
  | |- context [Text3D.render_phase tw th paint now ?s ?v] =>
      destruct (text3d_render_due tw th paint now s v eq_refl Hpos)
        as (frame & _ & Hdraw);
      rewrite Hdraw
  end.
  cbn [env fb_accessed clock_read]. rewrite Henv, Hok.
  eexists _, _. split; [reflexivity |].
  apply drawn_saved.
Qed.

End Precedence.

(** C7. Activity within a tick of the 3D text loop, as the script has it.
    The activity step comes first: when the poll reports an event,
    [last_activity] becomes the clock reading [t] taken there, and the idle
    test that follows compares the later reading [now] of the same tick
    with [t], not with the time of the earlier activity.  So however long
    the loop had been idle before the touch, as long as the idle test
    [now - t > IDLE_SEC] of the script fails, as it does whenever the clock
    advances by no more than [IDLE_SEC] between these two readings, the
    tick completes with the saver off, [last_activity = t], the saved
    frame dropped if the saver was on, and the sprite where it was. *)
Theorem activity_precedence (tw th : Z) (paint : pyfloat -> pyfloat -> pyfloat -> image)
    (st : Text3D.state) (w w1 : world) :
  touch_event_available w = (Ok true, w1) ->
  let t := clock (env w1) (clock_reads w1) in
  let now := clock (env w1) (S (clock_reads w1)) in
  (fgt (fsub now t) (of_Z Text3D.IDLE_SEC) = false \/
   exists qn qt : Q,
     now = Fin qn /\ t = Fin qt /\ (qn - qt <= inject_Z Text3D.IDLE_SEC)%Q) ->
  exists st' w',
    Text3D.tick tw th paint st w = (Ok st', w') /\
    Text3D.saver_on st' = false /\
    Text3D.last_activity st' = t /\
    Text3D.saved st' = (if Text3D.saver_on st then None else Text3D.saved st) /\
    Text3D.sprite st' = Text3D.sprite st.
Proof.
  intros Hpoll t now Hle.
  assert (Htest : fgt (fsub now t) (of_Z Text3D.IDLE_SEC) = false).
  { destruct Hle as [Hle | (qn & qt & -> & -> & Hle)];
      [exact Hle | apply elapsed_within; exact Hle]. }
  destruct (text3d_activity_touched st w w1 Hpoll) as (wa & Hact & Henv & Hclk & _).
  unfold Text3D.tick. unfold bind at 1. rewrite Hact.
  unfold bind at 1. unfold time_monotonic. rewrite Henv, Hclk. fold t. fold now.
  unfold bind at 1. rewrite text3d_idle_stay by (right; exact Htest).
  rewrite text3d_render_off by reflexivity.
  eexists _, _. split; [reflexivity |]. repeat split.
Qed.

(** A touch after 1000 idle seconds, the saver on, the two clock readings
    of the tick one second apart. *)
Lemma activity_precedence_witness :
  let w := sample_world (sample_oracle false (seconds_from 1000)) [] [abs_event] in
  let st := {| Text3D.last_activity := Fin 0; Text3D.saver_on := true;
               Text3D.saved := Some (frame_of []);
               Text3D.x := fl 300; Text3D.y := fl 150;
               Text3D.vx := fl (26 # 10); Text3D.vy := fl (19 # 10);
               Text3D.next_frame := fl 900; Text3D.t0 := fl 601 |} in
  fgt (fsub (Fin 1001) (Text3D.last_activity st)) (of_Z Text3D.IDLE_SEC) = true /\
  exists st' w',
    Text3D.tick 300 70 (fun _ _ _ _ _ => (0, 0, 0)) st w = (Ok st', w') /\
    Text3D.saver_on st' = false /\ Text3D.saved st' = None.
Proof.
  intros w st. split; [vm_compute; reflexivity |].
  destruct (activity_precedence 300 70 (fun _ _ _ _ _ => (0, 0, 0)) st w
              (ev_polled [] w) eq_refl) as (st' & w' & Hrun & Hoff & _ & Hsaved & _).
  - right. exists 1001%Q, 1000%Q.
    split; [reflexivity | split; [reflexivity | vm_compute; discriminate]].
  - exists st', w'. split; [exact Hrun | split; [exact Hoff | exact Hsaved]].
Defined.

(** The same touch when 700 seconds pass between the two clock readings of
    the tick: an event is available and the idle condition holds, both
    with respect to the earlier activity and in the test itself, and the
    tick ends with the saver on: the saver was left and entered again in
    one tick. *)
Lemma touch_and_idle_in_one_tick :
  let w := sample_world (sample_oracle false (ticking 1000 700)) [] [abs_event] in
  let st := {| Text3D.last_activity := Fin 0; Text3D.saver_on := true;
               Text3D.saved := Some (frame_of []);
               Text3D.x := fl 300; Text3D.y := fl 150;
               Text3D.vx := fl (26 # 10); Text3D.vy := fl (19 # 10);
               Text3D.next_frame := fl 900; Text3D.t0 := fl 601 |} in
  touch_event_available w = (Ok true, ev_polled [] w) /\
  fgt (fsub (clock (env w) 1) (Text3D.last_activity st)) (of_Z Text3D.IDLE_SEC) = true /\
  fgt (fsub (clock (env w) 1) (clock (env w) 0)) (of_Z Text3D.IDLE_SEC) = true /\
  (inject_Z Text3D.IDLE_SEC
   < fval (clock (env w) 1) - fval (Text3D.last_activity st))%Q /\
  (inject_Z Text3D.IDLE_SEC < fval (clock (env w) 1) - fval (clock (env w) 0))%Q /\
  forall tw th paint, exists st' w',
    Text3D.tick tw th paint st w = (Ok st', w') /\
    Text3D.saver_on st' = true.
Proof.
  intros w st. split; [reflexivity |].
  split; [vm_compute; reflexivity |]. split; [vm_compute; reflexivity |].
  split; [vm_compute; reflexivity |]. split; [vm_compute; reflexivity |].
  intros tw th paint.
  apply (text3d_tick_touch_late tw th paint st w (ev_polled [] w)).
  - reflexivity.
  - vm_compute. reflexivity.
  - vm_compute. reflexivity.
  - intros n. reflexivity.
Qed.
(** ** Saving and restoring the framebuffer *)

Section Roundtrip.

Variables tw th : Z.
Variable paint : pyfloat -> pyfloat -> pyfloat -> image.

(** With the saver off the activity step does not touch the framebuffer. *)
Lemma text3d_activity_off st w st' w' :
  Text3D.saver_on st = false ->
  Text3D.activity_phase st w = (Ok st', w') ->
  Text3D.saver_on st' = false /\ fb_data w' = fb_data w.
Proof.
  intros Hoff Hrun. destruct (poll_with_total scan_events w) as (b & q & Hpoll).
  fold touch_event_available in Hpoll. destruct b.
  - unfold Text3D.activity_phase, bind in Hrun. rewrite Hpoll in Hrun.
    unfold time_monotonic in Hrun. cbn [Text3D.saver_on] in Hrun.
    rewrite Hoff in Hrun. injection Hrun as <- <-. split; reflexivity.
  - rewrite (text3d_activity_quiet st w _ Hpoll) in Hrun.
    injection Hrun as <- <-. split; [exact Hoff | reflexivity].
Qed.

(** The restore: with the saver on and a full frame saved, a touch writes
    exactly the saved frame, if the device can be written at all. *)
Lemma text3d_activity_restore st w w1 frame :
  touch_event_available w = (Ok true, w1) ->
  Text3D.saver_on st = true ->
  Text3D.saved st = Some frame ->
  len frame = FRAME_BYTES ->
  exists st',
    Text3D.saver_on st' = false /\ Text3D.saved st' = None /\
    Text3D.activity_phase st w
    = (Ok st',
       if fb_faulty (env w1) (fb_opens w1)
       then fb_accessed (fb_data w1) (clock_read w1)
       else fb_accessed (overwrite frame (fb_data w1)) (clock_read w1)).
Proof.
  intros Hpoll Hon Hsaved Hlen. unfold Text3D.activity_phase, bind.
  rewrite Hpoll. unfold time_monotonic.
  cbn [Text3D.saver_on Text3D.saved]. rewrite Hon, Hsaved.
  unfold try_pass. rewrite fb_write_full by exact Hlen.
  unfold fb_store. cbn [env fb_opens clock_read fb_data].
  destruct (fb_faulty (env w1) (fb_opens w1));
    (eexists; split; [| split; [| reflexivity]]; reflexivity).
Qed.

(** A tick that starts with the saver off and ends with it on has saved
    the frame that was on the device when the tick began. *)
Lemma text3d_tick_captures st w st1 w1 :
  Text3D.saver_on st = false ->
  Text3D.tick tw th paint st w = (Ok st1, w1) ->
  Text3D.saver_on st1 = true ->
  Text3D.saved st1 = Some (frame_of (fb_data w)).
Proof.
  intros Hoff Hrun Hon.
  destruct (text3d_tick_phases tw th paint st w st1 w1 Hrun)
    as (sa & wa & si & wi & Hact & Hidle & Hrender).
  destruct (text3d_activity_off st w sa wa Hoff Hact) as (Hoffa & Hdata).
  assert (Hsi : Text3D.saver_on si = true /\ Text3D.saved si = Text3D.saved st1).
  { destruct (text3d_render_cases _ _ _ _ _ _ _ _ Hrender) as [[-> _] | [-> _]].
    - split; [exact Hon | reflexivity].
    - destruct (drawn_saved tw th (clock (env wa) (clock_reads wa)) si) as (Hs & Ho).
      rewrite Ho in Hon. split; [exact Hon | symmetry; exact Hs]. }
  destruct Hsi as (Honi & <-).
  set (now := clock (env wa) (clock_reads wa)) in *.
  destruct (sumbool_of_bool (fgt (fsub now (Text3D.last_activity sa)) (of_Z Text3D.IDLE_SEC)))
      as [Hgt | Hle].
  - rewrite (text3d_idle_enter now sa _ Hoffa Hgt) in Hidle.
    cbn [env fb_opens fb_data clock_read] in Hidle.
    destruct (fb_faulty (env wa) (fb_opens wa)); [discriminate |].
    injection Hidle as <- _. cbn [Text3D.saved]. rewrite Hdata. reflexivity.
  - rewrite text3d_idle_stay in Hidle by (right; exact Hle).
    injection Hidle as <- _. congruence.
Qed.

(** A quiet tick keeps the saver on and the saved frame as it is. *)
Lemma text3d_quiet_tick_keeps st w st1 w1 frame :
  Text3D.quiet w ->
  Text3D.tick tw th paint st w = (Ok st1, w1) ->
  Text3D.saver_on st = true ->
  Text3D.saved st = Some frame ->
  Text3D.saver_on st1 = true /\ Text3D.saved st1 = Some frame.
Proof.
  intros Hquiet Hrun Hon Hsaved.
  destruct (text3d_tick_phases tw th paint st w st1 w1 Hrun)
    as (sa & wa & si & wi & Hact & Hidle & Hrender).
  unfold Text3D.quiet in Hquiet.
  destruct (touch_event_available w) as [r wq] eqn:Hpoll. simpl in Hquiet. subst r.
  rewrite (text3d_activity_quiet st w wq Hpoll) in Hact. injection Hact as <- <-.
  rewrite text3d_idle_stay in Hidle by (left; exact Hon). injection Hidle as <- <-.
  destruct (text3d_render_cases _ _ _ _ _ _ _ _ Hrender) as [[-> _] | [-> _]].
  - split; assumption.
  - destruct (drawn_saved tw th (clock (env wq) (clock_reads wq)) st) as (Hs & Ho).
    rewrite Hs, Ho. split; assumption.
Qed.

Lemma text3d_session_keeps frame s1 s2 :
  Text3D.session tw th paint s1 s2 ->
  Text3D.saver_on (fst s1) = true ->
  Text3D.saved (fst s1) = Some frame ->
  Text3D.saver_on (fst s2) = true /\ Text3D.saved (fst s2) = Some frame.
Proof.
  induction 1 as [s | st w st1 w1 s2 Hquiet Htick Hrest IH]; intros Hon Hsaved.
  - split; assumption.
  - simpl in Hon, Hsaved.
    destruct (text3d_quiet_tick_keeps st w st1 w1 frame Hquiet Htick Hon Hsaved)
      as (Hon1 & Hsaved1).
    apply IH; assumption.
Qed.

(** The device keeps its size through every step of the loop. *)
Lemma text3d_activity_size st w st' w' :
  Text3D.activity_phase st w = (Ok st', w') ->
  length (fb_data w') = length (fb_data w).
Proof.
  intros Hrun. destruct (poll_with_total scan_events w) as (b & q & Hpoll).
  fold touch_event_available in Hpoll. destruct b.
  - destruct (text3d_activity_touched st w _ Hpoll) as (w2 & Heq & _ & _ & Hsize).
    rewrite Heq in Hrun. injection Hrun as _ <-. exact Hsize.
  - rewrite (text3d_activity_quiet st w _ Hpoll) in Hrun.
    injection Hrun as _ <-. reflexivity.
Qed.

Lemma text3d_idle_size now st w st' w' :
  Text3D.idle_phase now st w = (Ok st', w') ->
  length (fb_data w') = length (fb_data w).
Proof.
  intros Hrun. unfold Text3D.idle_phase in Hrun.
  destruct (negb (Text3D.saver_on st) &&
            fgt (fsub now (Text3D.last_activity st)) (of_Z Text3D.IDLE_SEC)).
  - unfold bind, fb_read in Hrun.
    destruct (fb_faulty (env w) (fb_opens w)); [discriminate |].
    injection Hrun as _ <-. reflexivity.
  - injection Hrun as _ <-. reflexivity.
Qed.

Lemma text3d_render_size now st w st' w' :
  Text3D.render_phase tw th paint now st w = (Ok st', w') ->
  length (fb_data w') = length (fb_data w).
Proof.
  intros Hrun. destruct (Text3D.saver_on st) eqn:Hon.
  - destruct (bool_false_true (fge now (Text3D.next_frame st))) as [Hearly | Hdue].
    + rewrite text3d_render_early in Hrun by assumption.
      injection Hrun as _ <-. reflexivity.
    + destruct (text3d_render_due tw th paint now st w Hon Hdue) as (frame & _ & Heq).
      rewrite Heq in Hrun. destruct (fb_faulty (env w) (fb_opens w)); [discriminate |].
      injection Hrun as _ <-. cbn [fb_data fb_accessed]. apply overwrite_length.
  - rewrite text3d_render_off in Hrun by assumption.
    injection Hrun as _ <-. reflexivity.
Qed.

Lemma text3d_tick_size st w st' w' :
  Text3D.tick tw th paint st w = (Ok st', w') ->
  length (fb_data w') = length (fb_data w).
Proof.
  intros Hrun.
  destruct (text3d_tick_phases tw th paint st w st' w' Hrun)
    as (sa & wa & si & wi & Hact & Hidle & Hrender).
  apply text3d_activity_size in Hact. apply text3d_idle_size in Hidle.
  apply text3d_render_size in Hrender.
  cbn [fb_data clock_read] in Hidle. congruence.
Qed.

Lemma text3d_session_size s1 s2 :
  Text3D.session tw th paint s1 s2 ->
  length (fb_data (snd s2)) = length (fb_data (snd s1)).
Proof.
  induction 1 as [s | st w st1 w1 s2 Hquiet Htick Hrest IH]; [reflexivity |].
  rewrite IH. cbn [snd]. apply (text3d_tick_size _ _ _ _ Htick).
Qed.

(** A tick without activity that enters the saver and draws the first
    frame, when the framebuffer works. *)
Lemma text3d_tick_enters st w wq :
  touch_event_available w = (Ok false, wq) ->
  Text3D.saver_on st = false ->
  let now := clock (env wq) (clock_reads wq) in
  fgt (fsub now (Text3D.last_activity st)) (of_Z Text3D.IDLE_SEC) = true ->
  fge now (Fin 0) = true ->
  (forall n, fb_faulty (env wq) n = false) ->
  exists st1 frame,
    Text3D.tick tw th paint st w
    = (Ok st1, fb_accessed (overwrite frame (fb_data wq))
                 (fb_accessed (fb_data wq) (clock_read wq))) /\
    Text3D.saver_on st1 = true.
Proof.
  intros Hpoll Hoff now Hgt Hpos Hok.
  unfold Text3D.tick. unfold bind at 1.
  rewrite (text3d_activity_quiet st w wq Hpoll).
  unfold bind at 1. unfold time_monotonic. fold now.
  unfold bind at 1. rewrite text3d_idle_enter by assumption.
  cbn [env clock_read]. rewrite Hok.
  match goal with
  | |- context [Text3D.render_phase tw th paint now ?s ?v] =>
      destruct (text3d_render_due tw th paint now s v eq_refl Hpos)
        as (frame & _ & Hdraw);
      rewrite Hdraw
  end.
  cbn [env fb_accessed clock_read]. rewrite Hok.
  eexists _, frame. split; [reflexivity |].
  apply drawn_saved.
Qed.

(** A quiet tick with the saver on, when the framebuffer works: it
    completes and leaves the touch device as the poll left it. *)
Lemma text3d_quiet_tick_runs st w wq :
  touch_event_available w = (Ok false, wq) ->
  Text3D.saver_on st = true ->
  (forall n, fb_faulty (env wq) n = false) ->
  exists st1 w1,
    Text3D.tick tw th paint st w = (Ok st1, w1) /\
    env w1 = env wq /\ ev_queue w1 = ev_queue wq /\ ev_reads w1 = ev_reads wq.
Proof.
  intros Hpoll Hon Hok.
  unfold Text3D.tick. unfold bind at 1.
  rewrite (text3d_activity_quiet st w wq Hpoll).
  unfold bind at 1. unfold time_monotonic.
  unfold bind at 1. rewrite text3d_idle_stay by (left; exact Hon).
  set (now := clock (env wq) (clock_reads wq)).
  destruct (bool_false_true (fge now (Text3D.next_frame st))) as [Hearly | Hdue].
  - rewrite text3d_render_early by assumption.
    eexists _, _. split; [reflexivity | repeat split].
  - destruct (text3d_render_due tw th paint now st (clock_read wq) Hon Hdue)
      as (frame & _ & Hdraw).
    rewrite Hdraw. cbn [env clock_read]. rewrite Hok.
    eexists _, _. split; [reflexivity | repeat split].
Qed.

End Roundtrip.

(** C1. Round-trip restore in the 3D text loop.  Let a tick take the loop
    from saver off to saver on, and let quiet ticks (ticks whose poll
    reports no activity) follow until a poll reports a touch.  Then the
    saved buffer is still the frame [F] that [fb_read] returned at the
    transition, a full frame of [FRAME_BYTES] bytes; the activity step of
    the touch tick completes with the saver off and, unless the device
    refuses the write, has written exactly [F] to the device, so that
    reading the device again returns [F] byte for byte. *)
Theorem roundtrip_restore (tw th : Z) (paint : pyfloat -> pyfloat -> pyfloat -> image)
    (st st1 st2 : Text3D.state) (w w1 w2 w3 : world) :
  Text3D.saver_on st = false ->
  Text3D.tick tw th paint st w = (Ok st1, w1) ->
  Text3D.saver_on st1 = true ->
  Text3D.session tw th paint (st1, w1) (st2, w2) ->
  touch_event_available w2 = (Ok true, w3) ->
  let F := frame_of (fb_data w) in
  Text3D.saved st1 = Some F /\
  Text3D.saved st2 = Some F /\
  len F = FRAME_BYTES /\
  exists st3 w4,
    Text3D.activity_phase st2 w2 = (Ok st3, w4) /\
    Text3D.saver_on st3 = false /\ Text3D.saved st3 = None /\
    (fb_faulty (env w3) (fb_opens w3) = false ->
     fb_data w4 = overwrite F (fb_data w3) /\
     frame_of (fb_data w4) = F).
Proof.
  intros Hoff Htick Hon Hsession Hpoll F.
  pose proof (text3d_tick_captures tw th paint st w st1 w1 Hoff Htick Hon) as Hsaved1.
  destruct (text3d_session_keeps tw th paint F _ _ Hsession Hon Hsaved1)
    as (Hon2 & Hsaved2).
  simpl in Hon2, Hsaved2.
  assert (Hlen : len F = FRAME_BYTES) by apply frame_of_len.
  split; [exact Hsaved1 | split; [exact Hsaved2 | split; [exact Hlen |]]].
  destruct (text3d_activity_restore st2 w2 w3 F Hpoll Hon2 Hsaved2 Hlen)
    as (st3 & Hoff3 & Hnone & Hact).
  eexists st3, _. split; [exact Hact |].
  split; [exact Hoff3 | split; [exact Hnone |]].
  intros Hok. rewrite Hok. cbn [fb_data fb_accessed].
  split; [reflexivity |]. apply frame_of_restore.
  destruct (poll_with_total scan_events w2) as (b & q & Hpoll').
  fold touch_event_available in Hpoll'. rewrite Hpoll in Hpoll'.
  injection Hpoll' as _ ->. cbn [fb_data ev_polled].
  pose proof (text3d_session_size tw th paint _ _ Hsession) as Hsize.
  cbn [snd] in Hsize. rewrite Hsize.
  apply (text3d_tick_size tw th paint _ _ _ _ Htick).
Qed.

(** The loop idle for 700 seconds over a device that delivers three
    bytes: the first tick enters the saver, the second is quiet, and a
    touch arrives before the third poll. *)
Lemma roundtrip_restore_witness :
  let o := touch_before 2 (sample_oracle false (seconds_from 700)) in
  let w := sample_world o [1; 2; 3] [] in
  let st := {| Text3D.last_activity := Fin 0; Text3D.saver_on := false;
               Text3D.saved := None;
               Text3D.x := fl 40; Text3D.y := fl 80;
               Text3D.vx := fl (26 # 10); Text3D.vy := fl (19 # 10);
               Text3D.next_frame := Fin 0; Text3D.t0 := Fin 0 |} in
  let paint := fun (_ _ _ : pyfloat) (_ _ : Z) => (235, 235, 235) in
  exists st1 w1 st2 w2 st3 w4,
    Text3D.tick 300 70 paint st w = (Ok st1, w1) /\
    Text3D.saver_on st1 = true /\
    Text3D.quiet w1 /\
    Text3D.tick 300 70 paint st1 w1 = (Ok st2, w2) /\
    Text3D.saved st2 = Some (frame_of [1; 2; 3]) /\
    Text3D.activity_phase st2 w2 = (Ok st3, w4) /\
    Text3D.saver_on st3 = false /\
    frame_of (fb_data w4) = frame_of [1; 2; 3].
Proof.
  intros o w st paint.
  destruct (text3d_tick_enters 300 70 paint st w (ev_polled [] w) eq_refl eq_refl)
    as (st1 & frame & Htick & Hon).
  - vm_compute. reflexivity.
  - vm_compute. reflexivity.
  - intros n. reflexivity.
  - set (w1 := fb_accessed (overwrite frame (fb_data (ev_polled [] w)))
                 (fb_accessed (fb_data (ev_polled [] w)) (clock_read (ev_polled [] w))))
      in Htick.
    assert (Hquiet : touch_event_available w1 = (Ok false, ev_polled [] w1))
      by reflexivity.
    destruct (text3d_quiet_tick_runs 300 70 paint st1 w1 _ Hquiet Hon)
      as (st2 & w2 & Htick2 & Henv & Hqueue & Hreads); [intros n; reflexivity |].
    assert (Hpoll : touch_event_available w2 = (Ok true, ev_polled [] w2)).
    { unfold touch_event_available.
      rewrite poll_with_ok; rewrite ?Henv, ?Hqueue, ?Hreads; reflexivity. }
    assert (Hq : Text3D.quiet w1) by (unfold Text3D.quiet; rewrite Hquiet; reflexivity).
    destruct (roundtrip_restore 300 70 paint st st1 st2 w w1 w2
                (ev_polled [] w2) eq_refl Htick Hon
                (Text3D.session_tick 300 70 paint st1 w1 st2 w2 (st2, w2)
                   Hq Htick2 (Text3D.session_here 300 70 paint (st2, w2)))
                Hpoll)
      as (_ & Hsaved2 & _ & st3 & w4 & Hact & Hoff & _ & Hdata).
    exists st1, w1, st2, w2, st3, w4.
    split; [exact Htick | split; [exact Hon | split; [exact Hq |]]].
    split; [exact Htick2 | split; [exact Hsaved2 | split; [exact Hact |]]].
    split; [exact Hoff |].
    apply Hdata. cbn [env fb_opens ev_polled]. rewrite Henv. reflexivity.
Defined.

(** * Further properties of the scripts *)

(** ** Reading and writing the framebuffer *)

Section FramebufferMore.

Lemma pad_frame_lookup buf (i : nat) :
  len buf <= FRAME_BYTES ->
  Z.of_nat i < FRAME_BYTES ->
  pad_frame buf !! i = Some (nth i buf 0).
Proof.
  intros Hle Hi. unfold pad_frame.
  destruct (Z.ltb_spec (len buf) FRAME_BYTES) as [Hlt | Hge].
  - destruct (le_lt_dec (length buf) i) as [Hout | Hin].
    + rewrite lookup_app_r by exact Hout.
      rewrite nth_overflow by exact Hout.
      apply lookup_replicate_2. unfold len in *. lia.
    + rewrite lookup_app_l by exact Hin.
      destruct (lookup_lt_is_Some_2 buf i Hin) as [b Hb].
      rewrite Hb. f_equal. symmetry. apply nth_lookup_Some with (d := 0) in Hb.
      exact Hb.
  - assert (Hin : (i < length buf)%nat) by (unfold len in *; lia).
    destruct (lookup_lt_is_Some_2 buf i Hin) as [b Hb].
    rewrite Hb. f_equal. symmetry. apply nth_lookup_Some with (d := 0) in Hb.
    exact Hb.
Qed.

Lemma frame_of_lookup data (i : nat) :
  Z.of_nat i < FRAME_BYTES ->
  frame_of data !! i = Some (nth i data 0).
Proof.
  intros Hi. unfold frame_of.
  rewrite pad_frame_lookup;
    [| unfold len; rewrite length_take, FRAME_BYTES_value; lia | exact Hi].
  f_equal.
  destruct (le_lt_dec (length data) i) as [Hout | Hin].
  - rewrite !nth_overflow; [reflexivity | exact Hout |].
    rewrite length_take. lia.
  - rewrite <- (take_drop (Z.to_nat FRAME_BYTES) data) at 2.
    rewrite app_nth1; [reflexivity |].
    rewrite length_take. lia.
Qed.

(** Writing back the frame just read changes nothing on the device. *)
Lemma overwrite_frame_of data : overwrite (frame_of data) data = data.
Proof.
  unfold overwrite, frame_of, pad_frame, len.
  assert (Hpos : 0 <= FRAME_BYTES) by (rewrite FRAME_BYTES_value; lia).
  revert Hpos. generalize FRAME_BYTES. intros fb Hpos.
  rewrite length_take.
  destruct (Z.ltb_spec (Z.of_nat (Z.to_nat fb `min` length data)) fb)
    as [Hshort | Hfull].
  - assert (Hlt : (length data < Z.to_nat fb)%nat) by lia.
    rewrite (take_ge data) by lia.
    rewrite drop_ge by (rewrite length_app, length_replicate; lia).
    rewrite app_nil_r. apply take_app_length.
  - assert (Hge : (Z.to_nat fb <= length data)%nat) by lia.
    rewrite length_take.
    replace (Z.to_nat fb `min` length data)%nat with (Z.to_nat fb) by lia.
    rewrite take_drop. apply take_ge. lia.
Qed.

End FramebufferMore.

(** X1. [fb_read] never changes the device and, when it returns, returns
    exactly [FRAME_BYTES] bytes, whatever the device holds: byte [i] of the
    frame is byte [i] of the device where the device has one, and zero
    beyond the device's end. *)
Theorem fb_read_full_frame (w w' : world) (frame : list Z) :
  fb_read w = (Ok frame, w') ->
  len frame = FRAME_BYTES /\
  fb_data w' = fb_data w /\
  (forall i : nat, Z.of_nat i < FRAME_BYTES ->
     frame !! i = Some (nth i (fb_data w) 0)).
Proof.
  intros Hread. unfold fb_read in Hread.
  destruct (fb_faulty (env w) (fb_opens w)); [discriminate |].
  injection Hread as <- <-. split; [apply frame_of_len |].
  split; [reflexivity |]. intros i Hi. apply frame_of_lookup. exact Hi.
Qed.

(** A device that delivers three bytes only. *)
Lemma fb_read_full_frame_witness :
  let w := sample_world (sample_oracle false (seconds_from 0)) [7; 8; 9] [] in
  len (frame_of [7; 8; 9]) = FRAME_BYTES /\
  frame_of [7; 8; 9] !! 2%nat = Some 9 /\
  frame_of [7; 8; 9] !! 3%nat = Some 0.
Proof.
  intro w.
  destruct (fb_read_full_frame w (fb_accessed (fb_data w) w) (frame_of [7; 8; 9])
              eq_refl) as (Hlen & _ & Hbytes).
  split; [exact Hlen |]. split.
  - apply (Hbytes 2%nat). rewrite FRAME_BYTES_value. lia.
  - apply (Hbytes 3%nat). rewrite FRAME_BYTES_value. lia.
Defined.

(** X2. What [fb_read] returns is always accepted by [fb_write], and
    writing it straight back leaves the bytes of the device as they were,
    also when the read was short and the frame zero-filled. *)
Theorem fb_read_then_write_back (w w1 : world) (frame : list Z) :
  fb_read w = (Ok frame, w1) ->
  fb_write frame w1 = fb_store frame w1 /\
  fb_data (snd (fb_write frame w1)) = fb_data w.
Proof.
  intros Hread. unfold fb_read in Hread.
  destruct (fb_faulty (env w) (fb_opens w)); [discriminate |].
  injection Hread as <- <-.
  rewrite fb_write_full by apply frame_of_len. split; [reflexivity |].
  unfold fb_store. cbn [env fb_opens fb_data fb_accessed].
  destruct (fb_faulty (env w) (S (fb_opens w))); cbn [snd fb_data fb_accessed];
    [reflexivity | apply overwrite_frame_of].
Qed.

Lemma fb_read_then_write_back_witness :
  let w := sample_world (sample_oracle false (seconds_from 0)) [7; 8; 9] [] in
  fb_data (snd (fb_write (frame_of [7; 8; 9]) (fb_accessed (fb_data w) w)))
  = [7; 8; 9].
Proof.
  intro w.
  exact (proj2 (fb_read_then_write_back w (fb_accessed (fb_data w) w)
                  (frame_of [7; 8; 9]) eq_refl)).
Defined.

(** X3. Write then read: after [fb_write] has stored a frame of
    [FRAME_BYTES] bytes on a device that holds at least that many, the
    next [fb_read] that succeeds returns exactly that frame, and the bytes
    of the device after the frame are untouched. *)
Theorem fb_write_then_read (buf : list Z) (w w1 : world) :
  FRAME_BYTES <= len (fb_data w) ->
  fb_write buf w = (Ok tt, w1) ->
  fb_faulty (env w1) (fb_opens w1) = false ->
  fst (fb_read w1) = Ok buf /\
  drop (Z.to_nat FRAME_BYTES) (fb_data w1) = drop (Z.to_nat FRAME_BYTES) (fb_data w).
Proof.
  intros Hbig Hwrite Hok.
  assert (Hlen : len buf = FRAME_BYTES).
  { destruct (Z.eq_dec (len buf) FRAME_BYTES) as [Heq | Hne]; [exact Heq |].
    rewrite fb_write_checked in Hwrite by exact Hne. discriminate. }
  rewrite fb_write_full in Hwrite by exact Hlen. unfold fb_store in Hwrite.
  destruct (fb_faulty (env w) (fb_opens w)); [discriminate |].
  injection Hwrite as <-.
  assert (Hfits : (length buf <= length (fb_data w))%nat)
    by (unfold len in *; lia).
  split.
  - unfold fb_read. rewrite Hok. cbn [fst fb_data fb_accessed]. f_equal.
    apply frame_of_overwrite; assumption.
  - cbn [fb_data fb_accessed]. unfold overwrite.
    rewrite take_ge by (rewrite length_app, length_drop; lia).
    replace (Z.to_nat FRAME_BYTES) with (length buf) by (unfold len in Hlen; lia).
    rewrite drop_app_length. reflexivity.
Qed.

(** A converted grey image written over a device of two bytes more than a
    frame. *)
Lemma fb_write_then_read_witness :
  let w := sample_world (sample_oracle false (seconds_from 0))
             (frame_of [] ++ [5; 6]) [] in
  let buf := rgb888_to_rgb565_bytes (fun _ _ => (90, 90, 90)) in
  fst (fb_read (fb_accessed (overwrite buf (fb_data w)) w)) = Ok buf.
Proof.
  intros w buf.
  refine (proj1 (fb_write_then_read buf w
                   (fb_accessed (overwrite buf (fb_data w)) w) _ _ _)).
  - unfold w. cbn [fb_data sample_world]. rewrite len_app, frame_of_len.
    unfold len. simpl. lia.
  - rewrite fb_write_full by apply rgb888_to_rgb565_bytes_len. reflexivity.
  - reflexivity.
Defined.

(** ** More on the converter *)

Lemma byte_of_land v : 0 <= Z.land v 0xFF < 256.
Proof.
  change 0xFF with (Z.ones 8). rewrite Z.land_ones by lia.
  apply Z.mod_pos_bound. reflexivity.
Qed.

Lemma Forall_flat_map {A B} (P : B -> Prop) (f : A -> list B) (l : list A) :
  (forall a, Forall P (f a)) -> Forall P (flat_map f l).
Proof.
  intros Hf. induction l as [| a l IH]; [constructor |].
  cbn [flat_map]. apply Forall_app. split; [apply Hf | exact IH].
Qed.

(** X4. The converter's output is a valid frame for any image, also one
    whose components are not 8-bit: it has exactly [FRAME_BYTES] bytes,
    every one of them in [0, 256), so [fb_write] never refuses it. *)
Theorem converter_output_is_a_frame (px : image) :
  len (rgb888_to_rgb565_bytes px) = FRAME_BYTES /\
  Forall (fun b => 0 <= b < 256) (rgb888_to_rgb565_bytes px) /\
  (forall w, fb_write (rgb888_to_rgb565_bytes px) w
             = fb_store (rgb888_to_rgb565_bytes px) w).
Proof.
  split; [apply rgb888_to_rgb565_bytes_len |]. split.
  - rewrite rgb888_to_rgb565_bytes_eq. unfold frame_bytes.
    apply Forall_flat_map. intros y. unfold row_bytes.
    apply Forall_flat_map. intros x. unfold pixel_bytes, lo_byte, hi_byte.
    repeat constructor; apply byte_of_land.
  - intros w. apply fb_write_full, rgb888_to_rgb565_bytes_len.
Qed.

Lemma red_mask r : 0 <= r < 256 -> Z.land r 0xF8 = 8 * (r / 8).
Proof.
  intros Hr. apply Z.eqb_eq.
  apply (seqZ_forallb (fun r => Z.land r 0xF8 =? 8 * (r / 8)) 256);
    [ vm_compute; reflexivity | exact Hr ].
Qed.

Lemma green_mask g : 0 <= g < 256 -> Z.land g 0xFC = 4 * (g / 4).
Proof.
  intros Hg. apply Z.eqb_eq.
  apply (seqZ_forallb (fun g => Z.land g 0xFC =? 4 * (g / 4)) 256);
    [ vm_compute; reflexivity | exact Hg ].
Qed.

(** X5. The converter loses the low bits and nothing else: two pixels with
    8-bit components are packed to the same 16-bit value exactly when they
    agree after masking with [(0xF8, 0xFC, 0xF8)]. *)
Theorem pack565_same_iff_masks_agree (p q : pixel) :
  pixel8 p -> pixel8 q ->
  (pack565 p = pack565 q <-> mask565 p = mask565 q).
Proof.
  intros Hp Hq. split; [| apply pack565_mask; assumption].
  destruct p as [[r g] b], q as [[r' g'] b'].
  destruct Hp as (Hr & Hg & Hb), Hq as (Hr' & Hg' & Hb').
  rewrite !pack565_value by assumption. intros Heq.
  unfold mask565. rewrite !red_mask, !green_mask by assumption.
  assert (0 <= r / 8 < 32 /\ 0 <= r' / 8 < 32 /\ 0 <= g / 4 < 64 /\
          0 <= g' / 4 < 64 /\ 0 <= b / 8 < 32 /\ 0 <= b' / 8 < 32)
    as (? & ? & ? & ? & ? & ?).
  { repeat split; try (apply Z.div_pos; lia);
      apply Z.div_lt_upper_bound; lia. }
  assert (r / 8 = r' / 8 /\ g / 4 = g' / 4 /\ b / 8 = b' / 8) as (-> & -> & Hbb)
    by lia.
  rewrite Hbb. reflexivity.
Qed.

Lemma pack565_same_iff_masks_agree_witness :
  pack565 (255, 255, 255) = pack565 (248, 252, 248)
  <-> mask565 (255, 255, 255) = mask565 (248, 252, 248).
Proof.
  apply pack565_same_iff_masks_agree; unfold pixel8; lia.
Defined.

(** ** Finding the touch device *)

Section FindDevice.

(** [contains] is the substring test. *)
Lemma prefix_spec (needle hay : string) :
  String.prefix needle hay = true <-> exists post, hay = (needle ++ post)%string.
Proof.
  revert hay. induction needle as [| c needle IH]; intros hay.
  - destruct hay; simpl; (split; [intros _; eexists; reflexivity | reflexivity]).
  - destruct hay as [| c' hay]; simpl.
    + split; [discriminate | intros [post Heq]; discriminate].
    + destruct (Ascii.ascii_dec c c') as [-> | Hne].
      * rewrite IH. split; intros [post Heq]; exists post.
        -- rewrite Heq. reflexivity.
        -- injection Heq as ->. reflexivity.
      * split; [discriminate |]. intros [post Heq]. injection Heq as -> _.
        contradiction.
Qed.

Lemma contains_spec (needle hay : string) :
  contains needle hay = true <->
  exists pre post, hay = (pre ++ needle ++ post)%string.
Proof.
  induction hay as [| c hay IH]; cbn [contains].
  - destruct (String.prefix needle "") eqn:Hp.
    + split; [| reflexivity]. intros _. apply prefix_spec in Hp as [post Heq].
      exists ""%string, post. exact Heq.
    + split; [discriminate |]. intros (pre & post & Heq).
      destruct pre as [| c pre]; [| discriminate]. simpl in Heq.
      assert (String.prefix needle "" = true) by (apply prefix_spec; eauto).
      congruence.
  - destruct (String.prefix needle (String c hay)) eqn:Hp.
    + split; [| reflexivity]. intros _. apply prefix_spec in Hp as [post Heq].
      exists ""%string, post. exact Heq.
    + rewrite IH. split.
      * intros (pre & post & ->). exists (String c pre), post. reflexivity.
      * intros (pre & post & Heq). destruct pre as [| c' pre].
        -- simpl in Heq.
           assert (String.prefix needle (String c hay) = true)
             by (apply prefix_spec; eauto).
           congruence.
        -- injection Heq as _ ->. exists pre, post. reflexivity.
Qed.

(** A loop that gets past the nodes it cannot use behaves on the rest. *)
Lemma find_named_skip key pre rest :
  Forall (passed_over key) pre ->
  find_named key (pre ++ rest) = find_named key rest.
Proof.
  induction 1 as [| d pre [Hopen Hno] _ IH]; [reflexivity |].
  simpl. rewrite Hopen, Hno. exact IH.
Qed.

Lemma find_named_none key nodes :
  find_named key nodes = Ok None <-> Forall (passed_over key) nodes.
Proof.
  induction nodes as [| d nodes IH]; simpl.
  - split; [constructor | reflexivity].
  - destruct (node_opens d) eqn:Hopen.
    + destruct (contains key (lowered_name d)) eqn:Hhit.
      * split; [discriminate |]. intros Hall. inversion Hall as [| ? ? [_ Hno] _].
        congruence.
      * rewrite IH. split.
        -- intros Hall. constructor; [split; assumption | exact Hall].
        -- intros Hall. inversion Hall. assumption.
    + split; [discriminate |]. intros Hall. inversion Hall as [| ? ? [Ho _] _].
      congruence.
Qed.

Lemma find_named_some key nodes d :
  find_named key nodes = Ok (Some d) <->
  exists pre post, nodes = pre ++ d :: post /\
                   Forall (passed_over key) pre /\ usable key d.
Proof.
  induction nodes as [| d0 nodes IH]; simpl.
  - split; [discriminate |]. intros (pre & post & Heq & _).
    destruct pre; discriminate.
  - destruct (node_opens d0) eqn:Hopen.
    + destruct (contains key (lowered_name d0)) eqn:Hhit.
      * split.
        -- intros [= ->]. exists [], nodes.
           split; [reflexivity |]. split; [constructor |]. exact (conj Hopen Hhit).
        -- intros (pre & post & Heq & Hpre & Hd). destruct pre as [| d1 pre].
           ++ injection Heq as -> _. reflexivity.
           ++ injection Heq as -> _. inversion Hpre as [| ? ? [_ Hno] _]. congruence.
      * rewrite IH. split.
        -- intros (pre & post & -> & Hpre & Hd). exists (d0 :: pre), post.
           split; [reflexivity |]. split; [| exact Hd].
           constructor; [split; assumption | exact Hpre].
        -- intros (pre & post & Heq & Hpre & Hd). destruct pre as [| d1 pre].
           ++ injection Heq as -> _. destruct Hd as [_ Hd]. congruence.
           ++ injection Heq as -> ->. inversion Hpre. exists pre, post.
              split; [reflexivity | split; assumption].
    + split; [discriminate |]. intros (pre & post & Heq & Hpre & Hd).
      destruct pre as [| d1 pre].
      * injection Heq as -> _. destruct Hd as [Hd _]. congruence.
      * injection Heq as -> _. inversion Hpre as [| ? ? [Ho _] _]. congruence.
Qed.

Lemma find_named_raises key nodes e :
  find_named key nodes = Raise e <->
  e = OSError /\
  exists pre d post, nodes = pre ++ d :: post /\
                     Forall (passed_over key) pre /\ node_opens d = false.
Proof.
  induction nodes as [| d0 nodes IH]; simpl.
  - split; [discriminate |]. intros (_ & pre & d & post & Heq & _).
    destruct pre; discriminate.
  - destruct (node_opens d0) eqn:Hopen.
    + destruct (contains key (lowered_name d0)) eqn:Hhit.
      * split; [discriminate |]. intros (_ & pre & d & post & Heq & Hpre & Hd).
        destruct pre as [| d1 pre].
        -- injection Heq as -> _. congruence.
        -- injection Heq as -> _. inversion Hpre as [| ? ? [_ Hno] _]. congruence.
      * rewrite IH. split.
        -- intros (-> & pre & d & post & -> & Hpre & Hd). split; [reflexivity |].
           exists (d0 :: pre), d, post. split; [reflexivity |]. split; [| exact Hd].
           constructor; [split; assumption | exact Hpre].
        -- intros (-> & pre & d & post & Heq & Hpre & Hd). split; [reflexivity |].
           destruct pre as [| d1 pre].
           ++ injection Heq as -> _. congruence.
           ++ injection Heq as -> ->. inversion Hpre. exists pre, d, post.
              split; [reflexivity | split; assumption].
    + split.
      * intros [= <-]. split; [reflexivity |]. exists [], d0, nodes.
        split; [reflexivity |]. split; [constructor | assumption].
      * intros (-> & _). reflexivity.
Qed.

End FindDevice.

(** X6. [find_touch_device] returns a device [d] exactly in two cases: [d]
    is the first node whose lowered name contains "ads7846", all nodes
    before it having been opened; or no node at all contains "ads7846",
    all can be opened, and [d] is the first whose lowered name contains
    "touch".  So a controller named like the ADS7846 wins over any
    "touch" device, also one listed earlier. *)
Theorem find_touch_device_found (nodes : list input_node) (d : input_node) :
  find_touch_device nodes = Ok (Some d) <->
  (exists pre post, nodes = pre ++ d :: post /\
     Forall (passed_over "ads7846") pre /\ usable "ads7846" d) \/
  (Forall (passed_over "ads7846") nodes /\
   exists pre post, nodes = pre ++ d :: post /\
     Forall (passed_over "touch") pre /\ usable "touch" d).
Proof.
  unfold find_touch_device.
  destruct (find_named "ads7846" nodes) as [[d1 |] | e] eqn:Hfirst.
  - split.
    + intros [= <-]. left. apply find_named_some. exact Hfirst.
    + intros [Hads | [Hnone _]].
      * apply find_named_some in Hads. congruence.
      * apply find_named_none in Hnone. congruence.
  - apply find_named_none in Hfirst as Hnone. split.
    + intros Hsecond. right. split; [exact Hnone |].
      apply find_named_some. exact Hsecond.
    + intros [Hads | [_ Htouch]].
      * apply find_named_some in Hads. congruence.
      * apply find_named_some. exact Htouch.
  - split; [discriminate |].
    intros [Hads | [Hnone _]].
    + apply find_named_some in Hads. congruence.
    + apply find_named_none in Hnone. congruence.
Qed.

(** X7. [find_touch_device] returns [None] exactly when every node can be
    opened and no lowered name contains "ads7846" or "touch". *)
Theorem find_touch_device_nothing (nodes : list input_node) :
  find_touch_device nodes = Ok None <->
  Forall (fun d => node_opens d = true /\
                   contains "ads7846" (lowered_name d) = false /\
                   contains "touch" (lowered_name d) = false) nodes.
Proof.
  unfold find_touch_device.
  destruct (find_named "ads7846" nodes) as [[d1 |] | e] eqn:Hfirst.
  - split; [discriminate |]. intros Hall.
    assert (Hnone : find_named "ads7846" nodes = Ok None).
    { apply find_named_none. eapply Forall_impl; [exact Hall |].
      intros d (Ho & Ha & _). split; assumption. }
    congruence.
  - apply find_named_none in Hfirst. rewrite find_named_none.
    rewrite !Forall_forall in *. split.
    + intros Htouch d Hin. destruct (Hfirst d Hin) as [Ho Ha].
      destruct (Htouch d Hin) as [_ Ht]. repeat split; assumption.
    + intros Hall d Hin. destruct (Hall d Hin) as (Ho & _ & Ht). split; assumption.
  - split; [discriminate |]. intros Hall.
    assert (Hnone : find_named "ads7846" nodes = Ok None).
    { apply find_named_none. eapply Forall_impl; [exact Hall |].
      intros d (Ho & Ha & _). split; assumption. }
    congruence.
Qed.

(** X8. [find_touch_device] raises exactly when the first loop reaches a
    node that cannot be opened before it has found an ADS7846 device, also
    when a later node would have matched; the exception is [OSError].
    The second loop never raises, since it only runs after every node was
    opened once. *)
Theorem find_touch_device_raises (nodes : list input_node) (e : exn) :
  find_touch_device nodes = Raise e <->
  e = OSError /\
  exists pre d post, nodes = pre ++ d :: post /\
                     Forall (passed_over "ads7846") pre /\
                     node_opens d = false.
Proof.
  unfold find_touch_device.
  destruct (find_named "ads7846" nodes) as [[d1 |] | e1] eqn:Hfirst.
  - rewrite <- find_named_raises, Hfirst. split; discriminate.
  - rewrite <- (find_named_raises "ads7846"), Hfirst. split; [| discriminate].
    intros Hsecond. exfalso.
    apply find_named_none in Hfirst. apply find_named_raises in Hsecond.
    destruct Hsecond as (_ & pre & d & post & -> & _ & Hclosed).
    apply Forall_app in Hfirst as [_ Hrest].
    inversion Hrest as [| ? ? [Hopen _] _]. congruence.
  - rewrite <- find_named_raises, Hfirst. reflexivity.
Qed.

(** A touchpad listed before the ADS7846 controller, whose name is in
    upper case: the controller is found. *)
Example find_touch_device_example :
  let pad := {| node_path := "/dev/input/event0"; node_opens := true;
                node_name := Some "Generic Touchpad"%string |} in
  let panel := {| node_path := "/dev/input/event1"; node_opens := true;
                  node_name := Some "ADS7846 Touchscreen"%string |} in
  find_touch_device [pad; panel] = Ok (Some panel) /\
  find_touch_device [pad] = Ok (Some pad) /\
  find_touch_device [] = Ok None.
Proof. repeat split; reflexivity. Qed.

(** ** More on the bouncing sprite *)

Section OrderMore.

Lemma flt_fle_trans a b c : flt a b = true -> fle b c = true -> flt a c = true.
Proof.
  destruct a as [p | [] |], b as [q | [] |], c as [r | [] |]; cbn;
    intros H1 H2; try discriminate; try reflexivity.
  apply negb_true_iff in H1. apply Qle_bool_false in H1. apply Qle_bool_iff in H2.
  apply negb_true_iff. apply Qle_bool_false. lra.
Qed.

Lemma fle_flt_trans a b c : fle a b = true -> flt b c = true -> flt a c = true.
Proof.
  destruct a as [p | [] |], b as [q | [] |], c as [r | [] |]; cbn;
    intros H1 H2; try discriminate; try reflexivity.
  apply negb_true_iff in H2. apply Qle_bool_false in H2. apply Qle_bool_iff in H1.
  apply negb_true_iff. apply Qle_bool_false. lra.
Qed.

Lemma fabs_fabs a : fabs (fabs a) = fabs a.
Proof.
  destruct a as [[n d] | s |]; cbn; try reflexivity.
  unfold Qabs. rewrite Z.abs_idemp. reflexivity.
Qed.

Lemma fabs_fneg a : fabs (fneg a) = fabs a.
Proof.
  destruct a as [[n d] | s |]; cbn; try reflexivity.
  rewrite Z.abs_opp. reflexivity.
Qed.

End OrderMore.

Section AxisMore.

Variables lo hi ext : Z.

(** The speed along the axis stays. *)
Lemma axis_speed x v : fabs (snd (Text3D.bounce_axis lo hi ext x v)) = fabs v.
Proof.
  unfold Text3D.bounce_axis.
  destruct (flt (fadd x v) (of_Z lo));
    match goal with
    | |- context [if ?b then _ else _] => destruct b
    end; cbn [snd]; rewrite ?fabs_fneg, ?fabs_fabs; reflexivity.
Qed.

(** No test fires when the moved position lies between the bounds. *)
Lemma axis_free x v :
  fle (of_Z lo) (fadd x v) = true ->
  fle (fadd (fadd x v) (of_Z ext)) (of_Z hi) = true ->
  Text3D.bounce_axis lo hi ext x v = (fadd x v, v).
Proof.
  intros Hl Hr. unfold Text3D.bounce_axis.
  rewrite (fle_not_flt _ _ Hl). unfold fgt. rewrite (fle_not_flt _ _ Hr). reflexivity.
Qed.

Hypothesis lo_nonneg : 0 <= lo.
Hypothesis lo_hi : lo <= hi.
Hypothesis hi_small : hi < 2 ^ 53 - 1.

Lemma axis_more_ints :
  of_Z lo = Fin (inject_Z lo) /\ of_Z hi = Fin (inject_Z hi) /\
  of_Z (hi + 1) = Fin (inject_Z (hi + 1)) /\ of_Z (lo - 1) = Fin (inject_Z (lo - 1)).
Proof.
  assert (H53 : 1 < 2 ^ 53) by reflexivity.
  repeat split; apply of_Z_small; lia.
Qed.

(** A text wider than the space between the bounds is put against the
    upper bound by every update that moves it to a number. *)
Lemma axis_pinned x v :
  hi - lo < ext ->
  is_nan (fadd x v) = false ->
  Text3D.bounce_axis lo hi ext x v = (of_Z (hi - ext), fneg (fabs v)) /\
  flt (of_Z (hi - ext)) (of_Z lo) = true.
Proof.
  intros Hwide Hmove.
  destruct axis_more_ints as (Elo & Ehi & Ehi1 & Elo1).
  assert (Hext : fle (Fin (inject_Z (hi - lo + 1))) (of_Z ext) = true).
  { assert (H53 : 1 < 2 ^ 53) by reflexivity.
    rewrite <- (of_Z_small (hi - lo + 1)) by lia.
    apply fl_mono. rewrite <- Zle_Qle. lia. }
  assert (Hhigh : forall x2, is_nan x2 = false -> fle (of_Z lo) x2 = true ->
            fgt (fadd x2 (of_Z ext)) (of_Z hi) = true).
  { intros x2 Hn H2. unfold fgt. rewrite Elo in H2. rewrite Ehi.
    destruct (of_Z ext) as [qe | [] |]; cbn in Hext; try discriminate;
      destruct x2 as [q | [] |]; cbn in H2; try discriminate; try reflexivity.
    cbn [fadd]. apply Qle_bool_iff in Hext, H2.
    apply (flt_fle_trans _ (Fin (inject_Z (hi + 1)))).
    - apply flt_Fin. rewrite <- Zlt_Qlt. lia.
    - rewrite <- Ehi1. apply fl_mono.
      unfold Z.sub in Hext.
      rewrite !inject_Z_plus, inject_Z_opp in Hext. rewrite inject_Z_plus.
      generalize dependent (inject_Z hi). generalize dependent (inject_Z lo).
      intros; lra. }
  split.
  - unfold Text3D.bounce_axis. destruct (flt (fadd x v) (of_Z lo)) eqn:Hl.
    + rewrite Hhigh; [rewrite fabs_fabs; reflexivity | apply fl_not_nan |].
      apply fle_refl, fl_not_nan.
    + rewrite Hhigh; [reflexivity | exact Hmove |].
      apply not_flt_fle; [exact Hmove | apply fl_not_nan | exact Hl].
  - apply (fle_flt_trans _ (Fin (inject_Z (lo - 1)))).
    + rewrite <- Elo1. apply fl_mono. rewrite <- Zle_Qle. lia.
    + rewrite Elo. apply flt_Fin. rewrite <- Zlt_Qlt. lia.
Qed.

Hypothesis ext_nonneg : 0 <= ext.
Hypothesis ext_fits : lo + ext <= hi.

Lemma axis_ext_ints :
  of_Z ext = Fin (inject_Z ext) /\ of_Z (hi - ext) = Fin (inject_Z (hi - ext)).
Proof.
  assert (H53 : 1 < 2 ^ 53) by reflexivity.
  split; apply of_Z_small; lia.
Qed.

(** A sprite moved below the lower bound is put on it, turned upwards. *)
Lemma axis_reflect_low x v :
  flt (fadd x v) (of_Z lo) = true ->
  Text3D.bounce_axis lo hi ext x v = (of_Z lo, fabs v).
Proof.
  intros Hl. unfold Text3D.bounce_axis. rewrite Hl.
  destruct axis_more_ints as (Elo & Ehi & _). destruct axis_ext_ints as (Eext & _).
  assert (Hr : fgt (fadd (of_Z lo) (of_Z ext)) (of_Z hi) = false).
  { unfold fgt. apply fle_not_flt. rewrite Elo, Eext. cbn [fadd]. apply fl_mono.
    rewrite <- inject_Z_plus, <- Zle_Qle. exact ext_fits. }
  rewrite Hr. reflexivity.
Qed.

(** One moved above the upper bound is put against it, turned downwards. *)
Lemma axis_reflect_high x v :
  fgt (fadd (fadd x v) (of_Z ext)) (of_Z hi) = true ->
  Text3D.bounce_axis lo hi ext x v = (of_Z (hi - ext), fneg (fabs v)).
Proof.
  intros Hr. unfold Text3D.bounce_axis.
  destruct axis_more_ints as (Elo & Ehi & _). destruct axis_ext_ints as (Eext & _).
  destruct (flt (fadd x v) (of_Z lo)) eqn:Hl; [exfalso | rewrite Hr; reflexivity].
  unfold fgt in Hr. rewrite Elo in Hl. rewrite Eext in Hr.
  destruct (fadd x v) as [q | [] |]; cbn in Hl; try discriminate.
  - cbn [fadd] in Hr. apply negb_true_iff, Qle_bool_false in Hl.
    assert (Hle : fle (fl (q + inject_Z ext)) (of_Z hi) = true).
    { apply fl_mono. apply Qle_trans with (inject_Z lo + inject_Z ext)%Q.
      - apply Qplus_le_l. apply Qlt_le_weak. exact Hl.
      - rewrite <- inject_Z_plus, <- Zle_Qle. exact ext_fits. }
    apply fle_not_flt in Hle. congruence.
  - rewrite Ehi in Hr. cbn in Hr. discriminate.
Qed.

(** The tests of the script fail when the exact sums lie between the
    bounds. *)
Lemma axis_exact_free (qx qv : Q) :
  (inject_Z lo <= qx + qv)%Q ->
  (qx + qv + inject_Z ext <= inject_Z hi)%Q ->
  fle (of_Z lo) (fadd (Fin qx) (Fin qv)) = true /\
  fle (fadd (fadd (Fin qx) (Fin qv)) (of_Z ext)) (of_Z hi) = true.
Proof.
  intros H1 H2. cbn [fadd].
  destruct axis_more_ints as (Elo & Ehi & _). destruct axis_ext_ints as (Eext & Ehe).
  assert (Hlo : fle (of_Z lo) (fl (qx + qv)) = true) by (apply fl_mono; exact H1).
  assert (Hhi : fle (fl (qx + qv)) (of_Z (hi - ext)) = true).
  { apply fl_mono. unfold Z.sub. rewrite inject_Z_plus, inject_Z_opp.
    generalize dependent (inject_Z hi). generalize dependent (inject_Z ext).
    intros; lra. }
  split; [exact Hlo |].
  rewrite Elo in Hlo. rewrite Ehe in Hhi.
  destruct (fle_between _ _ _ Hlo Hhi) as (r & -> & _ & Hr).
  rewrite Eext. cbn [fadd]. apply fl_mono.
  unfold Z.sub in Hr. rewrite inject_Z_plus, inject_Z_opp in Hr.
  generalize dependent (inject_Z hi). generalize dependent (inject_Z ext).
  intros; lra.
Qed.

End AxisMore.

(** X9. The position update never changes the speed of the sprite, only
    the signs of the velocity: [abs(vx)] and [abs(vy)] are the same before
    and after, whatever the position and the text size. *)
Theorem bounce_keeps_speed (tw th : Z) (x y vx vy : pyfloat) :
  let '(_, _, vx', vy') := Text3D.bounce tw th (x, y, vx, vy) in
  fabs vx' = fabs vx /\ fabs vy' = fabs vy.
Proof.
  rewrite bounce_by_axis. split; apply axis_speed.
Qed.

(** X10. Free flight: when the moved sprite lies within the margins on
    both axes, the update is the plain translation by the velocity, the
    sums rounded as every float sum is, and the velocity is unchanged.  So
    it is when the tests of the script find the moved sprite inside, and
    so it is for any finite position and velocity whose exact sums lie
    inside, for a text of extents at least zero. *)
Theorem bounce_free_flight (tw th : Z) (x y vx vy : pyfloat) :
  let margin := 12 + Text3D.EXTRUDE in
  (fle (of_Z margin) (fadd x vx) = true ->
   fle (fadd (fadd x vx) (of_Z tw)) (of_Z (W - margin)) = true ->
   fle (of_Z margin) (fadd y vy) = true ->
   fle (fadd (fadd y vy) (of_Z th)) (of_Z (H - margin)) = true ->
   Text3D.bounce tw th (x, y, vx, vy) = (fadd x vx, fadd y vy, vx, vy)) /\
  (forall qx qy qvx qvy : Q,
     x = Fin qx -> y = Fin qy -> vx = Fin qvx -> vy = Fin qvy ->
     0 <= tw -> 0 <= th ->
     (inject_Z margin <= qx + qvx)%Q ->
     (qx + qvx + inject_Z tw <= inject_Z W - inject_Z margin)%Q ->
     (inject_Z margin <= qy + qvy)%Q ->
     (qy + qvy + inject_Z th <= inject_Z H - inject_Z margin)%Q ->
     Text3D.bounce tw th (x, y, vx, vy) = (fl (qx + qvx), fl (qy + qvy), vx, vy)).
Proof.
  intros margin. subst margin. change (12 + Text3D.EXTRUDE) with 22.
  change (W - 22) with 458. change (H - 22) with 298.
  assert (Hfree : forall x y vx vy,
            fle (of_Z 22) (fadd x vx) = true ->
            fle (fadd (fadd x vx) (of_Z tw)) (of_Z 458) = true ->
            fle (of_Z 22) (fadd y vy) = true ->
            fle (fadd (fadd y vy) (of_Z th)) (of_Z 298) = true ->
            Text3D.bounce tw th (x, y, vx, vy) = (fadd x vx, fadd y vy, vx, vy)).
  { intros x0 y0 vx0 vy0 Hl Hr Ht Hb. rewrite bounce_by_axis.
    rewrite (axis_free 22 458 tw x0 vx0 Hl Hr), (axis_free 22 298 th y0 vy0 Ht Hb).
    reflexivity. }
  split; [apply Hfree |].
  intros qx qy qvx qvy -> -> -> -> Htw Hth Hl Hr Ht Hb.
  assert (H53 : 1000 < 2 ^ 53) by reflexivity.
  change (inject_Z W - inject_Z 22)%Q with (inject_Z 480 - inject_Z 22)%Q in Hr.
  change (inject_Z H - inject_Z 22)%Q with (inject_Z 320 - inject_Z 22)%Q in Hb.
  assert (Hr' : (qx + qvx + inject_Z tw <= inject_Z 458)%Q).
  { change (inject_Z 458) with 458%Q. change (inject_Z 480) with 480%Q in Hr.
    change (inject_Z 22) with 22%Q in Hr. generalize dependent (inject_Z tw).
    intros; lra. }
  assert (Hb' : (qy + qvy + inject_Z th <= inject_Z 298)%Q).
  { change (inject_Z 298) with 298%Q. change (inject_Z 320) with 320%Q in Hb.
    change (inject_Z 22) with 22%Q in Hb. generalize dependent (inject_Z th).
    intros; lra. }
  assert (Htw' : 22 + tw <= 458).
  { rewrite Zle_Qle, inject_Z_plus.
    apply Qle_trans with (qx + qvx + inject_Z tw)%Q; [| exact Hr'].
    apply Qplus_le_l. exact Hl. }
  assert (Hth' : 22 + th <= 298).
  { rewrite Zle_Qle, inject_Z_plus.
    apply Qle_trans with (qy + qvy + inject_Z th)%Q; [| exact Hb'].
    apply Qplus_le_l. exact Ht. }
  destruct (axis_exact_free 22 458 tw ltac:(lia) ltac:(lia) ltac:(lia) Htw Htw' qx qvx Hl Hr')
    as [X1 X2].
  destruct (axis_exact_free 22 298 th ltac:(lia) ltac:(lia) ltac:(lia) Hth Hth' qy qvy Ht Hb')
    as [Y1 Y2].
  apply (Hfree (Fin qx) (Fin qy) (Fin qvx) (Fin qvy)); assumption.
Qed.

(** The first update from the start position, for a text of 300 by 70. *)
Lemma bounce_free_flight_witness :
  Text3D.bounce 300 70 (fl 40, fl 80, fl (26 # 10), fl (19 # 10))
  = (fadd (fl 40) (fl (26 # 10)), fadd (fl 80) (fl (19 # 10)),
     fl (26 # 10), fl (19 # 10)).
Proof.
  apply (proj1 (bounce_free_flight 300 70 (fl 40) (fl 80) (fl (26 # 10)) (fl (19 # 10))));
    vm_compute; reflexivity.
Defined.

(** X11. Reflection at the edges, for a text that fits between the margins:
    a sprite that the script finds moved past the left (top) margin is put
    on it with its velocity turned to the right (down); one it finds moved
    past the right (bottom) margin is put against it with its velocity
    turned to the left (up).  The tests are those of the script, on the
    rounded sums. *)
Theorem bounce_reflects (tw th : Z) (x y vx vy : pyfloat) :
  0 <= tw <= W - 2 * (12 + Text3D.EXTRUDE) ->
  0 <= th <= H - 2 * (12 + Text3D.EXTRUDE) ->
  let margin := 12 + Text3D.EXTRUDE in
  let '(x', y', vx', vy') := Text3D.bounce tw th (x, y, vx, vy) in
  (flt (fadd x vx) (of_Z margin) = true ->
     x' = Fin (inject_Z margin) /\ vx' = fabs vx) /\
  (fgt (fadd (fadd x vx) (of_Z tw)) (of_Z (W - margin)) = true ->
     x' = Fin (inject_Z (W - margin - tw)) /\ vx' = fneg (fabs vx)) /\
  (flt (fadd y vy) (of_Z margin) = true ->
     y' = Fin (inject_Z margin) /\ vy' = fabs vy) /\
  (fgt (fadd (fadd y vy) (of_Z th)) (of_Z (H - margin)) = true ->
     y' = Fin (inject_Z (H - margin - th)) /\ vy' = fneg (fabs vy)).
Proof.
  intros [Htw0 Htw] [Hth0 Hth] margin. subst margin.
  unfold W, H, Text3D.EXTRUDE in Htw, Hth.
  change (12 + Text3D.EXTRUDE) with 22.
  change (W - 22) with 458. change (H - 22) with 298.
  assert (H53 : 1000 < 2 ^ 53) by reflexivity.
  rewrite bounce_by_axis.
  pose proof (axis_reflect_low 22 458 tw ltac:(lia) ltac:(lia) ltac:(lia) Htw0 ltac:(lia) x vx) as XL.
  pose proof (axis_reflect_high 22 458 tw ltac:(lia) ltac:(lia) ltac:(lia) Htw0 ltac:(lia) x vx) as XH.
  pose proof (axis_reflect_low 22 298 th ltac:(lia) ltac:(lia) ltac:(lia) Hth0 ltac:(lia) y vy) as YL.
  pose proof (axis_reflect_high 22 298 th ltac:(lia) ltac:(lia) ltac:(lia) Hth0 ltac:(lia) y vy) as YH.
  assert (E22 : of_Z 22 = Fin (inject_Z 22)) by (apply of_Z_small; lia).
  assert (Ex : of_Z (458 - tw) = Fin (inject_Z (458 - tw))) by (apply of_Z_small; lia).
  assert (Ey : of_Z (298 - th) = Fin (inject_Z (298 - th))) by (apply of_Z_small; lia).
  split; [| split; [| split]]; intros Htest.
  - rewrite (XL Htest). split; [exact E22 | reflexivity].
  - rewrite (XH Htest). split; [exact Ex | reflexivity].
  - rewrite (YL Htest). split; [exact E22 | reflexivity].
  - rewrite (YH Htest). split; [exact Ey | reflexivity].
Qed.

(** A sprite one pixel right of the left margin, flying left. *)
Lemma bounce_reflects_witness :
  let '(x', _, vx', _) :=
    Text3D.bounce 300 70 (fl 23, fl 80, fl (-26 # 10), fl (19 # 10)) in
  x' = Fin 22 /\ vx' = fl (26 # 10).
Proof.
  pose proof (bounce_reflects 300 70 (fl 23) (fl 80) (fl (-26 # 10)) (fl (19 # 10))) as Hb.
  destruct (Text3D.bounce 300 70 (fl 23, fl 80, fl (-26 # 10), fl (19 # 10)))
    as [[[x' y'] vx'] vy'].
  destruct Hb as (Hleft & _); [vm_compute; split; discriminate .. |].
  destruct Hleft as [Hx Hv]; [vm_compute; reflexivity |].
  split; [exact Hx | rewrite Hv; vm_compute; reflexivity].
Defined.

(** X12. A text wider than the space between the margins is pinned: after
    every update that moves it to a number its right edge is on the right
    margin, so that its left edge is left of the left margin, and its
    horizontal velocity points left; the right-hand test, coming last,
    always wins. *)
Theorem bounce_wide_text_pinned (tw th : Z) (x y vx vy : pyfloat) :
  W - 2 * (12 + Text3D.EXTRUDE) < tw ->
  is_nan (fadd x vx) = false ->
  let margin := 12 + Text3D.EXTRUDE in
  let '(x', _, vx', _) := Text3D.bounce tw th (x, y, vx, vy) in
  x' = of_Z (W - margin - tw) /\
  (tw < 2 ^ 53 ->
   x' = Fin (inject_Z (W - margin - tw)) /\
   (fval x' + inject_Z tw == inject_Z W - inject_Z margin)%Q) /\
  flt x' (of_Z margin) = true /\
  vx' = fneg (fabs vx).
Proof.
  intros Hwide Hmove margin. subst margin.
  unfold W, Text3D.EXTRUDE in Hwide.
  change (12 + Text3D.EXTRUDE) with 22. change (W - 22) with 458.
  assert (H53 : 1000 < 2 ^ 53) by reflexivity.
  rewrite bounce_by_axis.
  destruct (axis_pinned 22 458 tw ltac:(lia) ltac:(lia) ltac:(lia) x vx ltac:(lia) Hmove)
    as [-> Hleft].
  cbn [fst snd]. split; [reflexivity | split; [| split; [exact Hleft | reflexivity]]].
  intros Hsmall.
  assert (Ex : of_Z (458 - tw) = Fin (inject_Z (458 - tw))) by (apply of_Z_small; lia).
  rewrite Ex. split; [reflexivity |]. cbn [fval].
  unfold Z.sub. rewrite inject_Z_plus, inject_Z_opp.
  change (inject_Z 458) with 458%Q. change (inject_Z W) with 480%Q.
  change (inject_Z 22) with 22%Q. ring.
Qed.

(** A text of 450 pixels on the 480 pixel display. *)
Lemma bounce_wide_text_pinned_witness :
  let '(x', _, _, _) :=
    Text3D.bounce 450 70 (fl 40, fl 80, fl (26 # 10), fl (19 # 10)) in
  x' = Fin 8.
Proof.
  pose proof (bounce_wide_text_pinned 450 70 (fl 40) (fl 80) (fl (26 # 10)) (fl (19 # 10)))
    as Hb.
  destruct (Text3D.bounce 450 70 (fl 40, fl 80, fl (26 # 10), fl (19 # 10)))
    as [[[x' y'] vx'] vy'].
  destruct Hb as (_ & Hx & _); [vm_compute; reflexivity .. |].
  destruct Hx as [Hx _]; [vm_compute; reflexivity |].
  exact Hx.
Defined.
(** ** The particles of the floating host names *)

Section Remainder.

Lemma fle_left_not_nan a b : fle a b = true -> is_nan a = false.
Proof. destruct a as [p | [] |]; cbn; intros Hle; auto. Qed.

Lemma fle_right_not_nan a b : fle a b = true -> is_nan b = false.
Proof. destruct a as [p | [] |], b as [q | [] |]; cbn; intros Hle; auto. Qed.

(** Truncation toward zero moves a rational by less than one. *)
Lemma Qtrunc_near q :
  (- 1 < q - inject_Z (Qtrunc q))%Q /\ (q - inject_Z (Qtrunc q) < 1)%Q.
Proof.
  destruct q as [n d]. unfold Qtrunc. cbn [Qnum Qden].
  pose proof (Z.quot_rem' n (Zpos d)) as Hqr.
  pose proof (Z.rem_bound_abs n (Zpos d) ltac:(lia)) as Hr.
  unfold Qlt, Qminus, Qplus, Qopp, inject_Z. cbn [Qnum Qden].
  split; nia.
Qed.

(** [a % 360] is a NaN or lies within [[0, 360]]. *)
Lemma pymod_reduced a : reduced_angle (pymod a 360).
Proof.
  destruct a as [p | s |]; [| left; reflexivity ..]. right.
  assert (E0 : of_Z 0 = Fin 0) by reflexivity.
  assert (E360 : of_Z 360 = Fin 360) by (vm_compute; reflexivity).
  unfold pymod.
  set (r := (p - 360 * inject_Z (Qtrunc (p / 360)))%Q).
  assert (Hr : (- 360 < r)%Q /\ (r < 360)%Q).
  { destruct (Qtrunc_near (p / 360)) as [H1 H2]. subst r.
    generalize dependent (inject_Z (Qtrunc (p / 360))). intros t H1 H2.
    assert (Hp : (p == 360 * (p / 360))%Q) by (field).
    generalize dependent (p / 360)%Q. intros u H1 H2 Hp. rewrite Hp. split; lra. }
  destruct Hr as [Hr1 Hr2]. clearbody r.
  destruct (Qeq_bool r 0) eqn:Hz.
  - rewrite E0, E360. split; reflexivity.
  - destruct (Qle_bool 0 r) eqn:Hs.
    + apply Qle_bool_iff in Hs. rewrite E0, E360. split; apply fle_Fin.
      * rewrite Qred_correct. exact Hs.
      * rewrite Qred_correct. apply Qlt_le_weak. exact Hr2.
    + apply Qle_bool_false in Hs. split.
      * apply fl_mono. change (inject_Z 0) with 0%Q. lra.
      * apply fl_mono. change (inject_Z 360) with 360%Q. lra.
Qed.

(** The upper end is reached: a tiny negative angle is sent to [360.0]. *)
Lemma pymod_reaches_modulus : pymod (fl (-1 # 1000000000000000000)) 360 = Fin 360.
Proof. vm_compute. reflexivity. Qed.

End Remainder.
Section Particles.

Variable name : string.

Lemma iter_rand_drawn_env k w : env (Nat.iter k rand_drawn w) = env w.
Proof. induction k as [| k IH]; [reflexivity | exact IH]. Qed.

Lemma iter_rand_drawn_fb k w :
  fb_data (Nat.iter k rand_drawn w) = fb_data w /\
  fb_opens (Nat.iter k rand_drawn w) = fb_opens w.
Proof. induction k as [| k IH]; [split; reflexivity | exact IH]. Qed.

Lemma sample_oracle_in_bounds broken clk : rng_in_bounds (sample_oracle broken clk).
Proof.
  split; intros n a b Hab; simpl.
  - split; [apply fle_refl; exact (fle_left_not_nan _ _ Hab) | exact Hab].
  - lia.
Qed.

(** A new particle, when the generator keeps to its bounds. *)
Lemma new_particle_fresh w :
  rng_in_bounds (env w) ->
  exists p, FloatHostname.new_particle name w = (Ok p, Nat.iter 7 rand_drawn w) /\
            freshly_spawned name p.
Proof.
  intros [Hu Hi]. eexists. split; [reflexivity |].
  unfold freshly_spawned.
  cbn [FloatHostname.text FloatHostname.x FloatHostname.y FloatHostname.vy
       FloatHostname.angle FloatHostname.omega FloatHostname.size
       FloatHostname.hue_offset env rand_drawn rand_draws].
  split; [reflexivity |].
  repeat match goal with
  | |- _ /\ _ => split
  | |- fle _ (rand_uniform _ _ ?a ?b) = true => apply Hu; vm_compute; reflexivity
  | |- fle (rand_uniform _ _ ?a ?b) _ = true => apply Hu; vm_compute; reflexivity
  | |- _ <= rand_int _ _ _ _ => apply Hi; vm_compute; discriminate
  | |- rand_int _ _ _ _ <= _ => apply Hi; vm_compute; discriminate
  end.
Qed.

Lemma spawn_fresh n : forall w,
  rng_in_bounds (env w) ->
  exists ps, FloatHostname.spawn name n w = (Ok ps, Nat.iter (7 * n) rand_drawn w) /\
             length ps = n /\ Forall (freshly_spawned name) ps.
Proof.
  induction n as [| n IH]; intros w Hrng.
  - exists []. repeat split. constructor.
  - destruct (new_particle_fresh w Hrng) as (p & Hp & Hfresh).
    destruct (IH (Nat.iter 7 rand_drawn w)) as (ps & Hps & Hlen & Hall).
    { rewrite iter_rand_drawn_env. exact Hrng. }
    exists (p :: ps). split; [| split].
    + cbn [FloatHostname.spawn]. unfold bind at 1. rewrite Hp.
      unfold bind at 1. rewrite Hps. unfold ret. f_equal.
      replace (7 * S n)%nat with (7 * n + 7)%nat by lia.
      rewrite Nat.iter_add. reflexivity.
    + simpl. rewrite Hlen. reflexivity.
    + constructor; assumption.
Qed.

(** The update of one particle. *)
Lemma update_particle_step dt p w :
  rng_in_bounds (env w) ->
  exists p' k,
    FloatHostname.update_particle name dt p w = (Ok p', Nat.iter k rand_drawn w) /\
    particle_step name dt p p'.
Proof.
  intros Hrng. unfold FloatHostname.update_particle, particle_step.
  cbv zeta.
  destruct (flt (fsub (FloatHostname.y p) (fmul (FloatHostname.vy p) dt)) (of_Z (-260)))
    eqn:Hexit.
  - destruct (new_particle_fresh w Hrng) as (p' & Hp & Hfresh).
    exists p', 7%nat. split; assumption.
  - eexists _, 0%nat. split; [reflexivity |].
    cbn [FloatHostname.text FloatHostname.x FloatHostname.y FloatHostname.vy
         FloatHostname.angle FloatHostname.omega FloatHostname.size
         FloatHostname.hue_offset].
    repeat split. apply pymod_reduced.
Qed.

Lemma update_particles_steps dt ps : forall w,
  rng_in_bounds (env w) ->
  exists ps' k,
    FloatHostname.update_particles name dt ps w
    = (Ok ps', Nat.iter k rand_drawn w) /\
    Forall2 (particle_step name dt) ps ps'.
Proof.
  induction ps as [| p ps IH]; intros w Hrng.
  - exists [], 0%nat. split; [reflexivity | constructor].
  - destruct (update_particle_step dt p w Hrng) as (p' & k1 & Hp & Hstep).
    destruct (IH (Nat.iter k1 rand_drawn w)) as (ps' & k2 & Hps & Hsteps).
    { rewrite iter_rand_drawn_env. exact Hrng. }
    exists (p' :: ps'), (k2 + k1)%nat. split.
    + cbn [FloatHostname.update_particles]. unfold bind at 1. rewrite Hp.
      unfold bind at 1. rewrite Hps. unfold ret.
      rewrite Nat.iter_add. reflexivity.
    + constructor; assumption.
Qed.

(** After a step the exit test fails of the particle. *)
Lemma particle_step_below dt p p' :
  particle_step name dt p p' ->
  flt (FloatHostname.y p') (of_Z (-260)) = false.
Proof.
  unfold particle_step. cbv zeta.
  destruct (flt (fsub (FloatHostname.y p) (fmul (FloatHostname.vy p) dt)) (of_Z (-260)))
    eqn:Hexit.
  - intros (_ & _ & _ & Hy & _). apply fle_not_flt.
    apply fle_trans with (of_Z H); [vm_compute; reflexivity | exact Hy].
  - intros (_ & _ & -> & _). exact Hexit.
Qed.

End Particles.

(** X14. With a random generator that keeps to the bounds it is given,
    [[new_particle() for _ in range(n)]] yields exactly [n] particles, each
    carrying the host name, placed below the bottom edge of the screen
    ([H <= y <= H + 200], [0 <= x <= W]) and rising with a speed between
    [SPEED_MIN] and [SPEED_MAX]; it draws seven random numbers per
    particle and touches nothing else. *)
Theorem spawn_below_the_screen (name : string) (n : nat) (w : world) :
  rng_in_bounds (env w) ->
  exists ps,
    FloatHostname.spawn name n w = (Ok ps, Nat.iter (7 * n) rand_drawn w) /\
    length ps = n /\
    Forall (freshly_spawned name) ps.
Proof. apply spawn_fresh. Qed.

Lemma spawn_below_the_screen_witness :
  let w := sample_world (sample_oracle false (seconds_from 0)) [] [] in
  exists ps,
    FloatHostname.spawn "pi" (Z.to_nat FloatHostname.NUM_PARTICLES) w
    = (Ok ps, Nat.iter 70 rand_drawn w) /\
    length ps = 10%nat /\
    Forall (freshly_spawned "pi") ps.
Proof.
  intro w.
  exact (spawn_below_the_screen "pi" 10 w (sample_oracle_in_bounds false _)).
Defined.

(** X15. The particle update of [render_frame] never fails and keeps the
    number of particles.  Particle by particle: one that the script finds
    risen above the exit bound (its test [p.y < -260] on the new
    [y = y - vy * dt]) is replaced by a newly spawned one below the
    screen; any other keeps its text, column, speed, spin, size and hue,
    is moved up by [vy * dt], and has its angle reduced by [% 360] to
    [[0, 360]], the upper end included (or to a NaN, which the remainder
    of an infinity is).  So the exit test fails of every particle
    afterwards, and every [y] that is a number is at least [-260]. *)
Theorem particle_update_respawns (name : string) (dt : pyfloat)
    (ps : list FloatHostname.Particle) (w : world) :
  rng_in_bounds (env w) ->
  exists ps' k,
    FloatHostname.update_particles name dt ps w
    = (Ok ps', Nat.iter k rand_drawn w) /\
    Forall2 (particle_step name dt) ps ps' /\
    length ps' = length ps /\
    Forall (fun p => flt (FloatHostname.y p) (of_Z (-260)) = false /\
                     (is_nan (FloatHostname.y p) = false ->
                      fle (of_Z (-260)) (FloatHostname.y p) = true)) ps'.
Proof.
  intros Hrng.
  destruct (update_particles_steps name dt ps w Hrng) as (ps' & k & Heq & Hsteps).
  exists ps', k. split; [exact Heq |]. split; [exact Hsteps |].
  split; [symmetry; apply (Forall2_length _ _ _ Hsteps) |].
  clear Heq. induction Hsteps as [| p p' ps ps' Hstep _ IH]; constructor; [| exact IH].
  pose proof (particle_step_below name dt p p' Hstep) as Hbelow.
  split; [exact Hbelow |].
  intros Hnum. apply not_flt_fle; [exact Hnum | apply fl_not_nan | exact Hbelow].
Qed.

(** One particle about to leave at the top, one in the middle of the
    screen, over a fifteenth of a second. *)
Lemma particle_update_respawns_witness :
  let w := sample_world (sample_oracle false (seconds_from 0)) [] [] in
  let leaving := {| FloatHostname.text := "pi"; FloatHostname.x := fl 100;
                    FloatHostname.y := fl (-259); FloatHostname.vy := fl 30;
                    FloatHostname.angle := fl 350; FloatHostname.omega := fl 90;
                    FloatHostname.size := 20; FloatHostname.hue_offset := Fin 0 |} in
  let rising := {| FloatHostname.text := "pi"; FloatHostname.x := fl 200;
                   FloatHostname.y := fl 160; FloatHostname.vy := fl 30;
                   FloatHostname.angle := fl 359; FloatHostname.omega := fl 90;
                   FloatHostname.size := 20; FloatHostname.hue_offset := Fin 0 |} in
  exists ps' k,
    FloatHostname.update_particles "pi" (finv_int 15) [leaving; rising] w
    = (Ok ps', Nat.iter k rand_drawn w) /\
    length ps' = 2%nat /\
    Forall (fun p => flt (FloatHostname.y p) (of_Z (-260)) = false) ps'.
Proof.
  intros w leaving rising.
  destruct (particle_update_respawns "pi" (finv_int 15) [leaving; rising] w
              (sample_oracle_in_bounds false _))
    as (ps' & k & Heq & _ & Hlen & Hall).
  exists ps', k. split; [exact Heq | split; [exact Hlen |]].
  eapply Forall_impl; [exact Hall |]. intros p [Hp _]. exact Hp.
Defined.
(** ** The main loop of the floating host names *)

Section FloatLoop.

Variable name : string.
Variable paint : list FloatHostname.Particle -> pyfloat -> image.

Lemma env_clock_read w : env (clock_read w) = env w.
Proof. reflexivity. Qed.

Lemma fresh_in_flight p : freshly_spawned name p -> particle_in_flight p.
Proof.
  intros (_ & _ & _ & Hy1 & Hy2 & Hv1 & Hv2 & _).
  repeat split; try assumption.
  eapply fle_trans; [| exact Hy1]. vm_compute. reflexivity.
Qed.

Lemma step_in_flight dt p p' :
  fle (Fin 0) dt = true -> particle_in_flight p -> particle_step name dt p p' ->
  particle_in_flight p'.
Proof.
  intros Hdt (Hv1 & Hv2 & Hy1 & Hy2) Hstep. unfold particle_step in Hstep.
  cbv zeta in Hstep.
  destruct (flt (fsub (FloatHostname.y p) (fmul (FloatHostname.vy p) dt)) (of_Z (-260)))
    eqn:Hexit.
  - apply fresh_in_flight. exact Hstep.
  - destruct Hstep as (_ & _ & Hy & Hv & _).
    unfold particle_in_flight. rewrite Hv, Hy.
    split; [exact Hv1 | split; [exact Hv2 |]].
    assert (E12 : FloatHostname.SPEED_MIN = Fin 12) by (vm_compute; reflexivity).
    assert (E40 : FloatHostname.SPEED_MAX = Fin 40) by (vm_compute; reflexivity).
    assert (Elo : of_Z (-260) = Fin (-260)) by (vm_compute; reflexivity).
    assert (Ehi : of_Z (H + 200) = Fin 520) by (vm_compute; reflexivity).
    rewrite E12 in Hv1. rewrite E40 in Hv2. rewrite Elo in Hy1. rewrite Ehi in Hy2.
    destruct (fle_between _ _ _ Hv1 Hv2) as (qv & Ev & Hqv1 & Hqv2).
    destruct (fle_between _ _ _ Hy1 Hy2) as (qy & Ey & Hqy1 & Hqy2).
    rewrite Ev, Ey in *.
    assert (Hup : fle (fsub (Fin qy) (fmul (Fin qv) dt)) (of_Z (H + 200)) = true
                  \/ fsub (Fin qy) (fmul (Fin qv) dt) = Inf true).
    { destruct dt as [qd | [] |]; cbn in Hdt; try discriminate.
      - apply Qle_bool_iff in Hdt. cbn [fmul].
        assert (Hm : fle (Fin 0) (fl (qv * qd)) = true).
        { change (Fin 0) with (fl 0). apply fl_mono. nra. }
        destruct (fl (qv * qd)) as [m | [] |]; cbn in Hm; try discriminate.
        + left. apply Qle_bool_iff in Hm. cbn [fsub fneg fadd].
          apply fl_mono. change (inject_Z (H + 200)) with 520%Q. lra.
        + right. reflexivity.
      - right. cbn [fmul]. destruct (Qeq_bool qv 0) eqn:Hz.
        + apply Qeq_bool_iff in Hz. lra.
        + assert (Hs : Qneg_bool qv = false).
          { unfold Qneg_bool. apply negb_false_iff, Qle_bool_iff. lra. }
          rewrite Hs. reflexivity. }
    destruct Hup as [Hup | Hup]; [| rewrite Hup in Hexit; rewrite Elo in Hexit; discriminate].
    split; [| exact Hup].
    apply not_flt_fle; [| apply fl_not_nan | exact Hexit].
    exact (fle_left_not_nan _ _ Hup).
Qed.

Lemma pymax_floor c d : is_nan c = false -> fle c (FloatHostname.pymax c d) = true.
Proof.
  intros Hc. unfold FloatHostname.pymax. destruct (fgt d c) eqn:Hd.
  - apply flt_fle. exact Hd.
  - apply fle_refl. exact Hc.
Qed.

(** The activity step never fails; it keeps the particles and the
    pairing of saved frame and saver flag. *)
Lemma float_activity_ok st w :
  exists st' w',
    FloatHostname.activity_phase st w = (Ok st', w') /\
    env w' = env w /\
    FloatHostname.particles st' = FloatHostname.particles st /\
    (saved_ok (FloatHostname.saver_on st) (FloatHostname.saved st) ->
     saved_ok (FloatHostname.saver_on st') (FloatHostname.saved st')).
Proof.
  destruct (poll_with_total scan_events w) as (b & q & Hpoll).
  fold touch_event_available in Hpoll.
  unfold FloatHostname.activity_phase, bind. rewrite Hpoll.
  destruct b; [| eexists _, _; repeat split; auto].
  unfold time_monotonic at 1.
  cbn [FloatHostname.saver_on FloatHostname.saved].
  destruct (FloatHostname.saver_on st) eqn:Hon.
  - destruct (FloatHostname.saved st) as [buf |].
    + destruct (try_pass_fb_write buf (clock_read (ev_polled q w)))
        as (w' & -> & He & _).
      unfold time_monotonic, ret. eexists _, _. split; [reflexivity |].
      cbn [env clock_read]. rewrite He. repeat split.
    + unfold ret, time_monotonic. eexists _, _. split; [reflexivity |].
      repeat split.
  - unfold ret. eexists _, _. split; [reflexivity |].
    cbn [FloatHostname.saver_on FloatHostname.saved FloatHostname.particles].
    repeat split. intros Hok. exact Hok.
Qed.

Lemma float_idle_ok now st w :
  rng_in_bounds (env w) ->
  float_state_ok st ->
  ok_or_oserror float_state_ok w (FloatHostname.idle_phase name now st w).
Proof.
  intros Hrng Hok. unfold FloatHostname.idle_phase.
  destruct (negb (FloatHostname.saver_on st) &&
            fgt (fsub now (FloatHostname.last_activity st))
              (of_Z FloatHostname.IDLE_SEC)).
  - unfold bind at 1. unfold fb_read.
    destruct (fb_faulty (env w) (fb_opens w)); [reflexivity |].
    destruct (spawn_fresh name (Z.to_nat FloatHostname.NUM_PARTICLES)
                (fb_accessed (fb_data w) w) Hrng) as (ps & Hps & Hlen & Hall).
    unfold bind. rewrite Hps. unfold ret, ok_or_oserror.
    split; [| rewrite iter_rand_drawn_env; reflexivity].
    split; [| split].
    + split; [reflexivity | apply frame_of_len].
    + cbn [FloatHostname.particles]. unfold len. rewrite Hlen. reflexivity.
    + cbn [FloatHostname.particles].
      eapply Forall_impl; [exact Hall | apply fresh_in_flight].
  - split; [exact Hok | reflexivity].
Qed.

Lemma float_render_ok now st w :
  rng_in_bounds (env w) ->
  float_state_ok st ->
  ok_or_oserror float_state_ok w (FloatHostname.render_phase name paint now st w).
Proof.
  intros Hrng (Hsaved & Hcount & Hflight). unfold FloatHostname.render_phase.
  destruct (FloatHostname.saver_on st) eqn:Hon;
    [| split; [repeat split; congruence | reflexivity]].
  destruct (fge now (FloatHostname.next_frame st));
    [| split; [repeat split; congruence | reflexivity]].
  set (dt := FloatHostname.pymax (fl (1 # 1000)) (fsub now (FloatHostname.last_t st))).
  assert (Hdt : fle (Fin 0) dt = true).
  { pose proof (pymax_floor (fl (1 # 1000)) (fsub now (FloatHostname.last_t st))
                  (fl_not_nan _)) as Hfloor.
    unfold dt. eapply fle_trans; [| exact Hfloor]. vm_compute. reflexivity. }
  destruct (update_particles_steps name dt (FloatHostname.particles st) w Hrng)
    as (ps' & k & Hupd & Hsteps).
  unfold bind at 1. unfold bind at 1. unfold FloatHostname.render_frame.
  unfold bind at 1. rewrite Hupd. unfold bind at 1. unfold time_time, ret.
  cbn [snd fst]. unfold bind at 1.
  rewrite fb_write_full by apply rgb888_to_rgb565_bytes_len.
  unfold fb_store.
  destruct (fb_faulty _ _); [reflexivity |].
  unfold sleep, bind, ret, ok_or_oserror.
  split; [| cbn [env fb_accessed wall_read]; apply iter_rand_drawn_env].
  split; [| split].
  + exact Hsaved.
  + cbn [FloatHostname.particles]. unfold len in *.
    rewrite <- (Forall2_length _ _ _ Hsteps). exact Hcount.
  + cbn [FloatHostname.particles]. clear Hupd Hcount.
    induction Hsteps as [| p p' ps ps' Hstep _ IH]; [constructor |].
    inversion Hflight as [| ? ? Hp Hps]; subst.
    constructor; [apply (step_in_flight dt p p' Hdt Hp Hstep) | apply IH; exact Hps].
Qed.

Lemma float_tick_ok st w :
  rng_in_bounds (env w) ->
  float_state_ok st ->
  ok_or_oserror float_state_ok w (FloatHostname.tick name paint st w).
Proof.
  intros Hrng (Hsaved & Hcount & Hflight).
  destruct (float_activity_ok st w) as (st1 & w1 & Hact & Henv1 & Hps & Hsv).
  unfold FloatHostname.tick. unfold bind at 1. rewrite Hact.
  unfold bind at 1. unfold time_monotonic. unfold bind at 1.
  set (now := clock (env w1) (clock_reads w1)).
  assert (Hok1 : float_state_ok st1)
    by (split; [apply Hsv; exact Hsaved | rewrite Hps; split; assumption]).
  assert (Hrng1 : rng_in_bounds (env (clock_read w1)))
    by (cbn [env clock_read]; rewrite Henv1; exact Hrng).
  pose proof (float_idle_ok now st1 (clock_read w1) Hrng1 Hok1) as Hidle.
  destruct (FloatHostname.idle_phase name now st1 (clock_read w1))
    as [[st2 | e] w2]; [| exact Hidle].
  destruct Hidle as [Hok2 Henv2]. cbn [env clock_read] in Henv2.
  assert (Hrng2 : rng_in_bounds (env w2))
    by (rewrite Henv2, Henv1; exact Hrng).
  pose proof (float_render_ok now st2 w2 Hrng2 Hok2) as Hrender.
  destruct (FloatHostname.render_phase name paint now st2 w2)
    as [[st3 | e] w3]; [| exact Hrender].
  destruct Hrender as [Hok3 Henv3].
  split; [exact Hok3 | congruence].
Qed.

Lemma float_run_ok n : forall st w,
  rng_in_bounds (env w) ->
  float_state_ok st ->
  ok_or_oserror float_state_ok w (FloatHostname.run name paint n st w).
Proof.
  induction n as [| n IH]; intros st w Hrng Hok.
  - split; [exact Hok | reflexivity].
  - cbn [FloatHostname.run]. unfold bind at 1.
    pose proof (float_tick_ok st w Hrng Hok) as Htick.
    destruct (FloatHostname.tick name paint st w) as [[st1 | e] w1];
      [| exact Htick].
    destruct Htick as [Hok1 Henv1].
    assert (Hrng1 : rng_in_bounds (env w1)) by (rewrite Henv1; exact Hrng).
    pose proof (IH st1 w1 Hrng1 Hok1) as Hrest.
    destruct (FloatHostname.run name paint n st1 w1) as [[st2 | e] w2];
      [| exact Hrest].
    destruct Hrest as [Hok2 Henv2]. split; [exact Hok2 | congruence].
Qed.

Lemma float_main_init_ok w :
  rng_in_bounds (env w) ->
  ok_or_oserror float_state_ok w (FloatHostname.main_init name w).
Proof.
  intros Hrng.
  destruct (spawn_fresh name (Z.to_nat FloatHostname.NUM_PARTICLES)
              (clock_read w) Hrng) as (ps & Hps & Hlen & Hall).
  assert (Hinit : FloatHostname.main_init name w
                  = (Ok {| FloatHostname.last_activity := clock (env w) (clock_reads w);
                           FloatHostname.saver_on := false;
                           FloatHostname.saved := None;
                           FloatHostname.particles := ps;
                           FloatHostname.last_t :=
                             clock (env w) (S (clock_reads w));
                           FloatHostname.next_frame := Fin 0 |},
                     clock_read (Nat.iter (7 * Z.to_nat FloatHostname.NUM_PARTICLES)
                                   rand_drawn (clock_read w)))).
  { unfold FloatHostname.main_init. unfold bind at 1.
    unfold time_monotonic at 1. cbv beta iota.
    unfold bind at 1. rewrite Hps. cbv beta iota.
    unfold bind, time_monotonic, ret.
    rewrite iter_rand_drawn_env.
    assert (Hreads : forall k v, clock_reads (Nat.iter k rand_drawn v) = clock_reads v)
      by (intros k v; induction k as [| k IHk]; [reflexivity | exact IHk]).
    rewrite Hreads. reflexivity. }
  rewrite Hinit. unfold ok_or_oserror.
  split; [| rewrite env_clock_read, iter_rand_drawn_env; apply env_clock_read].
  split; [reflexivity |]. cbn [FloatHostname.particles]. split.
  - unfold len. rewrite Hlen. reflexivity.
  - eapply Forall_impl; [exact Hall | apply fresh_in_flight].
Qed.

End FloatLoop.

(** X16. The floating host names, started by [main] and run for any number
    of iterations with a random generator that keeps to its bounds: the
    loop either dies of an [OSError] (a failed framebuffer access; a frame
    size error is never raised), or is in a state where the saved frame
    is a full frame exactly while the saver is on, and there are
    [NUM_PARTICLES] particles, each rising with a speed in
    [SPEED_MIN, SPEED_MAX] and between the exit bound [-260] and the
    spawn band's lower end [H + 200]. *)
Theorem float_loop_invariant (name : string)
    (paint : list FloatHostname.Particle -> pyfloat -> image) (n : nat) (w : world) :
  rng_in_bounds (env w) ->
  ok_or_oserror float_state_ok w
    ((st <- FloatHostname.main_init name ;;
      FloatHostname.run name paint n st) w).
Proof.
  intros Hrng. unfold bind.
  pose proof (float_main_init_ok name w Hrng) as Hinit.
  destruct (FloatHostname.main_init name w) as [[st | e] w1]; [| exact Hinit].
  destruct Hinit as [Hok Henv].
  assert (Hrng1 : rng_in_bounds (env w1)) by (rewrite Henv; exact Hrng).
  pose proof (float_run_ok name paint n st w1 Hrng1 Hok) as Hrun.
  destruct (FloatHostname.run name paint n st w1) as [[st' | e] w'];
    [| exact Hrun].
  destruct Hrun as [Hok' Henv']. split; [exact Hok' | congruence].
Qed.

(** Twenty iterations over a working framebuffer. *)
Lemma float_loop_invariant_witness :
  let w := sample_world (sample_oracle false (seconds_from 0)) [] [] in
  ok_or_oserror float_state_ok w
    ((st <- FloatHostname.main_init "pi" ;;
      FloatHostname.run "pi" (fun _ _ _ _ => (0, 0, 0)) 20 st) w).
Proof.
  intro w.
  exact (float_loop_invariant "pi" (fun _ _ _ _ => (0, 0, 0)) 20 w
           (sample_oracle_in_bounds false _)).
Defined.

(** ** The main loops of the 3D text and of the host name *)

Section Text3DLoop.

Variables tw th : Z.
Variable paint : pyfloat -> pyfloat -> pyfloat -> image.







End Text3DLoop.


Section HostnameLoop.

Variables tw th : Z.
Variable paint : Z -> Z -> image.

Lemma hostname_activity_ok st w :
  hostname_state_ok st ->
  ok_or_oserror hostname_state_ok w (Hostname.activity_phase st w).
Proof.
  intros Hok. destruct (poll_with_total Hostname.first_event w) as (b & q & Hpoll).
  fold Hostname.touch_event_available in Hpoll.
  unfold Hostname.activity_phase, bind. rewrite Hpoll.
  destruct b; [| split; [exact Hok | reflexivity]].
  unfold time_monotonic. cbn [Hostname.saver_on Hostname.saved].
  unfold hostname_state_ok in Hok.
  destruct (Hostname.saver_on st) eqn:Hon.
  - destruct (Hostname.saved st) as [buf |]; [| discriminate Hok].
    unfold Hostname.fb_write, fb_store.
    destruct (fb_faulty _ _); [reflexivity |].
    unfold ret. split; reflexivity.
  - unfold ret. split; [| reflexivity]. exact Hok.
Qed.

Lemma hostname_idle_ok now st w :
  hostname_state_ok st ->
  ok_or_oserror hostname_state_ok w (Hostname.idle_phase now st w).
Proof.
  intros Hok. unfold Hostname.idle_phase.
  destruct (negb (Hostname.saver_on st) &&
            fgt (fsub now (Hostname.last_activity st)) (of_Z Hostname.IDLE_SEC)).
  - unfold bind, fb_read.
    destruct (fb_faulty (env w) (fb_opens w)); [reflexivity |].
    split; [| reflexivity]. split; [reflexivity | apply frame_of_len].
  - split; [exact Hok | reflexivity].
Qed.

Lemma hostname_render_ok now st w :
  hostname_state_ok st ->
  ok_or_oserror hostname_state_ok w (Hostname.render_phase tw th paint now st w).
Proof.
  intros Hok. unfold Hostname.render_phase.
  destruct (Hostname.saver_on st && fge now (Hostname.next_draw st)).
  - unfold bind at 1. unfold bind at 1. unfold random_randint at 1.
    unfold bind at 1. unfold random_randint at 1. unfold bind at 1.
    unfold Hostname.fb_write, fb_store.
    destruct (fb_faulty _ _); [reflexivity |].
    unfold sleep, bind, ret. split; [exact Hok | reflexivity].
  - unfold sleep, bind, ret. split; [exact Hok | reflexivity].
Qed.

Lemma hostname_tick_ok st w :
  hostname_state_ok st ->
  ok_or_oserror hostname_state_ok w (Hostname.tick tw th paint st w).
Proof.
  intros Hok. unfold Hostname.tick. unfold bind at 1.
  pose proof (hostname_activity_ok st w Hok) as Hact.
  destruct (Hostname.activity_phase st w) as [[st1 | e] w1]; [| exact Hact].
  destruct Hact as [Hok1 Henv1].
  unfold bind at 1. unfold time_monotonic. unfold bind at 1.
  set (now := clock (env w1) (clock_reads w1)).
  pose proof (hostname_idle_ok now st1 (clock_read w1) Hok1) as Hidle.
  destruct (Hostname.idle_phase now st1 (clock_read w1)) as [[st2 | e] w2];
    [| exact Hidle].
  destruct Hidle as [Hok2 Henv2]. rewrite env_clock_read in Henv2.
  pose proof (hostname_render_ok now st2 w2 Hok2) as Hrender.
  destruct (Hostname.render_phase tw th paint now st2 w2) as [[st3 | e] w3];
    [| exact Hrender].
  destruct Hrender as [Hok3 Henv3]. split; [exact Hok3 | congruence].
Qed.

Lemma hostname_run_ok n : forall st w,
  hostname_state_ok st ->
  ok_or_oserror hostname_state_ok w (Hostname.run tw th paint n st w).
Proof.
  induction n as [| n IH]; intros st w Hok.
  - split; [exact Hok | reflexivity].
  - cbn [Hostname.run]. unfold bind at 1.
    pose proof (hostname_tick_ok st w Hok) as Htick.
    destruct (Hostname.tick tw th paint st w) as [[st1 | e] w1]; [| exact Htick].
    destruct Htick as [Hok1 Henv1].
    pose proof (IH st1 w1 Hok1) as Hrest.
    destruct (Hostname.run tw th paint n st1 w1) as [[st2 | e] w2]; [| exact Hrest].
    destruct Hrest as [Hok2 Henv2]. split; [exact Hok2 | congruence].
Qed.

End HostnameLoop.

(** X18. The host name script, started by [main] and run for any number of
    iterations: the loop either dies of an [OSError], or is in a state
    where the saved frame is a full frame of [FRAME_BYTES] bytes exactly
    while the saver is on and [None] while it is off.  So the unguarded
    restore never hands [None] to [fb_write] (no [TypeError]), and the
    buffer it restores always has the size of a frame, although this
    script's [fb_write] does not test it. *)
Theorem hostname_loop_invariant (tw th : Z) (paint : Z -> Z -> image)
    (n : nat) (w : world) :
  ok_or_oserror hostname_state_ok w
    ((st <- Hostname.main_init ;; Hostname.run tw th paint n st) w).
Proof.
  cbv beta iota delta [bind Hostname.main_init time_monotonic ret].
  match goal with
  | |- ok_or_oserror _ _ (Hostname.run _ _ _ _ ?s ?v) =>
      pose proof (hostname_run_ok tw th paint n s v eq_refl) as Hrun;
      destruct (Hostname.run tw th paint n s v) as [[st' | e] w']
  end; [| exact Hrun].
  destruct Hrun as [Hok Henv]. split; [exact Hok |].
  rewrite Henv, env_clock_read. reflexivity.
Qed.

(** ** While awake, and between frames *)

Section Untouched.

(** A render step that completes keeps the saver flag. *)
Lemma float_render_keeps_saver name paint now st w st' w' :
  FloatHostname.render_phase name paint now st w = (Ok st', w') ->
  FloatHostname.saver_on st' = FloatHostname.saver_on st.
Proof.
  unfold FloatHostname.render_phase.
  destruct (FloatHostname.saver_on st) eqn:Hon;
    [| intros [= <- _]; exact Hon].
  destruct (fge now (FloatHostname.next_frame st));
    [| intros [= <- _]; exact Hon].
  unfold bind at 1. unfold bind at 1.
  destruct (FloatHostname.render_frame name paint (FloatHostname.particles st) _ w)
    as [[r | e] w1]; [| discriminate].
  unfold bind at 1.
  destruct (fb_write (snd r) w1) as [[u | e] w2]; [| discriminate].
  unfold sleep, bind, ret. intros [= <- _]. reflexivity.
Qed.

Lemma hostname_render_keeps_saver tw th paint now st w st' w' :
  Hostname.render_phase tw th paint now st w = (Ok st', w') ->
  Hostname.saver_on st' = Hostname.saver_on st.
Proof.
  unfold Hostname.render_phase.
  destruct (Hostname.saver_on st && fge now (Hostname.next_draw st));
    [| intros [= <- _]; reflexivity].
  unfold bind at 1. unfold bind at 1. unfold random_randint at 1.
  unfold bind at 1. unfold random_randint at 1. unfold bind at 1.
  destruct (Hostname.fb_write _ _) as [[u | e] w2]; [| discriminate].
  unfold sleep, bind, ret. intros [= <- _]. reflexivity.
Qed.

Lemma hostname_render_off tw th paint now st w :
  Hostname.saver_on st = false ->
  Hostname.render_phase tw th paint now st w = (Ok st, w).
Proof. intros Hoff. unfold Hostname.render_phase. rewrite Hoff. reflexivity. Qed.

Lemma float_render_off name paint now st w :
  FloatHostname.saver_on st = false ->
  FloatHostname.render_phase name paint now st w = (Ok st, w).
Proof. intros Hoff. unfold FloatHostname.render_phase. rewrite Hoff. reflexivity. Qed.

End Untouched.

(** X19. While awake the scripts leave the display alone: a tick that
    starts and ends with the saver off has not opened the framebuffer and
    has not changed a byte of it, in any of the three scripts, touch or no
    touch. *)
Theorem awake_tick_leaves_framebuffer :
  (forall tw th paint (st st' : Text3D.state) (w w' : world),
     Text3D.saver_on st = false ->
     Text3D.tick tw th paint st w = (Ok st', w') ->
     Text3D.saver_on st' = false ->
     fb_data w' = fb_data w /\ fb_opens w' = fb_opens w) /\
  (forall name paint (st st' : FloatHostname.state) (w w' : world),
     FloatHostname.saver_on st = false ->
     FloatHostname.tick name paint st w = (Ok st', w') ->
     FloatHostname.saver_on st' = false ->
     fb_data w' = fb_data w /\ fb_opens w' = fb_opens w) /\
  (forall tw th paint (st st' : Hostname.state) (w w' : world),
     Hostname.saver_on st = false ->
     Hostname.tick tw th paint st w = (Ok st', w') ->
     Hostname.saver_on st' = false ->
     fb_data w' = fb_data w /\ fb_opens w' = fb_opens w).
Proof.
  split; [| split].
  - intros tw th paint st st' w w' Hoff Hrun Hoff'.
    destruct (text3d_tick_phases tw th paint st w st' w' Hrun)
      as (sa & wa & si & wi & Hact & Hidle & Hrender).
    assert (Hwa : Text3D.saver_on sa = false /\ fb_data wa = fb_data w /\
                  fb_opens wa = fb_opens w).
    { destruct (poll_with_total scan_events w) as (b & q & Hpoll).
      fold touch_event_available in Hpoll.
      unfold Text3D.activity_phase, bind in Hact. rewrite Hpoll in Hact.
      destruct b.
      - unfold time_monotonic in Hact. cbn [Text3D.saver_on] in Hact.
        rewrite Hoff in Hact. injection Hact as <- <-. repeat split.
      - injection Hact as <- <-. repeat split. exact Hoff. }
    destruct Hwa as (Hoffa & Hda & Hoa).
    assert (Hsi : Text3D.saver_on si = false).
    { destruct (text3d_render_cases _ _ _ _ _ _ _ _ Hrender) as [[-> _] | [-> _]].
      - exact Hoff'.
      - destruct (drawn_saved tw th (clock (env wa) (clock_reads wa)) si) as (_ & Ho).
        rewrite Ho in Hoff'. exact Hoff'. }
    rewrite text3d_render_off in Hrender by exact Hsi.
    injection Hrender as _ <-.
    unfold Text3D.idle_phase in Hidle.
    destruct (negb (Text3D.saver_on sa) && fgt _ _).
    + unfold bind, fb_read in Hidle.
      destruct (fb_faulty _ _); [discriminate |].
      injection Hidle as <- _. discriminate Hsi.
    + injection Hidle as _ <-. cbn [fb_data fb_opens clock_read].
      split; assumption.
  - intros name paint st st' w w' Hoff Hrun Hoff'.
    unfold FloatHostname.tick in Hrun. unfold bind at 1 in Hrun.
    destruct (poll_with_total scan_events w) as (b & q & Hpoll).
    fold touch_event_available in Hpoll.
    unfold FloatHostname.activity_phase in Hrun. unfold bind at 1 in Hrun.
    rewrite Hpoll in Hrun.
    assert (Hrest : forall sa wa,
      FloatHostname.saver_on sa = false ->
      fb_data wa = fb_data w -> fb_opens wa = fb_opens w ->
      (now <- time_monotonic ;;
       s <- FloatHostname.idle_phase name now sa ;;
       FloatHostname.render_phase name paint now s) wa = (Ok st', w') ->
      fb_data w' = fb_data w /\ fb_opens w' = fb_opens w).
    { intros sa wa Hoffa Hda Hoa Hgo.
      unfold bind at 1 in Hgo. unfold time_monotonic in Hgo.
      unfold bind at 1 in Hgo.
      destruct (FloatHostname.idle_phase name _ sa (clock_read wa))
        as [[si | e] wi] eqn:Hidle; [| discriminate].
      pose proof (float_render_keeps_saver _ _ _ _ _ _ _ Hgo) as Hkeep.
      rewrite Hoff' in Hkeep. symmetry in Hkeep.
      rewrite float_render_off in Hgo by exact Hkeep.
      injection Hgo as _ <-.
      unfold FloatHostname.idle_phase in Hidle.
      destruct (negb (FloatHostname.saver_on sa) && fgt _ _).
      - unfold bind at 1 in Hidle. unfold fb_read in Hidle.
        destruct (fb_faulty _ _); [discriminate |].
        unfold bind at 1 in Hidle.
        destruct (FloatHostname.spawn name _ _) as [[ps | e] ws]; [| discriminate].
        injection Hidle as <- _. discriminate Hkeep.
      - injection Hidle as _ <-. cbn [fb_data fb_opens clock_read].
        split; assumption. }
    destruct b.
    + unfold time_monotonic at 1 in Hrun.
      cbn [FloatHostname.saver_on] in Hrun. rewrite Hoff in Hrun.
      unfold ret in Hrun. eapply Hrest; [| | | exact Hrun]; reflexivity.
    + unfold ret in Hrun. eapply Hrest; [| | | exact Hrun];
        [exact Hoff | reflexivity | reflexivity].
  - intros tw th paint st st' w w' Hoff Hrun Hoff'.
    unfold Hostname.tick in Hrun. unfold bind at 1 in Hrun.
    destruct (poll_with_total Hostname.first_event w) as (b & q & Hpoll).
    fold Hostname.touch_event_available in Hpoll.
    unfold Hostname.activity_phase in Hrun. unfold bind at 1 in Hrun.
    rewrite Hpoll in Hrun.
    assert (Hrest : forall sa wa,
      Hostname.saver_on sa = false ->
      fb_data wa = fb_data w -> fb_opens wa = fb_opens w ->
      (now <- time_monotonic ;;
       s <- Hostname.idle_phase now sa ;;
       Hostname.render_phase tw th paint now s) wa = (Ok st', w') ->
      fb_data w' = fb_data w /\ fb_opens w' = fb_opens w).
    { intros sa wa Hoffa Hda Hoa Hgo.
      unfold bind at 1 in Hgo. unfold time_monotonic in Hgo.
      unfold bind at 1 in Hgo.
      destruct (Hostname.idle_phase _ sa (clock_read wa))
        as [[si | e] wi] eqn:Hidle; [| discriminate].
      pose proof (hostname_render_keeps_saver _ _ _ _ _ _ _ _ Hgo) as Hkeep.
      rewrite Hoff' in Hkeep. symmetry in Hkeep.
      rewrite hostname_render_off in Hgo by exact Hkeep.
      injection Hgo as _ <-.
      unfold Hostname.idle_phase in Hidle.
      destruct (negb (Hostname.saver_on sa) && fgt _ _).
      - unfold bind, fb_read in Hidle.
        destruct (fb_faulty _ _); [discriminate |].
        injection Hidle as <- _. discriminate Hkeep.
      - injection Hidle as _ <-. cbn [fb_data fb_opens clock_read].
        split; assumption. }
    destruct b.
    + unfold time_monotonic at 1 in Hrun.
      cbn [Hostname.saver_on] in Hrun. rewrite Hoff in Hrun.
      unfold ret in Hrun. eapply Hrest; [| | | exact Hrun]; reflexivity.
    + unfold ret in Hrun. eapply Hrest; [| | | exact Hrun];
        [exact Hoff | reflexivity | reflexivity].
Qed.

(** A touch while awake, over a device that shows three bytes. *)
Lemma awake_tick_leaves_framebuffer_witness :
  let w := sample_world (sample_oracle false (seconds_from 100)) [1; 2; 3]
             [abs_event] in
  let st := {| Text3D.last_activity := Fin 0; Text3D.saver_on := false;
               Text3D.saved := None;
               Text3D.x := fl 40; Text3D.y := fl 80;
               Text3D.vx := fl (26 # 10); Text3D.vy := fl (19 # 10);
               Text3D.next_frame := Fin 0; Text3D.t0 := Fin 0 |} in
  let paint := fun (_ _ _ : pyfloat) (_ _ : Z) => (0, 0, 0) in
  exists st' w',
    Text3D.tick 300 70 paint st w = (Ok st', w') /\
    fb_data w' = [1; 2; 3] /\ fb_opens w' = 0%nat.
Proof.
  intros w st paint.
  assert (Hrun : exists st' w', Text3D.tick 300 70 paint st w = (Ok st', w') /\
                                Text3D.saver_on st' = false)
    by (eexists _, _; split; reflexivity).
  destruct Hrun as (st' & w' & Hrun & Hoff').
  exists st', w'. split; [exact Hrun |].
  exact (proj1 awake_tick_leaves_framebuffer 300 70 paint st st' w w'
           eq_refl Hrun Hoff').
Defined.

Section Pacing.

Lemma float_render_drawn name paint now st w st' w' :
  FloatHostname.saver_on st = true ->
  fge now (FloatHostname.next_frame st) = true ->
  FloatHostname.render_phase name paint now st w = (Ok st', w') ->
  FloatHostname.saver_on st' = true /\
  FloatHostname.next_frame st' = fadd now (finv_int 15) /\
  FloatHostname.last_t st' = now.
Proof.
  intros Hon Hdue. unfold FloatHostname.render_phase. rewrite Hon, Hdue.
  unfold bind at 1. unfold bind at 1.
  destruct (FloatHostname.render_frame name paint (FloatHostname.particles st) _ w)
    as [[r | e] w1]; [| discriminate].
  unfold bind at 1.
  destruct (fb_write (snd r) w1) as [[u | e] w2]; [| discriminate].
  unfold sleep, bind, ret. intros [= <- _]. repeat split.
Qed.

Lemma hostname_render_drawn tw th paint now st w st' w' :
  Hostname.saver_on st = true ->
  fge now (Hostname.next_draw st) = true ->
  Hostname.render_phase tw th paint now st w = (Ok st', w') ->
  Hostname.saver_on st' = true /\
  Hostname.next_draw st' = fadd now Hostname.INTERVAL.
Proof.
  intros Hon Hdue. unfold Hostname.render_phase. rewrite Hon, Hdue. cbn [andb].
  unfold bind at 1. unfold bind at 1. unfold random_randint at 1.
  unfold bind at 1. unfold random_randint at 1. unfold bind at 1.
  destruct (Hostname.fb_write _ _) as [[u | e] w2]; [| discriminate].
  unfold sleep, bind, ret. intros [= <- _]. split; reflexivity.
Qed.

(** A due frame of the host name. *)
Lemma hostname_render_due tw th paint now st w :
  Hostname.saver_on st = true ->
  fge now (Hostname.next_draw st) = true ->
  exists st' frame,
    len frame = FRAME_BYTES /\
    Hostname.render_phase tw th paint now st w
    = if fb_faulty (env w) (fb_opens w)
      then (Raise OSError, fb_accessed (fb_data w) (rand_drawn (rand_drawn w)))
      else (Ok st', fb_accessed (overwrite frame (fb_data w))
                      (rand_drawn (rand_drawn w))).
Proof.
  intros Hon Hdue. unfold Hostname.render_phase. rewrite Hon, Hdue. cbn [andb].
  unfold bind at 1. unfold bind at 1. unfold random_randint at 1.
  unfold bind at 1. unfold random_randint at 1. unfold bind at 1.
  unfold Hostname.fb_write, fb_store. cbn [env fb_opens fb_data rand_drawn].
  set (x := rand_int (env w) (rand_draws w) 0 (Z.max 0 (W - tw))).
  set (y := rand_int (env w) (rand_draws (rand_drawn w)) 0 (Z.max 0 (H - th))).
  set (frame := Hostname.rgb888_to_rgb565 (paint x y)).
  exists {| Hostname.last_activity := Hostname.last_activity st;
            Hostname.saver_on := true;
            Hostname.saved := Hostname.saved st;
            Hostname.next_draw := fadd now Hostname.INTERVAL |}, frame.
  split.
  - unfold frame. rewrite hostname_converter_eq. apply rgb888_to_rgb565_bytes_len.
  - destruct (fb_faulty (env w) (fb_opens w)); reflexivity.
Qed.

(** The time of the next frame is the rounded sum, which can lie below
    the exact one: the host name drawn at [0.3] is due again at the double
    [5.3], less than five seconds later. *)
Lemma next_draw_rounded :
  fadd (fl (3 # 10)) Hostname.INTERVAL = fl (53 # 10) /\
  (fval (fl (53 # 10)) < fval (fl (3 # 10)) + 5)%Q.
Proof. vm_compute. split; reflexivity. Qed.

End Pacing.

(** X20. Frame pacing.  After a render step has drawn a frame at clock
    reading [now], a render step at any reading before the time of the
    next frame draws nothing: it leaves the state and the world as they
    are.  The time of the next frame is the double that the script
    computes, [now + 1.0 / FPS] (the period a twentieth of a second for
    the 3D text and a fifteenth for the floating host names) and
    [now + INTERVAL], five seconds later, for the host name, each sum
    rounded as every float sum is. *)
Theorem frames_are_paced :
  (forall tw th paint (st st' : Text3D.state) (w w' w2 : world) (now now' : pyfloat),
     Text3D.saver_on st = true ->
     fge now (Text3D.next_frame st) = true ->
     Text3D.render_phase tw th paint now st w = (Ok st', w') ->
     flt now' (fadd now (finv_int 20)) = true ->
     Text3D.render_phase tw th paint now' st' w2 = (Ok st', w2)) /\
  (forall name paint (st st' : FloatHostname.state) (w w' w2 : world)
          (now now' : pyfloat),
     FloatHostname.saver_on st = true ->
     fge now (FloatHostname.next_frame st) = true ->
     FloatHostname.render_phase name paint now st w = (Ok st', w') ->
     flt now' (fadd now (finv_int 15)) = true ->
     FloatHostname.render_phase name paint now' st' w2 = (Ok st', w2)) /\
  (forall tw th paint (st st' : Hostname.state) (w w' w2 : world) (now now' : pyfloat),
     Hostname.saver_on st = true ->
     fge now (Hostname.next_draw st) = true ->
     Hostname.render_phase tw th paint now st w = (Ok st', w') ->
     flt now' (fadd now (fl 5)) = true ->
     Hostname.render_phase tw th paint now' st' w2 = (Ok st', w2)).
Proof.
  split; [| split].
  - intros tw th paint st st' w w' w2 now now' Hon Hdue Hrun Hsoon.
    destruct (text3d_render_due tw th paint now st w Hon Hdue) as (frame & _ & Heq).
    rewrite Heq in Hrun. destruct (fb_faulty _ _); [discriminate |].
    injection Hrun as <- _.
    apply text3d_render_early.
    + destruct (drawn_saved tw th now st) as (_ & ->). exact Hon.
    + unfold Text3D.drawn.
      destruct (Text3D.bounce tw th (Text3D.sprite st)) as [[[x1 y1] vx1] vy1].
      apply flt_not_fle. exact Hsoon.
  - intros name paint st st' w w' w2 now now' Hon Hdue Hrun Hsoon.
    destruct (float_render_drawn _ _ _ _ _ _ _ Hon Hdue Hrun) as (Hon' & Hnext & _).
    unfold FloatHostname.render_phase. rewrite Hon', Hnext.
    unfold fge. rewrite (flt_not_fle _ _ Hsoon). reflexivity.
  - intros tw th paint st st' w w' w2 now now' Hon Hdue Hrun Hsoon.
    destruct (hostname_render_drawn _ _ _ _ _ _ _ _ Hon Hdue Hrun) as (Hon' & Hnext).
    unfold Hostname.render_phase. rewrite Hon', Hnext.
    unfold fge. change Hostname.INTERVAL with (fl 5).
    rewrite (flt_not_fle _ _ Hsoon). reflexivity.
Qed.

(** The host name drawn at second 100, and a render step four seconds
    later. *)
Lemma frames_are_paced_witness :
  let w := sample_world (sample_oracle false (seconds_from 100)) [] [] in
  let st := {| Hostname.last_activity := Fin 0; Hostname.saver_on := true;
               Hostname.saved := Some (frame_of []);
               Hostname.next_draw := Fin 0 |} in
  let paint := fun (_ _ : Z) (_ _ : Z) => (200, 200, 200) in
  exists st' w',
    Hostname.render_phase 120 30 paint (fl 100) st w = (Ok st', w') /\
    Hostname.render_phase 120 30 paint (fl 104) st' w' = (Ok st', w').
Proof.
  intros w st paint.
  assert (Hdue : fge (fl 100) (Hostname.next_draw st) = true) by (vm_compute; reflexivity).
  destruct (hostname_render_due 120 30 paint (fl 100) st w eq_refl Hdue)
    as (st' & frame & _ & Hrun).
  change (fb_faulty (env w) (fb_opens w)) with false in Hrun. cbv iota in Hrun.
  eexists st', _. split; [exact Hrun |].
  refine (proj2 (proj2 frames_are_paced) 120 30 paint st st' w _ _ (fl 100) (fl 104)
            eq_refl Hdue Hrun _).
  vm_compute. reflexivity.
Defined.

(** X21. Where the host name is drawn.  When the generator keeps to its
    bounds and the host name script draws a frame, the frame written to the
    device is the picture of the text at a position [(x, y)] with
    [0 <= x <= max(0, W - tw)] and [0 <= y <= max(0, H - th)]; a text no
    larger than the screen therefore lies on it entirely. *)
Theorem hostname_drawn_on_screen tw th paint now
    (st st' : Hostname.state) (w w' : world) :
  rng_in_bounds (env w) ->
  Hostname.saver_on st = true ->
  fge now (Hostname.next_draw st) = true ->
  Hostname.render_phase tw th paint now st w = (Ok st', w') ->
  exists x y,
    0 <= x <= Z.max 0 (W - tw) /\ 0 <= y <= Z.max 0 (H - th) /\
    (tw <= W -> x + tw <= W) /\ (th <= H -> y + th <= H) /\
    fb_data w' = overwrite (Hostname.rgb888_to_rgb565 (paint x y)) (fb_data w).
Proof.
  intros [_ Hint] Hon Hdue. unfold Hostname.render_phase. rewrite Hon, Hdue.
  cbn [andb].
  unfold bind at 1. unfold bind at 1. unfold random_randint at 1.
  unfold bind at 1. unfold random_randint at 1. unfold bind at 1.
  set (x := rand_int (env w) (rand_draws w) 0 (Z.max 0 (W - tw))).
  set (y := rand_int (env (rand_drawn w)) (rand_draws (rand_drawn w)) 0
              (Z.max 0 (H - th))).
  unfold Hostname.fb_write, fb_store.
  destruct (fb_faulty _ _); [discriminate |].
  unfold sleep, bind, ret. intros [= _ <-].
  assert (Hx : 0 <= x <= Z.max 0 (W - tw)) by (apply Hint; lia).
  assert (Hy : 0 <= y <= Z.max 0 (H - th)) by (apply (Hint _ 0); lia).
  exists x, y. repeat split; try lia.
Qed.

Lemma hostname_drawn_on_screen_witness :
  let w := sample_world (sample_oracle false (seconds_from 100)) [7; 7; 7] [] in
  let st := {| Hostname.last_activity := Fin 0; Hostname.saver_on := true;
               Hostname.saved := Some (frame_of []);
               Hostname.next_draw := Fin 0 |} in
  let paint := fun (_ _ : Z) (_ _ : Z) => (200, 200, 200) in
  exists st' w' x y,
    Hostname.render_phase 120 30 paint (fl 100) st w = (Ok st', w') /\
    0 <= x <= Z.max 0 (W - 120) /\ 0 <= y <= Z.max 0 (H - 30) /\
    fb_data w' = overwrite (Hostname.rgb888_to_rgb565 (paint x y)) (fb_data w).
Proof.
  intros w st paint.
  assert (Hdue : fge (fl 100) (Hostname.next_draw st) = true) by (vm_compute; reflexivity).
  destruct (hostname_render_due 120 30 paint (fl 100) st w eq_refl Hdue)
    as (st' & frame & _ & Hrun).
  change (fb_faulty (env w) (fb_opens w)) with false in Hrun. cbv iota in Hrun.
  destruct (hostname_drawn_on_screen 120 30 paint (fl 100) st st' w _
              (sample_oracle_in_bounds false (seconds_from 100)) eq_refl Hdue Hrun)
    as (x & y & Hx & Hy & _ & _ & Hdata).
  eexists st', _, x, y.
  split; [exact Hrun | split; [exact Hx | split; [exact Hy | exact Hdata]]].
Defined.

(** ** Sessions of the host name and of the floating host names *)

Section HostnameSession.

Variables tw th : Z.
Variable paint : Z -> Z -> image.

Lemma hostname_tick_phases st w st' w' :
  Hostname.tick tw th paint st w = (Ok st', w') ->
  exists st1 w1 st2 w2,
    Hostname.activity_phase st w = (Ok st1, w1) /\
    Hostname.idle_phase (clock (env w1) (clock_reads w1)) st1 (clock_read w1)
    = (Ok st2, w2) /\
    Hostname.render_phase tw th paint (clock (env w1) (clock_reads w1)) st2 w2
    = (Ok st', w').
Proof.
  intros Hrun. unfold Hostname.tick in Hrun. unfold bind at 1 in Hrun.
  destruct (Hostname.activity_phase st w) as [[st1 | e] w1] eqn:Hact; [| discriminate].
  unfold bind at 1 in Hrun. unfold time_monotonic in Hrun.
  unfold bind at 1 in Hrun.
  destruct (Hostname.idle_phase (clock (env w1) (clock_reads w1)) st1 (clock_read w1))
    as [[st2 | e] w2] eqn:Hidle; [| discriminate].
  exists st1, w1, st2, w2. split; [reflexivity | split; [exact Hidle | exact Hrun]].
Qed.

Lemma hostname_activity_quiet st w wq :
  Hostname.touch_event_available w = (Ok false, wq) ->
  Hostname.activity_phase st w = (Ok st, wq).
Proof.
  intros Hpoll. unfold Hostname.activity_phase, bind. rewrite Hpoll. reflexivity.
Qed.

Lemma hostname_activity_off st w st' w' :
  Hostname.saver_on st = false ->
  Hostname.activity_phase st w = (Ok st', w') ->
  Hostname.saver_on st' = false /\ fb_data w' = fb_data w.
Proof.
  intros Hoff Hact.
  destruct (poll_with_total Hostname.first_event w) as (b & q & Hpoll).
  fold Hostname.touch_event_available in Hpoll.
  unfold Hostname.activity_phase, bind in Hact. rewrite Hpoll in Hact.
  destruct b.
  - unfold time_monotonic in Hact. cbn [Hostname.saver_on] in Hact.
    rewrite Hoff in Hact. injection Hact as <- <-. split; reflexivity.
  - injection Hact as <- <-. split; [exact Hoff | reflexivity].
Qed.

(** A render step that completes keeps what the session rests on, and the
    size of the device. *)
Lemma hostname_render_keeps now st w st' w' :
  Hostname.render_phase tw th paint now st w = (Ok st', w') ->
  Hostname.saver_on st' = Hostname.saver_on st /\
  Hostname.saved st' = Hostname.saved st /\
  Hostname.last_activity st' = Hostname.last_activity st /\
  length (fb_data w') = length (fb_data w).
Proof.
  unfold Hostname.render_phase.
  destruct (Hostname.saver_on st && fge now (Hostname.next_draw st));
    [| intros [= <- <-]; repeat split].
  unfold bind at 1. unfold bind at 1. unfold random_randint at 1.
  unfold bind at 1. unfold random_randint at 1. unfold bind at 1.
  unfold Hostname.fb_write, fb_store.
  destruct (fb_faulty _ _); [discriminate |].
  unfold sleep, bind, ret. intros [= <- <-]. repeat split.
  cbn [fb_data fb_accessed rand_drawn]. apply overwrite_length.
Qed.

Lemma hostname_idle_size now st w st' w' :
  Hostname.idle_phase now st w = (Ok st', w') ->
  length (fb_data w') = length (fb_data w).
Proof.
  unfold Hostname.idle_phase.
  destruct (negb (Hostname.saver_on st) && fgt _ _);
    [| intros [= _ <-]; reflexivity].
  unfold bind, fb_read. destruct (fb_faulty _ _); [discriminate |].
  intros [= _ <-]. reflexivity.
Qed.

Lemma hostname_activity_size st w st' w' :
  Hostname.activity_phase st w = (Ok st', w') ->
  length (fb_data w') = length (fb_data w).
Proof.
  intros Hact.
  destruct (poll_with_total Hostname.first_event w) as (b & q & Hpoll).
  fold Hostname.touch_event_available in Hpoll.
  unfold Hostname.activity_phase, bind in Hact. rewrite Hpoll in Hact.
  destruct b; [| injection Hact as _ <-; reflexivity].
  unfold time_monotonic in Hact. cbn [Hostname.saver_on Hostname.saved] in Hact.
  destruct (Hostname.saver_on st); [| injection Hact as _ <-; reflexivity].
  destruct (Hostname.saved st) as [buf |].
  - unfold Hostname.fb_write, fb_store in Hact.
    destruct (fb_faulty _ _); [discriminate |].
    injection Hact as _ <-. cbn [fb_data fb_accessed clock_read ev_polled].
    apply overwrite_length.
  - unfold fb_store_none in Hact. destruct (fb_faulty _ _); discriminate.
Qed.

Lemma hostname_tick_size st w st' w' :
  Hostname.tick tw th paint st w = (Ok st', w') ->
  length (fb_data w') = length (fb_data w).
Proof.
  intros Hrun.
  destruct (hostname_tick_phases st w st' w' Hrun)
    as (sa & wa & si & wi & Hact & Hidle & Hrender).
  destruct (hostname_render_keeps _ _ _ _ _ Hrender) as (_ & _ & _ & ->).
  rewrite (hostname_idle_size _ _ _ _ _ Hidle). cbn [fb_data clock_read].
  apply (hostname_activity_size _ _ _ _ Hact).
Qed.

Lemma hostname_session_size s1 s2 :
  Hostname.session tw th paint s1 s2 ->
  length (fb_data (snd s2)) = length (fb_data (snd s1)).
Proof.
  induction 1 as [s | st w st1 w1 s2 Hquiet Htick Hrest IH]; [reflexivity |].
  rewrite IH. cbn [snd]. apply (hostname_tick_size _ _ _ _ Htick).
Qed.

(** The tick that starts the saver saves what the device showed. *)
Lemma hostname_tick_captures st w st1 w1 :
  Hostname.saver_on st = false ->
  Hostname.tick tw th paint st w = (Ok st1, w1) ->
  Hostname.saver_on st1 = true ->
  Hostname.saved st1 = Some (frame_of (fb_data w)).
Proof.
  intros Hoff Hrun Hon.
  destruct (hostname_tick_phases st w st1 w1 Hrun)
    as (sa & wa & si & wi & Hact & Hidle & Hrender).
  destruct (hostname_activity_off st w sa wa Hoff Hact) as (Hoffa & Hdata).
  destruct (hostname_render_keeps _ _ _ _ _ Hrender) as (Hk & -> & _ & _).
  rewrite Hon in Hk. symmetry in Hk.
  set (now := clock (env wa) (clock_reads wa)) in *.
  destruct (sumbool_of_bool (fgt (fsub now (Hostname.last_activity sa)) (of_Z Hostname.IDLE_SEC)))
      as [Hgt | Hle].
  - rewrite (hostname_idle_enter now sa _ Hoffa Hgt) in Hidle.
    destruct (fb_faulty _ _); [discriminate |].
    injection Hidle as <- _. cbn [Hostname.saved fb_data clock_read].
    rewrite Hdata. reflexivity.
  - rewrite hostname_idle_stay in Hidle by (right; exact Hle).
    injection Hidle as <- _. congruence.
Qed.

(** A quiet tick keeps the saver on and the saved frame as it is. *)
Lemma hostname_quiet_tick_keeps st w st1 w1 :
  Hostname.quiet w ->
  Hostname.tick tw th paint st w = (Ok st1, w1) ->
  Hostname.saver_on st = true ->
  Hostname.saver_on st1 = true /\ Hostname.saved st1 = Hostname.saved st /\
  Hostname.last_activity st1 = Hostname.last_activity st.
Proof.
  intros Hquiet Hrun Hon.
  destruct (hostname_tick_phases st w st1 w1 Hrun)
    as (sa & wa & si & wi & Hact & Hidle & Hrender).
  unfold Hostname.quiet in Hquiet.
  destruct (Hostname.touch_event_available w) as [r wq] eqn:Hpoll.
  simpl in Hquiet. subst r.
  rewrite (hostname_activity_quiet st w wq Hpoll) in Hact. injection Hact as <- <-.
  rewrite hostname_idle_stay in Hidle by (left; exact Hon). injection Hidle as <- <-.
  destruct (hostname_render_keeps _ _ _ _ _ Hrender) as (-> & -> & -> & _).
  repeat split. exact Hon.
Qed.

Lemma hostname_session_keeps s1 s2 :
  Hostname.session tw th paint s1 s2 ->
  Hostname.saver_on (fst s1) = true ->
  Hostname.saver_on (fst s2) = true /\
  Hostname.saved (fst s2) = Hostname.saved (fst s1) /\
  Hostname.last_activity (fst s2) = Hostname.last_activity (fst s1).
Proof.
  induction 1 as [s | st w st1 w1 s2 Hquiet Htick Hrest IH]; intros Hon.
  - repeat split. exact Hon.
  - cbn [fst] in *.
    destruct (hostname_quiet_tick_keeps st w st1 w1 Hquiet Htick Hon)
      as (Hon1 & <- & <-).
    apply IH. exact Hon1.
Qed.

(** A quiet tick of a loop that has been idle long enough starts the
    saver, when the device works. *)
Lemma hostname_tick_enters st w wq :
  Hostname.touch_event_available w = (Ok false, wq) ->
  Hostname.saver_on st = false ->
  let now := clock (env wq) (clock_reads wq) in
  fgt (fsub now (Hostname.last_activity st)) (of_Z Hostname.IDLE_SEC) = true ->
  fge now (Fin 0) = true ->
  (forall n, fb_faulty (env wq) n = false) ->
  exists st1 w1,
    Hostname.tick tw th paint st w = (Ok st1, w1) /\
    Hostname.saver_on st1 = true /\
    env w1 = env wq /\ ev_queue w1 = ev_queue wq /\ ev_reads w1 = ev_reads wq.
Proof.
  intros Hpoll Hoff now Hgt Hpos Hok.
  unfold Hostname.tick. unfold bind at 1.
  rewrite (hostname_activity_quiet st w wq Hpoll).
  unfold bind at 1. unfold time_monotonic. fold now.
  unfold bind at 1. rewrite hostname_idle_enter by assumption.
  cbn [env clock_read]. rewrite Hok.
  unfold Hostname.render_phase. cbn [Hostname.saver_on Hostname.next_draw].
  rewrite Hpos. cbn [andb].
  unfold bind at 1. unfold bind at 1. unfold random_randint at 1.
  unfold bind at 1. unfold random_randint at 1. unfold bind at 1.
  unfold Hostname.fb_write, fb_store.
  cbn [env fb_opens fb_accessed rand_drawn]. rewrite Hok.
  unfold sleep, bind, ret.
  eexists _, _. split; [reflexivity |]. repeat split.
Qed.

End HostnameSession.

(** X22. Round trip in the host name loop.  Let a tick take the loop from
    saver off to saver on, and let quiet ticks follow until a poll reports
    an event.  The saved buffer is then still the frame [F] that the device
    showed at the transition, a full frame.  If the device accepts the
    write, the activity step of that tick writes exactly [F] back, so that
    reading the device again returns [F] byte for byte, and leaves the
    saver off; if the device refuses it, the step dies of the [OSError]
    with the displayed contents as they were. *)
Theorem hostname_roundtrip_restore (tw th : Z) (paint : Z -> Z -> image)
    (st st1 st2 : Hostname.state) (w w1 w2 w3 : world) :
  Hostname.saver_on st = false ->
  Hostname.tick tw th paint st w = (Ok st1, w1) ->
  Hostname.saver_on st1 = true ->
  Hostname.session tw th paint (st1, w1) (st2, w2) ->
  Hostname.touch_event_available w2 = (Ok true, w3) ->
  let F := frame_of (fb_data w) in
  Hostname.saved st2 = Some F /\
  len F = FRAME_BYTES /\
  exists w4,
    fb_opens w4 = S (fb_opens w3) /\
    if fb_faulty (env w3) (fb_opens w3)
    then Hostname.activity_phase st2 w2 = (Raise OSError, w4) /\
         fb_data w4 = fb_data w3
    else exists st3,
           Hostname.activity_phase st2 w2 = (Ok st3, w4) /\
           Hostname.saver_on st3 = false /\ Hostname.saved st3 = None /\
           fb_data w4 = overwrite F (fb_data w3) /\
           frame_of (fb_data w4) = F.
Proof.
  intros Hoff Htick Hon Hsession Hpoll F.
  pose proof (hostname_tick_captures tw th paint st w st1 w1 Hoff Htick Hon) as Hsaved1.
  destruct (hostname_session_keeps tw th paint _ _ Hsession Hon)
    as (Hon2 & Hsaved2 & _).
  cbn [fst] in Hon2, Hsaved2. rewrite Hsaved1 in Hsaved2. fold F in Hsaved2.
  split; [exact Hsaved2 | split; [apply frame_of_len |]].
  rewrite (hostname_activity_touched st2 w2 w3 F Hpoll Hon2 Hsaved2).
  destruct (fb_faulty (env w3) (fb_opens w3)).
  - eexists. split; [| split; [reflexivity |]]; reflexivity.
  - eexists. split; [| eexists; split; [reflexivity |]]; [reflexivity |].
    cbn [Hostname.saver_on Hostname.saved fb_data fb_accessed].
    split; [reflexivity | split; [reflexivity | split; [reflexivity |]]].
    apply frame_of_restore.
    destruct (poll_with_total Hostname.first_event w2) as (b & q & Hpoll').
    fold Hostname.touch_event_available in Hpoll'. rewrite Hpoll in Hpoll'.
    injection Hpoll' as _ ->. cbn [fb_data ev_polled].
    pose proof (hostname_session_size tw th paint _ _ Hsession) as Hsize.
    cbn [snd] in Hsize. rewrite Hsize.
    apply (hostname_tick_size tw th paint _ _ _ _ Htick).
Qed.

(** The loop idle for 700 seconds over a device that delivers three
    bytes: the first tick starts the saver, and a touch arrives before the
    second poll. *)
Lemma hostname_roundtrip_restore_witness :
  let o := touch_before 1 (sample_oracle false (seconds_from 700)) in
  let w := sample_world o [1; 2; 3] [] in
  let st := {| Hostname.last_activity := Fin 0; Hostname.saver_on := false;
               Hostname.saved := None; Hostname.next_draw := Fin 0 |} in
  let paint := fun (_ _ : Z) (_ _ : Z) => (200, 200, 200) in
  exists st1 w1 st3 w4,
    Hostname.tick 120 30 paint st w = (Ok st1, w1) /\
    Hostname.saver_on st1 = true /\
    Hostname.saved st1 = Some (frame_of [1; 2; 3]) /\
    Hostname.activity_phase st1 w1 = (Ok st3, w4) /\
    Hostname.saver_on st3 = false /\
    frame_of (fb_data w4) = frame_of [1; 2; 3].
Proof.
  intros o w st paint.
  destruct (hostname_tick_enters 120 30 paint st w (ev_polled [] w) eq_refl eq_refl)
    as (st1 & w1 & Htick & Hon & Henv & Hqueue & Hreads).
  - vm_compute. reflexivity.
  - vm_compute. reflexivity.
  - intros n. reflexivity.
  - assert (Hpoll : Hostname.touch_event_available w1 = (Ok true, ev_polled [] w1)).
    { unfold Hostname.touch_event_available.
      rewrite poll_with_ok; rewrite ?Henv, ?Hqueue, ?Hreads; reflexivity. }
    destruct (hostname_roundtrip_restore 120 30 paint st st1 st1 w w1 w1
                (ev_polled [] w1) eq_refl Htick Hon
                (Hostname.session_here 120 30 paint (st1, w1)) Hpoll)
      as (Hsaved & _ & w4 & _ & Hact).
    assert (Hok : fb_faulty (env (ev_polled [] w1)) (fb_opens (ev_polled [] w1))
                  = false)
      by (cbn [env ev_polled]; rewrite Henv; reflexivity).
    rewrite Hok in Hact. destruct Hact as (st3 & Hact & Hoff & _ & _ & Hdata).
    exists st1, w1, st3, w4.
    split; [exact Htick | split; [exact Hon | split; [exact Hsaved |]]].
    split; [exact Hact | split; [exact Hoff | exact Hdata]].
Defined.

Section FloatSession.

Variable name : string.
Variable paint : list FloatHostname.Particle -> pyfloat -> image.

Lemma iter_rand_drawn_events k w :
  ev_queue (Nat.iter k rand_drawn w) = ev_queue w /\
  ev_reads (Nat.iter k rand_drawn w) = ev_reads w.
Proof.
  induction k as [| k IH]; [split; reflexivity |].
  cbn [Nat.iter nat_rect]. cbn [rand_drawn ev_queue ev_reads]. exact IH.
Qed.

Lemma float_tick_phases st w st' w' :
  FloatHostname.tick name paint st w = (Ok st', w') ->
  exists st1 w1 st2 w2,
    FloatHostname.activity_phase st w = (Ok st1, w1) /\
    FloatHostname.idle_phase name (clock (env w1) (clock_reads w1)) st1
      (clock_read w1) = (Ok st2, w2) /\
    FloatHostname.render_phase name paint (clock (env w1) (clock_reads w1)) st2 w2
    = (Ok st', w').
Proof.
  intros Hrun. unfold FloatHostname.tick in Hrun. unfold bind at 1 in Hrun.
  destruct (FloatHostname.activity_phase st w) as [[st1 | e] w1] eqn:Hact;
    [| discriminate].
  unfold bind at 1 in Hrun. unfold time_monotonic in Hrun.
  unfold bind at 1 in Hrun.
  destruct (FloatHostname.idle_phase name (clock (env w1) (clock_reads w1)) st1
              (clock_read w1)) as [[st2 | e] w2] eqn:Hidle; [| discriminate].
  exists st1, w1, st2, w2. split; [reflexivity | split; [exact Hidle | exact Hrun]].
Qed.

Lemma float_activity_quiet st w wq :
  touch_event_available w = (Ok false, wq) ->
  FloatHostname.activity_phase st w = (Ok st, wq).
Proof.
  intros Hpoll. unfold FloatHostname.activity_phase, bind. rewrite Hpoll. reflexivity.
Qed.

Lemma float_activity_off st w st' w' :
  FloatHostname.saver_on st = false ->
  FloatHostname.activity_phase st w = (Ok st', w') ->
  FloatHostname.saver_on st' = false /\ fb_data w' = fb_data w.
Proof.
  intros Hoff Hact.
  destruct (poll_with_total scan_events w) as (b & q & Hpoll).
  fold touch_event_available in Hpoll.
  unfold FloatHostname.activity_phase, bind in Hact. rewrite Hpoll in Hact.
  destruct b.
  - unfold time_monotonic in Hact. cbn [FloatHostname.saver_on] in Hact.
    rewrite Hoff in Hact. injection Hact as <- <-. split; reflexivity.
  - injection Hact as <- <-. split; [exact Hoff | reflexivity].
Qed.

(** Updating the particles only draws random numbers. *)
Lemma update_particles_total dt ps : forall w,
  exists ps' k,
    FloatHostname.update_particles name dt ps w = (Ok ps', Nat.iter k rand_drawn w).
Proof.
  induction ps as [| p ps IH]; intros w.
  - exists [], 0%nat. reflexivity.
  - assert (Hp : exists p' k1,
               FloatHostname.update_particle name dt p w
               = (Ok p', Nat.iter k1 rand_drawn w)).
    { unfold FloatHostname.update_particle. destruct (flt _ _).
      - destruct (new_particle_total name w) as (p' & Hp). exists p', 7%nat. exact Hp.
      - eexists _, 0%nat. reflexivity. }
    destruct Hp as (p' & k1 & Hp).
    destruct (IH (Nat.iter k1 rand_drawn w)) as (ps' & k2 & Hps).
    exists (p' :: ps'), (k2 + k1)%nat.
    cbn [FloatHostname.update_particles]. unfold bind at 1. rewrite Hp.
    unfold bind at 1. rewrite Hps. unfold ret.
    rewrite Nat.iter_add. reflexivity.
Qed.

Lemma render_frame_total ps dt w :
  exists ps' hue k,
    FloatHostname.render_frame name paint ps dt w
    = (Ok (ps', rgb888_to_rgb565_bytes (paint ps' hue)),
       wall_read (Nat.iter k rand_drawn w)).
Proof.
  destruct (update_particles_total dt ps w) as (ps' & k & Hupd).
  exists ps'. eexists. exists k.
  unfold FloatHostname.render_frame. unfold bind at 1. rewrite Hupd.
  unfold bind, time_time, ret. reflexivity.
Qed.

(** What a render step does, frame drawn or not. *)
Lemma float_render_effect now st w :
  exists st' w1 frame,
    FloatHostname.saver_on st' = FloatHostname.saver_on st /\
    FloatHostname.saved st' = FloatHostname.saved st /\
    FloatHostname.last_activity st' = FloatHostname.last_activity st /\
    env w1 = env w /\ fb_data w1 = fb_data w /\ fb_opens w1 = fb_opens w /\
    ev_queue w1 = ev_queue w /\ ev_reads w1 = ev_reads w /\
    (FloatHostname.render_phase name paint now st w = (Ok st', w1) \/
     FloatHostname.render_phase name paint now st w
     = if fb_faulty (env w1) (fb_opens w1)
       then (Raise OSError, fb_accessed (fb_data w1) w1)
       else (Ok st', fb_accessed (overwrite frame (fb_data w1)) w1)).
Proof.
  unfold FloatHostname.render_phase.
  destruct (FloatHostname.saver_on st) eqn:Hon;
    [| exists st, w, []; repeat split; [exact Hon | left; reflexivity]].
  destruct (fge now (FloatHostname.next_frame st));
    [| exists st, w, []; repeat split; [exact Hon | left; reflexivity]].
  destruct (render_frame_total (FloatHostname.particles st)
              (FloatHostname.pymax (fl (1 # 1000)) (fsub now (FloatHostname.last_t st))) w)
    as (ps' & hue & k & Hframe).
  eexists _, (wall_read (Nat.iter k rand_drawn w)), _.
  cbn [env fb_data fb_opens ev_queue ev_reads wall_read].
  rewrite iter_rand_drawn_env.
  rewrite (proj1 (iter_rand_drawn_fb k w)), (proj2 (iter_rand_drawn_fb k w)).
  rewrite (proj1 (iter_rand_drawn_events k w)), (proj2 (iter_rand_drawn_events k w)).
  do 8 (split; [shelve |]). right.
  unfold bind at 1. unfold bind at 1. rewrite Hframe. cbn [snd fst].
  unfold bind at 1.
  rewrite fb_write_full by apply rgb888_to_rgb565_bytes_len.
  unfold fb_store. cbn [env fb_data fb_opens wall_read].
  rewrite iter_rand_drawn_env.
  rewrite (proj1 (iter_rand_drawn_fb k w)), (proj2 (iter_rand_drawn_fb k w)).
  destruct (fb_faulty (env w) (fb_opens w)); [reflexivity |].
  unfold sleep, bind, ret. reflexivity.
  Unshelve. all: reflexivity.
Qed.

Lemma float_render_keeps now st w st' w' :
  FloatHostname.render_phase name paint now st w = (Ok st', w') ->
  FloatHostname.saver_on st' = FloatHostname.saver_on st /\
  FloatHostname.saved st' = FloatHostname.saved st /\
  FloatHostname.last_activity st' = FloatHostname.last_activity st /\
  length (fb_data w') = length (fb_data w).
Proof.
  intros Hrun.
  destruct (float_render_effect now st w)
    as (s & w1 & frame & Hon & Hsaved & Hlast & _ & Hdata & _ & _ & _ & [Heq | Heq]);
    rewrite Heq in Hrun.
  - injection Hrun as <- <-. rewrite Hdata. repeat split; assumption.
  - destruct (fb_faulty _ _); [discriminate |]. injection Hrun as <- <-.
    cbn [fb_data fb_accessed]. rewrite overwrite_length, Hdata.
    repeat split; assumption.
Qed.

Lemma float_idle_size now st w st' w' :
  FloatHostname.idle_phase name now st w = (Ok st', w') ->
  length (fb_data w') = length (fb_data w).
Proof.
  unfold FloatHostname.idle_phase.
  destruct (negb (FloatHostname.saver_on st) && fgt _ _);
    [| intros [= _ <-]; reflexivity].
  unfold bind at 1. unfold fb_read. destruct (fb_faulty _ _); [discriminate |].
  destruct (spawn_total name (Z.to_nat FloatHostname.NUM_PARTICLES)
              (fb_accessed (fb_data w) w)) as (ps & Hps & _).
  unfold bind. rewrite Hps. unfold ret. intros Heq.
  apply (f_equal snd) in Heq. cbn [snd] in Heq. rewrite <- Heq.
  rewrite (proj1 (iter_rand_drawn_fb _ _)). reflexivity.
Qed.

Lemma float_activity_size st w st' w' :
  FloatHostname.activity_phase st w = (Ok st', w') ->
  length (fb_data w') = length (fb_data w).
Proof.
  intros Hact.
  destruct (poll_with_total scan_events w) as (b & q & Hpoll).
  fold touch_event_available in Hpoll.
  unfold FloatHostname.activity_phase in Hact. unfold bind at 1 in Hact.
  rewrite Hpoll in Hact.
  destruct b; [| injection Hact as _ <-; reflexivity].
  unfold bind at 1 in Hact. unfold time_monotonic at 1 in Hact.
  cbn [FloatHostname.saver_on FloatHostname.saved] in Hact.
  destruct (FloatHostname.saver_on st); [| injection Hact as _ <-; reflexivity].
  destruct (FloatHostname.saved st) as [buf |].
  - destruct (try_pass_fb_write buf (clock_read (ev_polled q w)))
      as (w2 & Htry & _ & _ & Hsize).
    unfold bind at 1 in Hact. rewrite Htry in Hact.
    unfold bind, time_monotonic, ret in Hact. injection Hact as _ <-.
    cbn [fb_data clock_read]. rewrite Hsize. reflexivity.
  - unfold bind, time_monotonic, ret in Hact. injection Hact as _ <-. reflexivity.
Qed.

Lemma float_tick_size st w st' w' :
  FloatHostname.tick name paint st w = (Ok st', w') ->
  length (fb_data w') = length (fb_data w).
Proof.
  intros Hrun.
  destruct (float_tick_phases st w st' w' Hrun)
    as (sa & wa & si & wi & Hact & Hidle & Hrender).
  destruct (float_render_keeps _ _ _ _ _ Hrender) as (_ & _ & _ & ->).
  rewrite (float_idle_size _ _ _ _ _ Hidle). cbn [fb_data clock_read].
  apply (float_activity_size _ _ _ _ Hact).
Qed.

Lemma float_session_size s1 s2 :
  FloatHostname.session name paint s1 s2 ->
  length (fb_data (snd s2)) = length (fb_data (snd s1)).
Proof.
  induction 1 as [s | st w st1 w1 s2 Hquiet Htick Hrest IH]; [reflexivity |].
  rewrite IH. cbn [snd]. apply (float_tick_size _ _ _ _ Htick).
Qed.

(** The tick that starts the saver saves what the device showed. *)
Lemma float_tick_captures st w st1 w1 :
  FloatHostname.saver_on st = false ->
  FloatHostname.tick name paint st w = (Ok st1, w1) ->
  FloatHostname.saver_on st1 = true ->
  FloatHostname.saved st1 = Some (frame_of (fb_data w)).
Proof.
  intros Hoff Hrun Hon.
  destruct (float_tick_phases st w st1 w1 Hrun)
    as (sa & wa & si & wi & Hact & Hidle & Hrender).
  destruct (float_activity_off st w sa wa Hoff Hact) as (Hoffa & Hdata).
  destruct (float_render_keeps _ _ _ _ _ Hrender) as (Hk & -> & _ & _).
  rewrite Hon in Hk. symmetry in Hk.
  set (now := clock (env wa) (clock_reads wa)) in *.
  destruct (sumbool_of_bool (fgt (fsub now (FloatHostname.last_activity sa)) (of_Z FloatHostname.IDLE_SEC)))
      as [Hgt | Hle].
  - destruct (fb_faulty (env (clock_read wa)) (fb_opens (clock_read wa))) eqn:Hbad.
    + rewrite (float_idle_fault name now sa _ Hoffa Hgt Hbad) in Hidle. discriminate.
    + destruct (float_idle_enter name now sa _ Hoffa Hgt Hbad) as (ps & _ & _ & Heq).
      rewrite Heq in Hidle. injection Hidle as <- _.
      cbn [FloatHostname.saved fb_data clock_read]. rewrite Hdata. reflexivity.
  - rewrite float_idle_stay in Hidle by (right; exact Hle).
    injection Hidle as <- _. congruence.
Qed.

(** A quiet tick keeps the saver on and the saved frame as it is. *)
Lemma float_quiet_tick_keeps st w st1 w1 :
  FloatHostname.quiet w ->
  FloatHostname.tick name paint st w = (Ok st1, w1) ->
  FloatHostname.saver_on st = true ->
  FloatHostname.saver_on st1 = true /\
  FloatHostname.saved st1 = FloatHostname.saved st /\
  FloatHostname.last_activity st1 = FloatHostname.last_activity st.
Proof.
  intros Hquiet Hrun Hon.
  destruct (float_tick_phases st w st1 w1 Hrun)
    as (sa & wa & si & wi & Hact & Hidle & Hrender).
  unfold FloatHostname.quiet in Hquiet.
  destruct (touch_event_available w) as [r wq] eqn:Hpoll.
  simpl in Hquiet. subst r.
  rewrite (float_activity_quiet st w wq Hpoll) in Hact. injection Hact as <- <-.
  rewrite float_idle_stay in Hidle by (left; exact Hon). injection Hidle as <- <-.
  destruct (float_render_keeps _ _ _ _ _ Hrender) as (-> & -> & -> & _).
  repeat split. exact Hon.
Qed.

Lemma float_session_keeps s1 s2 :
  FloatHostname.session name paint s1 s2 ->
  FloatHostname.saver_on (fst s1) = true ->
  FloatHostname.saver_on (fst s2) = true /\
  FloatHostname.saved (fst s2) = FloatHostname.saved (fst s1) /\
  FloatHostname.last_activity (fst s2) = FloatHostname.last_activity (fst s1).
Proof.
  induction 1 as [s | st w st1 w1 s2 Hquiet Htick Hrest IH]; intros Hon.
  - repeat split. exact Hon.
  - cbn [fst] in *.
    destruct (float_quiet_tick_keeps st w st1 w1 Hquiet Htick Hon)
      as (Hon1 & <- & <-).
    apply IH. exact Hon1.
Qed.

(** A touch with the saver on and a full frame saved: the frame is written
    back, unless the device refuses, and the saver is off either way. *)
Lemma float_activity_restore st w w1 frame :
  touch_event_available w = (Ok true, w1) ->
  FloatHostname.saver_on st = true ->
  FloatHostname.saved st = Some frame ->
  len frame = FRAME_BYTES ->
  exists st',
    FloatHostname.saver_on st' = false /\ FloatHostname.saved st' = None /\
    FloatHostname.particles st' = FloatHostname.particles st /\
    FloatHostname.activity_phase st w
    = (Ok st',
       clock_read
         (if fb_faulty (env w1) (fb_opens w1)
          then fb_accessed (fb_data w1) (clock_read w1)
          else fb_accessed (overwrite frame (fb_data w1)) (clock_read w1))).
Proof.
  intros Hpoll Hon Hsaved Hlen. unfold FloatHostname.activity_phase, bind.
  rewrite Hpoll. unfold time_monotonic at 1.
  cbn [FloatHostname.saver_on FloatHostname.saved]. rewrite Hon, Hsaved.
  unfold try_pass. rewrite fb_write_full by exact Hlen.
  unfold fb_store. cbn [env fb_opens clock_read fb_data].
  destruct (fb_faulty (env w1) (fb_opens w1));
    unfold time_monotonic, ret;
    (eexists; split; [| split; [| split; [| reflexivity]]]; reflexivity).
Qed.

(** A quiet tick of a loop that has been idle long enough starts the
    saver, when the device works. *)
Lemma float_tick_enters st w wq :
  touch_event_available w = (Ok false, wq) ->
  FloatHostname.saver_on st = false ->
  let now := clock (env wq) (clock_reads wq) in
  fgt (fsub now (FloatHostname.last_activity st)) (of_Z FloatHostname.IDLE_SEC) = true ->
  (forall n, fb_faulty (env wq) n = false) ->
  exists st1 w1,
    FloatHostname.tick name paint st w = (Ok st1, w1) /\
    FloatHostname.saver_on st1 = true /\
    env w1 = env wq /\ ev_queue w1 = ev_queue wq /\ ev_reads w1 = ev_reads wq.
Proof.
  intros Hpoll Hoff now Hgt Hok.
  unfold FloatHostname.tick. unfold bind at 1.
  rewrite (float_activity_quiet st w wq Hpoll).
  unfold bind at 1. unfold time_monotonic. fold now.
  unfold bind at 1.
  destruct (float_idle_enter name now st (clock_read wq) Hoff Hgt (Hok _))
    as (ps & _ & _ & Hidle).
  rewrite Hidle.
  match goal with
  | |- context [FloatHostname.render_phase name paint now ?s ?v] =>
      destruct (float_render_effect now s v)
        as (st1 & w1 & frame & Hon & _ & _ & Henv & _ & _ & Hq & Hr & [Heq | Heq]);
      rewrite Heq
  end.
  - exists st1, w1. split; [reflexivity |]. split; [exact Hon |].
    rewrite Henv, Hq, Hr, iter_rand_drawn_env.
    rewrite (proj1 (iter_rand_drawn_events _ _)), (proj2 (iter_rand_drawn_events _ _)).
    repeat split.
  - rewrite Henv, iter_rand_drawn_env. cbn [env fb_accessed clock_read].
    rewrite Hok. eexists _, _. split; [reflexivity |]. split; [exact Hon |].
    cbn [env ev_queue ev_reads fb_accessed].
    rewrite Henv, Hq, Hr, iter_rand_drawn_env.
    rewrite (proj1 (iter_rand_drawn_events _ _)), (proj2 (iter_rand_drawn_events _ _)).
    repeat split.
Qed.

End FloatSession.

(** X23. Round trip in the loop of the floating host names.  Let a tick
    take the loop from saver off to saver on, and let quiet ticks follow
    until a poll reports a touch.  The saved buffer is then still the frame
    [F] that the device showed at the transition, a full frame; the
    activity step of the touch tick completes with the saver off, nothing
    saved and the particles as they were, and, unless the device refuses
    the write, leaves the device reading [F] byte for byte. *)
Theorem float_roundtrip_restore (name : string)
    (paint : list FloatHostname.Particle -> pyfloat -> image)
    (st st1 st2 : FloatHostname.state) (w w1 w2 w3 : world) :
  FloatHostname.saver_on st = false ->
  FloatHostname.tick name paint st w = (Ok st1, w1) ->
  FloatHostname.saver_on st1 = true ->
  FloatHostname.session name paint (st1, w1) (st2, w2) ->
  touch_event_available w2 = (Ok true, w3) ->
  let F := frame_of (fb_data w) in
  FloatHostname.saved st2 = Some F /\
  len F = FRAME_BYTES /\
  exists st3 w4,
    FloatHostname.activity_phase st2 w2 = (Ok st3, w4) /\
    FloatHostname.saver_on st3 = false /\ FloatHostname.saved st3 = None /\
    FloatHostname.particles st3 = FloatHostname.particles st2 /\
    (fb_faulty (env w3) (fb_opens w3) = false ->
     fb_data w4 = overwrite F (fb_data w3) /\
     frame_of (fb_data w4) = F).
Proof.
  intros Hoff Htick Hon Hsession Hpoll F.
  pose proof (float_tick_captures name paint st w st1 w1 Hoff Htick Hon) as Hsaved1.
  destruct (float_session_keeps name paint _ _ Hsession Hon)
    as (Hon2 & Hsaved2 & _).
  cbn [fst] in Hon2, Hsaved2. rewrite Hsaved1 in Hsaved2. fold F in Hsaved2.
  assert (Hlen : len F = FRAME_BYTES) by apply frame_of_len.
  split; [exact Hsaved2 | split; [exact Hlen |]].
  destruct (float_activity_restore st2 w2 w3 F Hpoll Hon2 Hsaved2 Hlen)
    as (st3 & Hoff3 & Hnone & Hparts & Hact).
  eexists st3, _. split; [exact Hact |].
  split; [exact Hoff3 | split; [exact Hnone | split; [exact Hparts |]]].
  intros Hok. rewrite Hok. cbn [fb_data fb_accessed clock_read].
  split; [reflexivity |]. apply frame_of_restore.
  destruct (poll_with_total scan_events w2) as (b & q & Hpoll').
  fold touch_event_available in Hpoll'. rewrite Hpoll in Hpoll'.
  injection Hpoll' as _ ->. cbn [fb_data ev_polled].
  pose proof (float_session_size name paint _ _ Hsession) as Hsize.
  cbn [snd] in Hsize. rewrite Hsize.
  apply (float_tick_size name paint _ _ _ _ Htick).
Qed.

(** The loop idle for 700 seconds over a device that delivers three
    bytes: the first tick starts the saver, and a touch arrives before the
    second poll. *)
Lemma float_roundtrip_restore_witness :
  let o := touch_before 1 (sample_oracle false (seconds_from 700)) in
  let w := sample_world o [1; 2; 3] [] in
  let st := {| FloatHostname.last_activity := Fin 0;
               FloatHostname.saver_on := false;
               FloatHostname.saved := None;
               FloatHostname.particles := [];
               FloatHostname.last_t := Fin 0;
               FloatHostname.next_frame := Fin 0 |} in
  let paint := fun (_ : list FloatHostname.Particle) (_ : pyfloat) (_ _ : Z) =>
                 (0, 0, 0) in
  exists st1 w1 st3 w4,
    FloatHostname.tick "pi" paint st w = (Ok st1, w1) /\
    FloatHostname.saver_on st1 = true /\
    FloatHostname.saved st1 = Some (frame_of [1; 2; 3]) /\
    FloatHostname.activity_phase st1 w1 = (Ok st3, w4) /\
    FloatHostname.saver_on st3 = false /\
    frame_of (fb_data w4) = frame_of [1; 2; 3].
Proof.
  intros o w st paint.
  destruct (float_tick_enters "pi" paint st w (ev_polled [] w) eq_refl eq_refl)
    as (st1 & w1 & Htick & Hon & Henv & Hqueue & Hreads).
  - vm_compute. reflexivity.
  - intros n. reflexivity.
  - assert (Hpoll : touch_event_available w1 = (Ok true, ev_polled [] w1)).
    { unfold touch_event_available.
      rewrite poll_with_ok; rewrite ?Henv, ?Hqueue, ?Hreads; reflexivity. }
    destruct (float_roundtrip_restore "pi" paint st st1 st1 w w1 w1
                (ev_polled [] w1) eq_refl Htick Hon
                (FloatHostname.session_here "pi" paint (st1, w1)) Hpoll)
      as (Hsaved & _ & st3 & w4 & Hact & Hoff & _ & _ & Hdata).
    exists st1, w1, st3, w4.
    split; [exact Htick | split; [exact Hon | split; [exact Hsaved |]]].
    split; [exact Hact | split; [exact Hoff |]].
    apply Hdata. cbn [env fb_opens ev_polled]. rewrite Henv. reflexivity.
Defined.

(** ** One poll of the touch device for each iteration *)

Section Polls.

Lemma keeps_ret {A} (a : A) : keeps_reads (ret a).
Proof. intros w. reflexivity. Qed.

Lemma keeps_bind {A B} (m : M A) (k : A -> M B) :
  keeps_reads m -> (forall a, keeps_reads (k a)) -> keeps_reads (bind m k).
Proof.
  intros Hm Hk w. unfold bind. specialize (Hm w).
  destruct (m w) as [[a | e] w1]; cbn [snd] in *; [| exact Hm].
  rewrite (Hk a w1). exact Hm.
Qed.

Lemma polls_bind {A B} (m : M A) (k : A -> M B) :
  polls_once m -> (forall a, keeps_reads (k a)) -> polls_once (bind m k).
Proof.
  intros Hm Hk w. unfold bind. specialize (Hm w).
  destruct (m w) as [[a | e] w1]; cbn [snd] in *; [| exact Hm].
  rewrite (Hk a w1). exact Hm.
Qed.

Lemma keeps_after_poll {A B} (m : M A) (k : A -> M B) :
  keeps_reads m -> (forall a, polls_once (k a)) ->
  forall w a w1, m w = (Ok a, w1) -> ev_reads (snd (bind m k w)) = S (ev_reads w).
Proof.
  intros Hm Hk w a w1 Heq. unfold bind. specialize (Hm w). rewrite Heq in *.
  cbn [snd] in Hm. rewrite (Hk a w1), Hm. reflexivity.
Qed.

Lemma keeps_try_pass (m : M unit) : keeps_reads m -> keeps_reads (try_pass m).
Proof.
  intros Hm w. unfold try_pass. specialize (Hm w).
  destruct (m w) as [[a | e] w1]; exact Hm.
Qed.

Lemma keeps_time_monotonic : keeps_reads time_monotonic.
Proof. intros w. reflexivity. Qed.

Lemma keeps_time_time : keeps_reads time_time.
Proof. intros w. reflexivity. Qed.

Lemma keeps_sleep d : keeps_reads (sleep d).
Proof. intros w. reflexivity. Qed.

Lemma keeps_random_uniform a b : keeps_reads (random_uniform a b).
Proof. intros w. reflexivity. Qed.

Lemma keeps_random_randint a b : keeps_reads (random_randint a b).
Proof. intros w. reflexivity. Qed.

Lemma keeps_fb_read : keeps_reads fb_read.
Proof. intros w. unfold fb_read. destruct (fb_faulty _ _); reflexivity. Qed.

Lemma keeps_fb_store buf : keeps_reads (fb_store buf).
Proof. intros w. unfold fb_store. destruct (fb_faulty _ _); reflexivity. Qed.

Lemma keeps_fb_store_none : keeps_reads fb_store_none.
Proof. intros w. unfold fb_store_none. destruct (fb_faulty _ _); reflexivity. Qed.

Lemma keeps_fb_write buf : keeps_reads (fb_write buf).
Proof.
  intros w. unfold fb_write. destruct (negb _); [reflexivity |].
  apply keeps_fb_store.
Qed.

Lemma polls_poll_with loop : polls_once (poll_with loop).
Proof.
  intros w. destruct (poll_with_total loop w) as (b & q & ->). reflexivity.
Qed.

End Polls.

Ltac keeps_step :=
  lazymatch goal with
  | |- keeps_reads (bind _ _) => apply keeps_bind; [| intros ?]
  | |- keeps_reads (ret _) => apply keeps_ret
  | |- keeps_reads time_monotonic => apply keeps_time_monotonic
  | |- keeps_reads time_time => apply keeps_time_time
  | |- keeps_reads (sleep _) => apply keeps_sleep
  | |- keeps_reads (random_uniform _ _) => apply keeps_random_uniform
  | |- keeps_reads (random_randint _ _) => apply keeps_random_randint
  | |- keeps_reads fb_read => apply keeps_fb_read
  | |- keeps_reads (fb_write _) => apply keeps_fb_write
  | |- keeps_reads (fb_store _) => apply keeps_fb_store
  | |- keeps_reads fb_store_none => apply keeps_fb_store_none
  | |- keeps_reads (try_pass _) => apply keeps_try_pass
  | |- keeps_reads (if ?b then _ else _) => destruct b
  | |- keeps_reads (match ?x with Some _ => _ | None => _ end) => destruct x
  end.

Ltac keeps := repeat keeps_step.

Section PollsOfTheLoops.

Lemma keeps_new_particle name : keeps_reads (FloatHostname.new_particle name).
Proof. unfold FloatHostname.new_particle. keeps. Qed.

Lemma keeps_spawn name n : keeps_reads (FloatHostname.spawn name n).
Proof.
  induction n as [| n IH]; cbn [FloatHostname.spawn]; [apply keeps_ret |].
  apply keeps_bind; [apply keeps_new_particle | intros p].
  apply keeps_bind; [exact IH | intros ps]. apply keeps_ret.
Qed.

Lemma keeps_update_particles name dt ps :
  keeps_reads (FloatHostname.update_particles name dt ps).
Proof.
  induction ps as [| p ps IH]; cbn [FloatHostname.update_particles];
    [apply keeps_ret |].
  apply keeps_bind; [| intros p'].
  - unfold FloatHostname.update_particle. cbv zeta.
    destruct (flt _ _); [apply keeps_new_particle | apply keeps_ret].
  - apply keeps_bind; [exact IH | intros ps']. apply keeps_ret.
Qed.

Lemma keeps_render_frame name paint ps dt :
  keeps_reads (FloatHostname.render_frame name paint ps dt).
Proof.
  unfold FloatHostname.render_frame.
  apply keeps_bind; [apply keeps_update_particles | intros ps']. keeps.
Qed.

Lemma text3d_tick_polls tw th paint st : polls_once (Text3D.tick tw th paint st).
Proof.
  unfold Text3D.tick. apply polls_bind.
  - unfold Text3D.activity_phase. apply polls_bind; [apply polls_poll_with |].
    intros b. cbv zeta. cbn [Text3D.saver_on Text3D.saved]. keeps.
  - intros sa. apply keeps_bind; [apply keeps_time_monotonic | intros now].
    apply keeps_bind; [| intros si].
    + unfold Text3D.idle_phase. keeps.
    + unfold Text3D.render_phase.
      destruct (Text3D.saver_on si); [| keeps].
      apply keeps_bind; [| intros s; keeps].
      destruct (fge _ _); [| apply keeps_ret].
      destruct (Text3D.bounce tw th (Text3D.sprite si)) as [[[x1 y1] vx1] vy1].
      cbv zeta. keeps.
Qed.

Lemma float_tick_polls name paint st :
  polls_once (FloatHostname.tick name paint st).
Proof.
  unfold FloatHostname.tick. apply polls_bind.
  - unfold FloatHostname.activity_phase. apply polls_bind; [apply polls_poll_with |].
    intros b. cbv zeta. cbn [FloatHostname.saver_on FloatHostname.saved]. keeps.
  - intros sa. apply keeps_bind; [apply keeps_time_monotonic | intros now].
    apply keeps_bind; [| intros si].
    + unfold FloatHostname.idle_phase.
      destruct (negb _ && _); [| apply keeps_ret].
      apply keeps_bind; [apply keeps_fb_read | intros buf].
      apply keeps_bind; [apply keeps_spawn | intros ps]. apply keeps_ret.
    + unfold FloatHostname.render_phase.
      destruct (FloatHostname.saver_on si); [| keeps].
      apply keeps_bind; [| intros s; keeps].
      destruct (fge _ _); [| apply keeps_ret]. cbv zeta.
      apply keeps_bind; [apply keeps_render_frame | intros r]. keeps.
Qed.

Lemma hostname_tick_polls tw th paint st :
  polls_once (Hostname.tick tw th paint st).
Proof.
  unfold Hostname.tick. apply polls_bind.
  - unfold Hostname.activity_phase. apply polls_bind; [apply polls_poll_with |].
    intros b. cbv zeta. cbn [Hostname.saver_on Hostname.saved].
    unfold Hostname.fb_write. keeps.
  - intros sa. apply keeps_bind; [apply keeps_time_monotonic | intros now].
    apply keeps_bind; [| intros si].
    + unfold Hostname.idle_phase. keeps.
    + unfold Hostname.render_phase, Hostname.fb_write. keeps.
Qed.

End PollsOfTheLoops.

(** X24. One poll for each iteration.  Whatever its outcome, a state or an
    exception, an iteration of the loop of any of the three scripts has
    read the touch device exactly once. *)
Theorem tick_polls_once :
  (forall tw th paint (st : Text3D.state) (w : world),
     ev_reads (snd (Text3D.tick tw th paint st w)) = S (ev_reads w)) /\
  (forall name paint (st : FloatHostname.state) (w : world),
     ev_reads (snd (FloatHostname.tick name paint st w)) = S (ev_reads w)) /\
  (forall tw th paint (st : Hostname.state) (w : world),
     ev_reads (snd (Hostname.tick tw th paint st w)) = S (ev_reads w)).
Proof.
  split; [| split]; intros.
  - apply text3d_tick_polls.
  - apply float_tick_polls.
  - apply hostname_tick_polls.
Qed.

(** X25. A run of [n] iterations that completes has read the touch device
    [n] times, in each of the three scripts: no iteration is skipped and
    none polls twice. *)
Theorem run_polls_each_iteration :
  (forall tw th paint (n : nat) (st st' : Text3D.state) (w w' : world),
     Text3D.run tw th paint n st w = (Ok st', w') ->
     ev_reads w' = (n + ev_reads w)%nat) /\
  (forall name paint (n : nat) (st st' : FloatHostname.state) (w w' : world),
     FloatHostname.run name paint n st w = (Ok st', w') ->
     ev_reads w' = (n + ev_reads w)%nat) /\
  (forall tw th paint (n : nat) (st st' : Hostname.state) (w w' : world),
     Hostname.run tw th paint n st w = (Ok st', w') ->
     ev_reads w' = (n + ev_reads w)%nat).
Proof.
  split; [| split].
  - intros tw th paint n. induction n as [| n IH]; intros st st' w w' Hrun.
    + injection Hrun as _ <-. reflexivity.
    + cbn [Text3D.run] in Hrun. unfold bind at 1 in Hrun.
      pose proof (text3d_tick_polls tw th paint st w) as Hpoll.
      destruct (Text3D.tick tw th paint st w) as [[st1 | e] w1]; [| discriminate].
      cbn [snd] in Hpoll. rewrite (IH _ _ _ _ Hrun), Hpoll. lia.
  - intros name paint n. induction n as [| n IH]; intros st st' w w' Hrun.
    + injection Hrun as _ <-. reflexivity.
    + cbn [FloatHostname.run] in Hrun. unfold bind at 1 in Hrun.
      pose proof (float_tick_polls name paint st w) as Hpoll.
      destruct (FloatHostname.tick name paint st w) as [[st1 | e] w1];
        [| discriminate].
      cbn [snd] in Hpoll. rewrite (IH _ _ _ _ Hrun), Hpoll. lia.
  - intros tw th paint n. induction n as [| n IH]; intros st st' w w' Hrun.
    + injection Hrun as _ <-. reflexivity.
    + cbn [Hostname.run] in Hrun. unfold bind at 1 in Hrun.
      pose proof (hostname_tick_polls tw th paint st w) as Hpoll.
      destruct (Hostname.tick tw th paint st w) as [[st1 | e] w1]; [| discriminate].
      cbn [snd] in Hpoll. rewrite (IH _ _ _ _ Hrun), Hpoll. lia.
Qed.

(** Three iterations of the 3D text while awake. *)
Lemma run_polls_each_iteration_witness :
  let w := sample_world (sample_oracle false (seconds_from 0)) [1; 2; 3] [] in
  let st := {| Text3D.last_activity := Fin 0; Text3D.saver_on := false;
               Text3D.saved := None; Text3D.x := fl 40; Text3D.y := fl 80;
               Text3D.vx := fl (26 # 10); Text3D.vy := fl (19 # 10);
               Text3D.next_frame := Fin 0; Text3D.t0 := Fin 0 |} in
  let paint := fun (_ _ _ : pyfloat) (_ _ : Z) => (0, 0, 0) in
  exists st' w',
    Text3D.run 300 70 paint 3 st w = (Ok st', w') /\ ev_reads w' = 3%nat.
Proof.
  intros w st paint.
  assert (Hrun : exists st' w', Text3D.run 300 70 paint 3 st w = (Ok st', w'))
    by (eexists _, _; vm_compute; reflexivity).
  destruct Hrun as (st' & w' & Hrun).
  exists st', w'. split; [exact Hrun |].
  exact (proj1 run_polls_each_iteration 300 70 paint 3%nat st st' w w' Hrun).
Defined.

(** ** The two polls *)

(** X26. The poll of the host name script against the poll of the other
    two.  On any world both consume the same read of the touch device, and
    whenever the poll that looks at the event types reports a touch, the
    poll that takes any event for one reports it as well. *)
Theorem hostname_poll_covers_touch_poll (w : world) :
  snd (Hostname.touch_event_available w) = snd (touch_event_available w) /\
  (fst (touch_event_available w) = Ok true ->
   fst (Hostname.touch_event_available w) = Ok true).
Proof.
  unfold Hostname.touch_event_available, touch_event_available, poll_with.
  destruct (dev_read w) as [[evs | e] w1].
  - split; [reflexivity |]. cbn [fst].
    destruct evs as [| ev rest]; [discriminate | reflexivity].
  - destruct e; split; try reflexivity; cbn [fst]; intros Heq; exact Heq.
Qed.

(** A touch-down report waiting in the queue. *)
Lemma hostname_poll_covers_touch_poll_witness :
  let w := sample_world (sample_oracle false (seconds_from 0)) []
             [abs_event; syn_event] in
  fst (touch_event_available w) = Ok true /\
  fst (Hostname.touch_event_available w) = Ok true.
Proof.
  intros w. split; [reflexivity |].
  exact (proj2 (hostname_poll_covers_touch_poll w) eq_refl).
Defined.

(** ** The first frame *)

Section FirstFrame.

Lemma text3d_activity_awake st w st' w' :
  Text3D.saver_on st = false ->
  Text3D.activity_phase st w = (Ok st', w') ->
  fb_opens w' = fb_opens w /\ env w' = env w.
Proof.
  intros Hoff Hrun. destruct (poll_with_total scan_events w) as (b & q & Hpoll).
  fold touch_event_available in Hpoll.
  unfold Text3D.activity_phase, bind in Hrun. rewrite Hpoll in Hrun.
  destruct b.
  - unfold time_monotonic in Hrun. cbn [Text3D.saver_on] in Hrun.
    rewrite Hoff in Hrun. injection Hrun as _ <-. split; reflexivity.
  - injection Hrun as _ <-. split; reflexivity.
Qed.

Lemma float_activity_awake st w st' w' :
  FloatHostname.saver_on st = false ->
  FloatHostname.activity_phase st w = (Ok st', w') ->
  fb_opens w' = fb_opens w /\ env w' = env w.
Proof.
  intros Hoff Hrun. destruct (poll_with_total scan_events w) as (b & q & Hpoll).
  fold touch_event_available in Hpoll.
  unfold FloatHostname.activity_phase, bind in Hrun. rewrite Hpoll in Hrun.
  destruct b.
  - unfold time_monotonic in Hrun. cbn [FloatHostname.saver_on] in Hrun.
    rewrite Hoff in Hrun. injection Hrun as _ <-. split; reflexivity.
  - injection Hrun as _ <-. split; reflexivity.
Qed.

Lemma hostname_activity_awake st w st' w' :
  Hostname.saver_on st = false ->
  Hostname.activity_phase st w = (Ok st', w') ->
  fb_opens w' = fb_opens w /\ env w' = env w.
Proof.
  intros Hoff Hrun.
  destruct (poll_with_total Hostname.first_event w) as (b & q & Hpoll).
  fold Hostname.touch_event_available in Hpoll.
  unfold Hostname.activity_phase, bind in Hrun. rewrite Hpoll in Hrun.
  destruct b.
  - unfold time_monotonic in Hrun. cbn [Hostname.saver_on] in Hrun.
    rewrite Hoff in Hrun. injection Hrun as _ <-. split; reflexivity.
  - injection Hrun as _ <-. split; reflexivity.
Qed.

(** A due frame of the floating host names. *)
Lemma float_render_due name paint now st w :
  FloatHostname.saver_on st = true ->
  fge now (FloatHostname.next_frame st) = true ->
  exists st' frame w1,
    len frame = FRAME_BYTES /\
    fb_data w1 = fb_data w /\ fb_opens w1 = fb_opens w /\ env w1 = env w /\
    FloatHostname.render_phase name paint now st w
    = if fb_faulty (env w) (fb_opens w)
      then (Raise OSError, fb_accessed (fb_data w1) w1)
      else (Ok st', fb_accessed (overwrite frame (fb_data w1)) w1).
Proof.
  intros Hon Hdue. unfold FloatHostname.render_phase. rewrite Hon.
  rewrite Hdue.
  destruct (render_frame_total name paint (FloatHostname.particles st)
              (FloatHostname.pymax (fl (1 # 1000)) (fsub now (FloatHostname.last_t st))) w)
    as (ps' & hue & k & Hframe).
  eexists _, (rgb888_to_rgb565_bytes (paint ps' hue)),
    (wall_read (Nat.iter k rand_drawn w)).
  split; [apply rgb888_to_rgb565_bytes_len |].
  cbn [env fb_data fb_opens wall_read].
  split; [apply (proj1 (iter_rand_drawn_fb k w)) |].
  split; [apply (proj2 (iter_rand_drawn_fb k w)) |].
  split; [apply iter_rand_drawn_env |].
  unfold bind at 1. unfold bind at 1. rewrite Hframe. cbn [snd fst].
  unfold bind at 1.
  rewrite fb_write_full by apply rgb888_to_rgb565_bytes_len.
  unfold fb_store. cbn [env fb_data fb_opens wall_read].
  rewrite iter_rand_drawn_env, (proj2 (iter_rand_drawn_fb k w)).
  destruct (fb_faulty (env w) (fb_opens w)); [reflexivity |].
  unfold sleep, bind, ret. reflexivity.
Qed.

End FirstFrame.

(** X27. The first frame.  When the clock never reads below zero, the
    tick that starts the saver also draws its first frame, in each of the
    three scripts: the device is opened twice, once to save what it shows
    and once to write a full frame of [FRAME_BYTES] bytes over it, and what
    is saved is what the device held before that frame, not the frame. *)
Theorem first_frame_with_saver_start :
  (forall tw th paint (st st1 : Text3D.state) (w w1 : world),
     (forall n, fge (clock (env w) n) (Fin 0) = true) ->
     Text3D.saver_on st = false ->
     Text3D.tick tw th paint st w = (Ok st1, w1) ->
     Text3D.saver_on st1 = true ->
     exists frame,
       len frame = FRAME_BYTES /\
       fb_data w1 = overwrite frame (fb_data w) /\
       fb_opens w1 = S (S (fb_opens w)) /\
       Text3D.saved st1 = Some (frame_of (fb_data w))) /\
  (forall name paint (st st1 : FloatHostname.state) (w w1 : world),
     (forall n, fge (clock (env w) n) (Fin 0) = true) ->
     FloatHostname.saver_on st = false ->
     FloatHostname.tick name paint st w = (Ok st1, w1) ->
     FloatHostname.saver_on st1 = true ->
     exists frame,
       len frame = FRAME_BYTES /\
       fb_data w1 = overwrite frame (fb_data w) /\
       fb_opens w1 = S (S (fb_opens w)) /\
       FloatHostname.saved st1 = Some (frame_of (fb_data w))) /\
  (forall tw th paint (st st1 : Hostname.state) (w w1 : world),
     (forall n, fge (clock (env w) n) (Fin 0) = true) ->
     Hostname.saver_on st = false ->
     Hostname.tick tw th paint st w = (Ok st1, w1) ->
     Hostname.saver_on st1 = true ->
     exists frame,
       len frame = FRAME_BYTES /\
       fb_data w1 = overwrite frame (fb_data w) /\
       fb_opens w1 = S (S (fb_opens w)) /\
       Hostname.saved st1 = Some (frame_of (fb_data w))).
Proof.
  split; [| split].
  - intros tw th paint st st1 w w1 Hclk Hoff Hrun Hon.
    pose proof (text3d_tick_captures tw th paint st w st1 w1 Hoff Hrun Hon) as Hsaved.
    destruct (text3d_tick_phases tw th paint st w st1 w1 Hrun)
      as (sa & wa & si & wi & Hact & Hidle & Hrender).
    destruct (text3d_activity_off st w sa wa Hoff Hact) as (Hoffa & Hdata).
    destruct (text3d_activity_awake st w sa wa Hoff Hact) as (Hopens & Henv).
    assert (Hpos : fge (clock (env wa) (clock_reads wa)) (Fin 0) = true)
      by (rewrite Henv; apply Hclk).
    set (now := clock (env wa) (clock_reads wa)) in *.
    destruct (sumbool_of_bool (fgt (fsub now (Text3D.last_activity sa)) (of_Z Text3D.IDLE_SEC)))
      as [Hgt | Hle].
    + rewrite (text3d_idle_enter now sa _ Hoffa Hgt) in Hidle.
      cbn [env fb_opens fb_data clock_read] in Hidle.
      destruct (fb_faulty (env wa) (fb_opens wa)); [discriminate |].
      injection Hidle as <- <-.
      match type of Hrender with
      | Text3D.render_phase _ _ _ _ ?s ?v = _ =>
          destruct (text3d_render_due tw th paint now s v eq_refl Hpos)
            as (frame & Hlen & Heq)
      end.
      rewrite Heq in Hrender. destruct (fb_faulty _ _); [discriminate |].
      injection Hrender as _ <-. exists frame.
      cbn [fb_data fb_opens fb_accessed clock_read]. rewrite Hdata, Hopens.
      split; [exact Hlen | split; [reflexivity | split; [reflexivity | exact Hsaved]]].
    + rewrite text3d_idle_stay in Hidle by (right; exact Hle).
      injection Hidle as <- <-.
      rewrite text3d_render_off in Hrender by exact Hoffa.
      injection Hrender as <- _. congruence.
  - intros name paint st st1 w w1 Hclk Hoff Hrun Hon.
    pose proof (float_tick_captures name paint st w st1 w1 Hoff Hrun Hon) as Hsaved.
    destruct (float_tick_phases name paint st w st1 w1 Hrun)
      as (sa & wa & si & wi & Hact & Hidle & Hrender).
    destruct (float_activity_off st w sa wa Hoff Hact) as (Hoffa & Hdata).
    destruct (float_activity_awake st w sa wa Hoff Hact) as (Hopens & Henv).
    assert (Hpos : fge (clock (env wa) (clock_reads wa)) (Fin 0) = true)
      by (rewrite Henv; apply Hclk).
    set (now := clock (env wa) (clock_reads wa)) in *.
    destruct (sumbool_of_bool (fgt (fsub now (FloatHostname.last_activity sa)) (of_Z FloatHostname.IDLE_SEC)))
      as [Hgt | Hle].
    + destruct (fb_faulty (env (clock_read wa)) (fb_opens (clock_read wa))) eqn:Hbad.
      * rewrite (float_idle_fault name now sa _ Hoffa Hgt Hbad) in Hidle. discriminate.
      * destruct (float_idle_enter name now sa _ Hoffa Hgt Hbad) as (ps & _ & _ & Heq).
        rewrite Heq in Hidle. apply (f_equal fst) in Hidle as Hsi.
        apply (f_equal snd) in Hidle as Hwi. cbn [fst snd] in Hsi, Hwi.
        injection Hsi as Hsi.
        assert (Honi : FloatHostname.saver_on si = true) by (rewrite <- Hsi; reflexivity).
        assert (Hdue : fge now (FloatHostname.next_frame si) = true)
          by (rewrite <- Hsi; exact Hpos).
        destruct (float_render_due name paint now si wi Honi Hdue)
          as (s' & frame & w2 & Hlen & Hd2 & Ho2 & _ & Hr).
        rewrite Hr in Hrender. destruct (fb_faulty _ _); [discriminate |].
        injection Hrender as _ <-. exists frame.
        cbn [fb_data fb_opens fb_accessed]. rewrite Hd2, Ho2, <- Hwi.
        rewrite (proj1 (iter_rand_drawn_fb _ _)), (proj2 (iter_rand_drawn_fb _ _)).
        cbn [fb_data fb_opens fb_accessed clock_read]. rewrite Hdata, Hopens.
        split; [exact Hlen | split; [reflexivity | split; [reflexivity | exact Hsaved]]].
    + rewrite float_idle_stay in Hidle by (right; exact Hle).
      injection Hidle as <- <-.
      rewrite float_render_off in Hrender by exact Hoffa.
      injection Hrender as <- _. congruence.
  - intros tw th paint st st1 w w1 Hclk Hoff Hrun Hon.
    pose proof (hostname_tick_captures tw th paint st w st1 w1 Hoff Hrun Hon) as Hsaved.
    destruct (hostname_tick_phases tw th paint st w st1 w1 Hrun)
      as (sa & wa & si & wi & Hact & Hidle & Hrender).
    destruct (hostname_activity_off st w sa wa Hoff Hact) as (Hoffa & Hdata).
    destruct (hostname_activity_awake st w sa wa Hoff Hact) as (Hopens & Henv).
    assert (Hpos : fge (clock (env wa) (clock_reads wa)) (Fin 0) = true)
      by (rewrite Henv; apply Hclk).
    set (now := clock (env wa) (clock_reads wa)) in *.
    destruct (sumbool_of_bool (fgt (fsub now (Hostname.last_activity sa)) (of_Z Hostname.IDLE_SEC)))
      as [Hgt | Hle].
    + rewrite (hostname_idle_enter now sa _ Hoffa Hgt) in Hidle.
      cbn [env fb_opens fb_data clock_read] in Hidle.
      destruct (fb_faulty (env wa) (fb_opens wa)); [discriminate |].
      injection Hidle as <- <-.
      match type of Hrender with
      | Hostname.render_phase _ _ _ _ ?s ?v = _ =>
          destruct (hostname_render_due tw th paint now s v eq_refl Hpos)
            as (s' & frame & Hlen & Heq)
      end.
      rewrite Heq in Hrender. destruct (fb_faulty _ _); [discriminate |].
      injection Hrender as _ <-. exists frame.
      cbn [fb_data fb_opens fb_accessed clock_read rand_drawn].
      rewrite Hdata, Hopens.
      split; [exact Hlen | split; [reflexivity | split; [reflexivity | exact Hsaved]]].
    + rewrite hostname_idle_stay in Hidle by (right; exact Hle).
      injection Hidle as <- <-.
      rewrite hostname_render_off in Hrender by exact Hoffa.
      injection Hrender as <- _. congruence.
Qed.

(** The host name loop idle for 700 seconds over a device that delivers
    three bytes. *)
Lemma first_frame_with_saver_start_witness :
  let w := sample_world (sample_oracle false (seconds_from 700)) [1; 2; 3] [] in
  let st := {| Hostname.last_activity := Fin 0; Hostname.saver_on := false;
               Hostname.saved := None; Hostname.next_draw := Fin 0 |} in
  let paint := fun (_ _ : Z) (_ _ : Z) => (200, 200, 200) in
  exists st1 w1 frame,
    Hostname.tick 120 30 paint st w = (Ok st1, w1) /\
    len frame = FRAME_BYTES /\
    fb_data w1 = overwrite frame [1; 2; 3] /\
    fb_opens w1 = 2%nat /\
    Hostname.saved st1 = Some (frame_of [1; 2; 3]).
Proof.
  intros w st paint.
  destruct (hostname_tick_enters 120 30 paint st w (ev_polled [] w) eq_refl eq_refl)
    as (st1 & w1 & Htick & Hon & _).
  - vm_compute. reflexivity.
  - vm_compute. reflexivity.
  - intros n. reflexivity.
  - assert (Hclk : forall n, fge (clock (env w) n) (Fin 0) = true).
    { intros n. cbn [w env sample_world sample_oracle clock]. unfold seconds_from.
      apply fle_Fin. change 0%Q with (inject_Z 0). rewrite <- Zle_Qle. lia. }
    destruct (proj2 (proj2 first_frame_with_saver_start) 120 30 paint st st1 w w1
                Hclk eq_refl Htick Hon) as (frame & Hlen & Hdata & Hopens & Hsaved).
    exists st1, w1, frame.
    split; [exact Htick | split; [exact Hlen |]].
    split; [exact Hdata | split; [exact Hopens | exact Hsaved]].
Defined.
